(** * TRACE provenance core: canonical manifests, container embedding, verifier

    A shallow embedding of the TRACE reference implementation
    ([src/index.ts] and [src/metadata-embed.ts]) together with the
    properties stated about it.

    Conventions of the embedding.
    - A Node [Buffer] is a list of 8-bit characters; offsets and sizes are
      integers of [Z], as JavaScript numbers are on the values that occur.
    - A JavaScript string is a [string]: the sequence of the bytes of its
      UTF-8 encoding, so that [Buffer.from(s, 'utf-8')] and
      [buf.toString('utf-8')] are changes of representation.
    - A JavaScript computation that may throw returns a [result].
    - Loops are written with fuel; the two scanners of boxes come with a
      proof that the fuel their callers pass is enough.
    - The platform's cryptography (key decoding, Ed25519 verification,
      SHA-256) is not part of the repository: the verifier is stated in a
      section over arbitrary such functions. *)

From Stdlib Require Import ZArith NArith List String Ascii Bool Lia.
From Stdlib Require Import Permutation Sorting.Sorted DecimalString OrderedTypeEx.
From Stdlib Require DecimalPos DecimalFacts.
Import ListNotations.
Local Open Scope string_scope.
Local Open Scope list_scope.
Local Open Scope Z_scope.

(** ** Results of computations that may throw *)

Inductive result (A : Type) : Type :=
| Ok (a : A)
| Throw (msg : string).
Arguments Ok {A} a.
Arguments Throw {A} msg.

Definition bind {A B : Type} (r : result A) (k : A -> result B) : result B :=
  match r with
  | Ok a => k a
  | Throw m => Throw m
  end.

Notation "x <- r ;; k" := (bind r (fun x => k))
  (at level 61, r at next level, right associativity).

(** ** Buffers *)

Module Buf.

Definition Buffer := list ascii.

Definition blen (b : Buffer) : Z := Z.of_nat (List.length b).

Definition byteZ (c : ascii) : Z := Z.of_N (N_of_ascii c).

Definition byte_of_Z (z : Z) : ascii := ascii_of_N (Z.to_N (z mod 256)).

(** [Buffer.from(s, 'utf-8')] and [Buffer.from(s, 'ascii')] on a string of
    the embedding, and [buf.toString('utf-8')]. *)
Definition from_string (s : string) : Buffer := list_ascii_of_string s.
Definition to_string (b : Buffer) : string := string_of_list_ascii b.

(** [buf.equals(other)] *)
Definition equals (a b : Buffer) : bool :=
  if list_eq_dec ascii_dec a b then true else false.

(** An index argument of [subarray]: negative counts from the end, and the
    result is clamped into [0, len]. *)
Definition clamp_index (len i : Z) : Z :=
  if i <? 0 then Z.max 0 (len + i) else Z.min i len.

(** [buf.subarray(start, end)] *)
Definition subarray (b : Buffer) (s e : Z) : Buffer :=
  let len := blen b in
  let s' := clamp_index len s in
  let e' := clamp_index len e in
  firstn (Z.to_nat (e' - s')) (skipn (Z.to_nat s') b).

(** [buf.subarray(start)] *)
Definition subarray_from (b : Buffer) (s : Z) : Buffer :=
  subarray b s (blen b).

(** [buf.readUInt32BE(offset)]: a [RangeError] unless
    [0 <= offset <= length - 4]. *)
Definition readUInt32BE (b : Buffer) (offset : Z) : result Z :=
  if offset <? 0 then Throw "ERR_OUT_OF_RANGE" else
  match skipn (Z.to_nat offset) b with
  | b0 :: b1 :: b2 :: b3 :: _ =>
      Ok (((byteZ b0 * 256 + byteZ b1) * 256 + byteZ b2) * 256 + byteZ b3)
  | _ => Throw "ERR_OUT_OF_RANGE"
  end.

(** [Number(buf.readBigUInt64BE(offset))].  The conversion to a double is
    exact below [2^53]; above, the double is still at least [2^53], more
    than any buffer length, and the code only adds it to an offset and
    compares it with [0], [1] and lengths, so the exact integer decides
    the same way. *)
Definition readUInt64BE (b : Buffer) (offset : Z) : result Z :=
  if offset <? 0 then Throw "ERR_OUT_OF_RANGE" else
  match skipn (Z.to_nat offset) b with
  | b0 :: b1 :: b2 :: b3 :: b4 :: b5 :: b6 :: b7 :: _ =>
      Ok (fold_left (fun acc c => acc * 256 + byteZ c)
                    [b0; b1; b2; b3; b4; b5; b6; b7] 0)
  | _ => Throw "ERR_OUT_OF_RANGE"
  end.

(** The four bytes [buf.writeUInt32BE(v, _)] stores: a [RangeError] unless
    [0 <= v < 2^32]. *)
Definition uint32BE (v : Z) : result Buffer :=
  if (0 <=? v) && (v <? 4294967296)
  then Ok [byte_of_Z (v / 16777216); byte_of_Z (v / 65536);
           byte_of_Z (v / 256); byte_of_Z v]
  else Throw "ERR_OUT_OF_RANGE".

Fixpoint starts_with (pat b : Buffer) : bool :=
  match pat, b with
  | [], _ => true
  | p :: pat', c :: b' => Ascii.eqb p c && starts_with pat' b'
  | _ :: _, [] => false
  end.

(** First position [>= from] (counted from the head of [b]) where [pat]
    occurs in [b]; [base] is the position of the head of [b]. *)
Fixpoint index_from (pat b : Buffer) (base from : nat) : option nat :=
  if (from <=? base)%nat && starts_with pat b then Some base else
  match b with
  | [] => None
  | _ :: b' => index_from pat b' (S base) from
  end.

(** [buf.indexOf(pat, byteOffset)] for [0 <= byteOffset]; [None] is
    [-1]. *)
Definition indexOf (b pat : Buffer) (byteOffset : Z) : option Z :=
  option_map Z.of_nat (index_from pat b 0 (Z.to_nat byteOffset)).

(** Last position where [pat] occurs in [b]. *)
Fixpoint last_index (pat b : Buffer) : option nat :=
  match b with
  | [] => if starts_with pat [] then Some O else None
  | _ :: b' =>
      match last_index pat b' with
      | Some j => Some (S j)
      | None => if starts_with pat b then Some O else None
      end
  end.

(** [buf.lastIndexOf(pat)]; [None] is [-1]. *)
Definition lastIndexOf (b pat : Buffer) : option Z :=
  option_map Z.of_nat (last_index pat b).

End Buf.
Import Buf.

(** ** JavaScript values that JSON can carry *)

Module JS.

(** Numbers are the integer ones (exact below [2^53]); the manifest has
    none. *)
Unset Elimination Schemes.
Inductive json : Type :=
| JNull
| JBool (b : bool)
| JNum (n : Z)
| JStr (s : string)
| JArr (l : list json)
| JObj (props : list (string * json)).
Set Elimination Schemes.

(** An object is the list of its own properties in the order
    [Object.keys] and [JSON.stringify] enumerate them.  A value that may
    be [undefined] is an [option]. *)
Definition props := list (string * json).

Definition chars (s : string) : list ascii := list_ascii_of_string s.

Definition dquote : ascii := "034"%char.
Definition backslash : ascii := "092"%char.

(** *** Property order *)

Definition is_digit (c : ascii) : bool :=
  (48 <=? N_of_ascii c)%N && (N_of_ascii c <=? 57)%N.

Definition digit_val (c : ascii) : Z := Z.of_N (N_of_ascii c) - 48.

Definition decimal_value (cs : list ascii) : Z :=
  fold_left (fun acc c => acc * 10 + digit_val c) cs 0.

(** An array index: the canonical decimal form of an integer in
    [0, 2^32 - 2].  Such keys are enumerated first, in numeric order. *)
Definition array_index (k : string) : option Z :=
  match chars k with
  | [] => None
  | c :: cs =>
      if forallb is_digit (c :: cs)
         && (negb (Ascii.eqb c "0"%char) || match cs with [] => true | _ => false end)
         && (List.length (c :: cs) <=? 10)%nat
         && (decimal_value (c :: cs) <=? 4294967294)
      then Some (decimal_value (c :: cs))
      else None
  end.

Fixpoint obj_get (o : props) (k : string) : option json :=
  match o with
  | [] => None
  | (k', v) :: o' => if String.eqb k' k then Some v else obj_get o' k
  end.

Definition has_key (o : props) (k : string) : bool :=
  match obj_get o k with Some _ => true | None => false end.

Fixpoint replace_value (o : props) (k : string) (v : json) : props :=
  match o with
  | [] => []
  | (k', v') :: o' =>
      if String.eqb k' k then (k', v) :: o' else (k', v') :: replace_value o' k v
  end.

(** A new index key goes before the first property that is not an index
    or is a larger index. *)
Fixpoint insert_index (o : props) (i : Z) (k : string) (v : json) : props :=
  match o with
  | [] => [(k, v)]
  | (k', v') :: o' =>
      match array_index k' with
      | Some j => if j <? i then (k', v') :: insert_index o' i k v
                  else (k, v) :: o
      | None => (k, v) :: o
      end
  end.

(** [CreateDataProperty(o, k, v)]: what [JSON.parse] and an object
    literal do for each member. *)
Definition define_property (o : props) (k : string) (v : json) : props :=
  if has_key o k then replace_value o k v
  else match array_index k with
       | Some i => insert_index o i k v
       | None => o ++ [(k, v)]
       end.

(** The assignment [o[k] = v] on an ordinary object: the key
    [__proto__] reaches the prototype setter and adds no own property. *)
Definition obj_set (o : props) (k : string) (v : json) : props :=
  if String.eqb k "__proto__" then o else define_property o k v.

(** *** [Array.prototype.sort] on strings, default comparison *)

(** The comparison is that of the bytes of the embedding.  It is the
    comparison of UTF-16 code units except between a character above
    U+FFFF and one in U+E000..U+FFFF; the keys of a manifest are ASCII. *)

Fixpoint insert_sorted (k : string) (l : list string) : list string :=
  match l with
  | [] => [k]
  | h :: t => if String.leb k h then k :: l else h :: insert_sorted k t
  end.

Definition sort (l : list string) : list string :=
  fold_right insert_sorted [] l.

(** *** [JSON.stringify] with no indentation *)

Definition hex_digit (n : N) : ascii :=
  if (n <? 10)%N then ascii_of_N (48 + n) else ascii_of_N (87 + n).

(** [QuoteJSONString], one character. *)
Definition quote_char (c : ascii) : list ascii :=
  let n := N_of_ascii c in
  if (n =? 34)%N then [backslash; dquote]
  else if (n =? 92)%N then [backslash; backslash]
  else if (n =? 8)%N then [backslash; "b"%char]
  else if (n =? 12)%N then [backslash; "f"%char]
  else if (n =? 10)%N then [backslash; "n"%char]
  else if (n =? 13)%N then [backslash; "r"%char]
  else if (n =? 9)%N then [backslash; "t"%char]
  else if (n <? 32)%N then
    [backslash; "u"%char; "0"%char; "0"%char;
     hex_digit (n / 16); hex_digit (n mod 16)]
  else [c].

Definition quote (s : string) : list ascii :=
  dquote :: flat_map quote_char (chars s) ++ [dquote].

Fixpoint join_comma (parts : list (list ascii)) : list ascii :=
  match parts with
  | [] => []
  | [p] => p
  | p :: ps => p ++ ","%char :: join_comma ps
  end.

Definition decimal (n : Z) : list ascii :=
  chars (DecimalString.NilZero.string_of_int (Z.to_int n)).

Fixpoint stringify_chars (v : json) : list ascii :=
  match v with
  | JNull => chars "null"
  | JBool true => chars "true"
  | JBool false => chars "false"
  | JNum n => decimal n
  | JStr s => quote s
  | JArr l => "["%char :: join_comma (map stringify_chars l) ++ ["]"%char]
  | JObj o =>
      "{"%char ::
      join_comma (map (fun p => quote (fst p) ++ ":"%char :: stringify_chars (snd p)) o)
      ++ ["}"%char]
  end.

Definition JSON_stringify (v : json) : string :=
  string_of_list_ascii (stringify_chars v).

(** *** [JSON.parse] *)

Definition is_ws (c : ascii) : bool :=
  let n := N_of_ascii c in
  (n =? 32)%N || (n =? 9)%N || (n =? 10)%N || (n =? 13)%N.

Fixpoint skip_ws (s : list ascii) : list ascii :=
  match s with
  | c :: s' => if is_ws c then skip_ws s' else s
  | [] => []
  end.

Definition hex_val (c : ascii) : option N :=
  let n := N_of_ascii c in
  if (48 <=? n)%N && (n <=? 57)%N then Some (n - 48)%N
  else if (97 <=? n)%N && (n <=? 102)%N then Some (n - 87)%N
  else if (65 <=? n)%N && (n <=? 70)%N then Some (n - 55)%N
  else None.

(** The bytes of the UTF-8 form of one UTF-16 code unit; the two halves
    of a surrogate pair are encoded one by one (no code of the repository
    produces such an escape). *)
Definition utf8_of_unit (u : N) : list ascii :=
  if (u <? 128)%N then [ascii_of_N u]
  else if (u <? 2048)%N then
    [ascii_of_N (192 + u / 64); ascii_of_N (128 + u mod 64)]
  else
    [ascii_of_N (224 + u / 4096); ascii_of_N (128 + (u / 64) mod 64);
     ascii_of_N (128 + u mod 64)].

(** The characters of a string literal after its opening quote, up to the
    closing quote.  A raw control character is a [SyntaxError]. *)
Fixpoint parse_string_body (s : list ascii) : option (list ascii * list ascii) :=
  match s with
  | [] => None
  | c :: s' =>
      if Ascii.eqb c dquote then Some ([], s')
      else if Ascii.eqb c backslash then
        match s' with
        | e :: s'' =>
            let simple (x : ascii) :=
              match parse_string_body s'' with
              | Some (body, rest) => Some (x :: body, rest)
              | None => None
              end in
            if Ascii.eqb e dquote then simple dquote
            else if Ascii.eqb e backslash then simple backslash
            else if Ascii.eqb e "/"%char then simple "/"%char
            else if Ascii.eqb e "b"%char then simple "008"%char
            else if Ascii.eqb e "f"%char then simple "012"%char
            else if Ascii.eqb e "n"%char then simple "010"%char
            else if Ascii.eqb e "r"%char then simple "013"%char
            else if Ascii.eqb e "t"%char then simple "009"%char
            else if Ascii.eqb e "u"%char then
              match s'' with
              | h3 :: h2 :: h1 :: h0 :: s3 =>
                  match hex_val h3, hex_val h2, hex_val h1, hex_val h0 with
                  | Some a, Some b, Some c', Some d =>
                      match parse_string_body s3 with
                      | Some (body, rest) =>
                          Some (utf8_of_unit (((a * 16 + b) * 16 + c') * 16 + d)%N
                                  ++ body, rest)
                      | None => None
                      end
                  | _, _, _, _ => None
                  end
              | _ => None
              end
            else None
        | [] => None
        end
      else if (N_of_ascii c <? 32)%N then None
      else
        match parse_string_body s' with
        | Some (body, rest) => Some (c :: body, rest)
        | None => None
        end
  end.

Fixpoint span_digits (s : list ascii) : list ascii * list ascii :=
  match s with
  | c :: s' =>
      if is_digit c then let (ds, rest) := span_digits s' in (c :: ds, rest)
      else ([], s)
  | [] => ([], [])
  end.

(** An integer literal; a fraction or an exponent is outside the values of
    the embedding and is refused. *)
Definition parse_number (s : list ascii) : option (Z * list ascii) :=
  let (neg, s1) :=
    match s with
    | c :: s' => if Ascii.eqb c "-"%char then (true, s') else (false, s)
    | [] => (false, s)
    end in
  let (ds, rest) := span_digits s1 in
  let canonical :=
    match ds with
    | [] => false
    | [_] => true
    | d :: _ => negb (Ascii.eqb d "0"%char)
    end in
  let plain :=
    match rest with
    | c :: _ => negb (Ascii.eqb c "."%char || Ascii.eqb c "e"%char || Ascii.eqb c "E"%char)
    | [] => true
    end in
  if canonical && plain
  then Some (if neg then - decimal_value ds else decimal_value ds, rest)
  else None.

Fixpoint parse_value (fuel : nat) (s : list ascii) {struct fuel}
  : option (json * list ascii) :=
  match fuel with
  | O => None
  | S f =>
      match skip_ws s with
      | "n"%char :: "u"%char :: "l"%char :: "l"%char :: r => Some (JNull, r)
      | "t"%char :: "r"%char :: "u"%char :: "e"%char :: r => Some (JBool true, r)
      | "f"%char :: "a"%char :: "l"%char :: "s"%char :: "e"%char :: r =>
          Some (JBool false, r)
      | "["%char :: r =>
          match skip_ws r with
          | "]"%char :: r' => Some (JArr [], r')
          | _ =>
              match parse_elements f r with
              | Some (vs, r') => Some (JArr vs, r')
              | None => None
              end
          end
      | "{"%char :: r =>
          match skip_ws r with
          | "}"%char :: r' => Some (JObj [], r')
          | _ =>
              match parse_members f [] r with
              | Some (o, r') => Some (JObj o, r')
              | None => None
              end
          end
      | c :: r =>
          if Ascii.eqb c dquote then
            match parse_string_body r with
            | Some (body, r') => Some (JStr (string_of_list_ascii body), r')
            | None => None
            end
          else
            match parse_number (c :: r) with
            | Some (n, r') => Some (JNum n, r')
            | None => None
            end
      | [] => None
      end
  end
with parse_elements (fuel : nat) (s : list ascii) {struct fuel}
  : option (list json * list ascii) :=
  match fuel with
  | O => None
  | S f =>
      match parse_value f s with
      | Some (v, r) =>
          match skip_ws r with
          | ","%char :: r' =>
              match parse_elements f r' with
              | Some (vs, r'') => Some (v :: vs, r'')
              | None => None
              end
          | "]"%char :: r' => Some ([v], r')
          | _ => None
          end
      | None => None
      end
  end
with parse_members (fuel : nat) (acc : props) (s : list ascii) {struct fuel}
  : option (props * list ascii) :=
  match fuel with
  | O => None
  | S f =>
      match skip_ws s with
      | c :: r =>
          if Ascii.eqb c dquote then
            match parse_string_body r with
            | Some (key, r1) =>
                match skip_ws r1 with
                | ":"%char :: r2 =>
                    match parse_value f r2 with
                    | Some (v, r3) =>
                        let acc' :=
                          define_property acc (string_of_list_ascii key) v in
                        match skip_ws r3 with
                        | ","%char :: r4 => parse_members f acc' r4
                        | "}"%char :: r4 => Some (acc', r4)
                        | _ => None
                        end
                    | None => None
                    end
                | _ => None
                end
            | None => None
            end
          else None
      | [] => None
      end
  end.

(** [JSON.parse(text)]; a [SyntaxError] is a [Throw]. *)
Definition JSON_parse (text : string) : result json :=
  let s := chars text in
  match parse_value (2 * List.length s + 2) s with
  | Some (v, rest) =>
      match skip_ws rest with
      | [] => Ok v
      | _ => Throw "SyntaxError"
      end
  | None => Throw "SyntaxError"
  end.

(** [ToString] of a value that came out of [JSON.parse], or of
    [undefined]: what [JSON.parse] does to an argument that is not a
    string. *)
Fixpoint ToString (v : json) : list ascii :=
  match v with
  | JNull => chars "null"
  | JBool true => chars "true"
  | JBool false => chars "false"
  | JNum n => decimal n
  | JStr s => chars s
  | JArr l =>
      join_comma (map (fun x => match x with JNull => [] | _ => ToString x end) l)
  | JObj _ => chars "[object Object]"
  end.

Definition ToString_opt (v : option json) : string :=
  match v with
  | Some x => string_of_list_ascii (ToString x)
  | None => "undefined"
  end.

(** *** Property access [v.k] *)

(** [v.k]: a [TypeError] on [null] and [undefined]; [undefined] on a
    missing property and on every primitive and array (the names the code
    reads are no array or string members). *)
Definition get_prop (v : option json) (k : string) : result (option json) :=
  match v with
  | None => Throw "TypeError"
  | Some JNull => Throw "TypeError"
  | Some (JObj o) => Ok (obj_get o k)
  | Some _ => Ok None
  end.

(** *** [canonicalJSON] (index.ts) *)

(** One turn of the loop [for (const key of keys) sorted[key] = ...],
    where the value for a key is looked up in [values]. *)
Definition add_key (values : props) (sorted : props) (key : string) : props :=
  match obj_get values key with
  | Some v => obj_set sorted key v
  | None => sorted
  end.

Definition assemble (values : props) (keys : list string) : props :=
  fold_left (add_key values) keys [].

(** [sortKeys]: the loop reads [o[key]] for the keys of [o] only, so the
    values are rewritten first and looked up in the rewritten list. *)
Fixpoint sortKeys (o : json) : json :=
  match o with
  | JArr l => JArr (map sortKeys l)
  | JObj ps =>
      let rewritten := map (fun p => (fst p, sortKeys (snd p))) ps in
      let keys := sort (map fst ps) in
      JObj (assemble rewritten keys)
  | _ => o
  end.

Definition canonicalJSON (obj : json) : string :=
  JSON_stringify (sortKeys obj).

End JS.
Import JS.

(** ** Base64 as [buf.toString('base64')] and [Buffer.from(s, 'base64')] *)

Module Base64.

Definition b64_char (n : N) : ascii :=
  if (n <? 26)%N then ascii_of_N (65 + n)
  else if (n <? 52)%N then ascii_of_N (71 + n)
  else if (n <? 62)%N then ascii_of_N (n - 4)
  else if (n =? 62)%N then "+"%char
  else "/"%char.

Definition pad : ascii := "="%char.

Fixpoint encode (b : Buffer) : list ascii :=
  match b with
  | [] => []
  | [x] =>
      let a := N_of_ascii x in
      [b64_char (a / 4); b64_char ((a mod 4) * 16); pad; pad]
  | [x; y] =>
      let a := N_of_ascii x in
      let b := N_of_ascii y in
      [b64_char (a / 4); b64_char ((a mod 4) * 16 + b / 16);
       b64_char ((b mod 16) * 4); pad]
  | x :: y :: z :: rest =>
      let a := N_of_ascii x in
      let b := N_of_ascii y in
      let c := N_of_ascii z in
      b64_char (a / 4) :: b64_char ((a mod 4) * 16 + b / 16)
      :: b64_char ((b mod 16) * 4 + c / 64) :: b64_char (c mod 64)
      :: encode rest
  end%N.

(** The decoder accepts both alphabets. *)
Definition unbase64 (c : ascii) : option N :=
  let n := N_of_ascii c in
  if (65 <=? n)%N && (n <=? 90)%N then Some (n - 65)%N
  else if (97 <=? n)%N && (n <=? 122)%N then Some (n - 71)%N
  else if (48 <=? n)%N && (n <=? 57)%N then Some (n + 4)%N
  else if (n =? 43)%N || (n =? 45)%N then Some 62%N
  else if (n =? 47)%N || (n =? 95)%N then Some 63%N
  else None.

(** Node's decoder never throws: it skips what is not in the alphabet and
    stops at the first padding character. *)
Fixpoint sextets (s : list ascii) : list N :=
  match s with
  | [] => []
  | c :: s' =>
      if Ascii.eqb c pad then []
      else match unbase64 c with
           | Some v => v :: sextets s'
           | None => sextets s'
           end
  end.

Fixpoint decode_sextets (l : list N) : Buffer :=
  match l with
  | a :: b :: c :: d :: rest =>
      ascii_of_N (a * 4 + b / 16) :: ascii_of_N ((b mod 16) * 16 + c / 4)
      :: ascii_of_N ((c mod 4) * 64 + d) :: decode_sextets rest
  | [a; b; c] =>
      [ascii_of_N (a * 4 + b / 16); ascii_of_N ((b mod 16) * 16 + c / 4)]
  | [a; b] => [ascii_of_N (a * 4 + b / 16)]
  | _ => []
  end%N.

Definition decode (s : list ascii) : Buffer := decode_sextets (sextets s).

End Base64.

(** ** The file system *)

Module FS.

Definition fs := string -> option Buffer.

Definition existsSync (f : fs) (path : string) : bool :=
  match f path with Some _ => true | None => false end.

Definition readFileSync (f : fs) (path : string) : result Buffer :=
  match f path with
  | Some b => Ok b
  | None => Throw "ENOENT"
  end.

Definition writeFileSync (f : fs) (path : string) (content : Buffer) : fs :=
  fun q => if String.eqb q path then Some content else f q.

End FS.
Import FS.

(** ** Container embedding (metadata-embed.ts) *)

Module Embed.

(** The TRACE vendor identifier of the [uuid] box. *)
Definition TRACE_UUID : Buffer :=
  map byte_of_Z
    [0x54; 0x52; 0x41; 0x43; 0x45; 0x2d; 0x50; 0x72;
     0x6f; 0x76; 0x2d; 0x32; 0x30; 0x32; 0x34; 0x2d].

Definition TRACE_WEBM_TAG : string := "TRACEPROV".

(** The two members may be [undefined] or no strings when the envelope
    was not written by this code. *)
Record EmbeddedMetadata : Type := mkEmbedded {
  manifest : option json;
  signature : option json
}.

Record Box : Type := mkBox {
  size : Z;
  type : string;
  data : Buffer;
  startOffset : Z
}.

Record UUIDBox : Type := mkUUIDBox {
  uuid : Buffer;
  udata : Buffer
}.

(** One turn of a loop: leave it with a value, or go on at an offset. *)
Inductive turn (A : Type) : Type :=
| Leave (r : A)
| Next (offset : Z).
Arguments Leave {A} r.
Arguments Next {A} offset.

(** *** [findAndParseBox] *)

(** The head of the loop body: the size of the box at [offset] and the
    offset of its tag.  A size field of 1 announces a 64-bit size at
    [offset + 8]; [None] is the [break] on a buffer too short for it. *)
Definition read_header (buffer : Buffer) (offset : Z) : result (option (Z * Z)) :=
  size0 <- readUInt32BE buffer offset ;;
  if size0 =? 1 then
    if offset + 16 >? blen buffer then Ok None
    else
      size <- readUInt64BE buffer (offset + 8) ;;
      Ok (Some (size, offset + 16))
  else Ok (Some (size0, offset + 4)).

(** The body of the [while] loop, entered when
    [offset < buffer.length - 8]. *)
Definition findAndParseBox_body (buffer : Buffer) (boxType : string)
    (offset : Z) : turn (result (option Box)) :=
  let typeBytes := from_string boxType in
  let offsetStart := offset in
  match read_header buffer offset with
  | Throw m => Leave (Throw m)
  | Ok None => Leave (Ok None)
  | Ok (Some (size, offset)) =>
      if offset + 4 >? blen buffer then Leave (Ok None)
      else
        let type := subarray buffer offset (offset + 4) in
        if equals type typeBytes then
          let dataStart := offset + 4 in
          let dataEnd := offsetStart + size in
          let dataOffset := if String.eqb boxType "meta" then 4 else 0 in
          Leave (Ok (Some (mkBox size boxType
                             (subarray buffer (dataStart + dataOffset) dataEnd)
                             offsetStart)))
        else if size =? 0 then Leave (Ok None)
        else Next (offsetStart + size)
  end.

(** The loop; [None] when the fuel runs out. *)
Fixpoint findAndParseBox_loop (fuel : nat) (buffer : Buffer) (boxType : string)
    (offset : Z) : option (result (option Box)) :=
  match fuel with
  | O => None
  | S fuel' =>
      if offset <? blen buffer - 8 then
        match findAndParseBox_body buffer boxType offset with
        | Leave r => Some r
        | Next offset' => findAndParseBox_loop fuel' buffer boxType offset'
        end
      else Some (Ok None)
  end.

Definition findAndParseBox_fuel (buffer : Buffer) : nat := S (List.length buffer).

Definition findAndParseBox (buffer : Buffer) (boxType : string)
    (startOffset : Z) : result (option Box) :=
  match findAndParseBox_loop (findAndParseBox_fuel buffer) buffer boxType startOffset with
  | Some r => r
  | None => Ok None
  end.

(** *** [extractUUIDBoxes] *)

Inductive uuid_turn : Type :=
| UBreak (pushed : option UUIDBox)
| UThrow (msg : string)
| UNext (pushed : option UUIDBox) (offset : Z).

Definition extractUUIDBoxes_body (metaData : Buffer) (offset : Z) : uuid_turn :=
  match readUInt32BE metaData offset with
  | Throw m => UThrow m
  | Ok size0 =>
      if (size0 =? 0) || (size0 >? blen metaData - offset) then UBreak None
      else
        let header :=
          if size0 =? 1 then (readUInt64BE metaData (offset + 8), offset + 16)
          else (Ok size0, offset + 4) in
        match header with
        | (Throw m, _) => UThrow m
        | (Ok size, offset) =>
            if offset + 4 >? blen metaData then UBreak None
            else
              let type := subarray metaData offset (offset + 4) in
              let back := if size =? 1 then 16 else 4 in
              if equals type (from_string "uuid") then
                if offset + 24 >? blen metaData then UBreak None
                else
                  let uuid := subarray metaData (offset + 8) (offset + 24) in
                  let dataStart := offset + 24 in
                  let dataEnd := offset - back + size in
                  let box := mkUUIDBox uuid (subarray metaData dataStart dataEnd) in
                  if size =? 0 then UBreak (Some box)
                  else UNext (Some box) (offset - back + size)
              else if size =? 0 then UBreak None
              else UNext None (offset - back + size)
        end
  end.

Definition push (boxes : list UUIDBox) (b : option UUIDBox) : list UUIDBox :=
  match b with
  | Some x => boxes ++ [x]
  | None => boxes
  end.

Fixpoint extractUUIDBoxes_loop (fuel : nat) (metaData : Buffer)
    (boxes : list UUIDBox) (offset : Z) : option (result (list UUIDBox)) :=
  match fuel with
  | O => None
  | S fuel' =>
      if offset <? blen metaData - 8 then
        match extractUUIDBoxes_body metaData offset with
        | UBreak b => Some (Ok (push boxes b))
        | UThrow m => Some (Throw m)
        | UNext b offset' =>
            extractUUIDBoxes_loop fuel' metaData (push boxes b) offset'
        end
      else Some (Ok boxes)
  end.

Definition extractUUIDBoxes (metaData : Buffer) : result (list UUIDBox) :=
  match extractUUIDBoxes_loop (S (List.length metaData)) metaData [] 0 with
  | Some r => r
  | None => Ok []
  end.

(** *** Building boxes *)

(** Every caller passes a 16-byte [uuid], so that the copies at 8 and at
    24 fill the allocated box. *)
Definition createUUIDBox (uuid data : Buffer) : result Buffer :=
  let boxSize := 4 + 4 + 16 + blen data in
  sz <- uint32BE boxSize ;;
  Ok (sz ++ from_string "uuid" ++ uuid ++ data).

Fixpoint createUUIDBoxes (uuidBoxes : list UUIDBox) : result (list Buffer) :=
  match uuidBoxes with
  | [] => Ok []
  | b :: bs =>
      x <- createUUIDBox (uuid b) (udata b) ;;
      xs <- createUUIDBoxes bs ;;
      Ok (x :: xs)
  end.

Definition createMetaBox (uuidBoxes : list UUIDBox) : result Buffer :=
  uuidBoxBuffers <- createUUIDBoxes uuidBoxes ;;
  let metaData := List.concat uuidBoxBuffers in
  let boxSize := 4 + 4 + 4 + blen metaData in
  sz <- uint32BE boxSize ;;
  zero <- uint32BE 0 ;;
  Ok (sz ++ from_string "meta" ++ zero ++ metaData).

(** The only caller passes the four-character type [moov]. *)
Definition createBox (type : string) (data : Buffer) : result Buffer :=
  let boxSize := 4 + 4 + blen data in
  sz <- uint32BE boxSize ;;
  Ok (sz ++ from_string type ++ data).

Definition removeBoxFromBuffer (buffer : Buffer) (boxType : string)
    : result Buffer :=
  found <- findAndParseBox buffer boxType 0 ;;
  match found with
  | None => Ok buffer
  | Some box =>
      let before := subarray buffer 0 (startOffset box) in
      let after := subarray_from buffer (startOffset box + size box) in
      Ok (before ++ after)
  end.

Definition insertBox (buffer box : Buffer) : Buffer := buffer ++ box.

Definition replaceBoxInFile (fileBuffer : Buffer) (boxType : string)
    (newBox : Buffer) : result Buffer :=
  found <- findAndParseBox fileBuffer boxType 0 ;;
  match found with
  | None => Ok fileBuffer
  | Some box =>
      let before := subarray fileBuffer 0 (startOffset box) in
      let after := subarray_from fileBuffer (startOffset box + size box) in
      Ok (before ++ newBox ++ after)
  end.

(** *** The envelope *)

(** The object [{ manifest, signature }] of two strings. *)
Definition envelope_value (manifest signature : string) : json :=
  JObj [("manifest", JStr manifest); ("signature", JStr signature)].

(** [JSON.stringify({ manifest, signature })] *)
Definition envelope (manifest signature : string) : string :=
  JSON_stringify (envelope_value manifest signature).

(** The [try] block that both extractors end with. *)
Definition parse_envelope (text : string) : option EmbeddedMetadata :=
  match JSON_parse text with
  | Throw _ => None
  | Ok metadata =>
      match get_prop (Some metadata) "manifest",
            get_prop (Some metadata) "signature" with
      | Ok m, Ok s => Some (mkEmbedded m s)
      | _, _ => None
      end
  end.

(** *** MP4 *)

(** The new content of the file. *)
Definition embedMP4_buffer (fileBuffer : Buffer) (manifest signature : string)
    : result Buffer :=
  moovBox <- findAndParseBox fileBuffer "moov" 0 ;;
  match moovBox with
  | None => Throw "MP4 file does not contain moov box"
  | Some moovBox =>
      existingMetaBox <- findAndParseBox (data moovBox) "meta" 0 ;;
      let metadata := envelope manifest signature in
      let metadataBuffer := from_string metadata in
      newMetaBox <-
        match existingMetaBox with
        | None => createMetaBox [mkUUIDBox TRACE_UUID metadataBuffer]
        | Some existingMetaBox =>
            uuidBoxes <- extractUUIDBoxes (data existingMetaBox) ;;
            let otherUUIDBoxes :=
              filter (fun box => negb (equals (uuid box) TRACE_UUID)) uuidBoxes in
            createMetaBox (otherUUIDBoxes ++ [mkUUIDBox TRACE_UUID metadataBuffer])
        end ;;
      moovWithoutMeta <- removeBoxFromBuffer (data moovBox) "meta" ;;
      let newMoovData := insertBox moovWithoutMeta newMetaBox in
      newMoovBox <- createBox "moov" newMoovData ;;
      replaceBoxInFile fileBuffer "moov" newMoovBox
  end.

(** [embedMetadataMP4]: the outcome and the file system it leaves. *)
Definition embedMetadataMP4 (f : fs) (videoPath : string)
    (manifest signature : string) : result unit * fs :=
  match readFileSync f videoPath with
  | Throw m => (Throw m, f)
  | Ok fileBuffer =>
      match embedMP4_buffer fileBuffer manifest signature with
      | Throw m => (Throw m, f)
      | Ok newFile => (Ok tt, writeFileSync f videoPath newFile)
      end
  end.

Definition extractMP4_buffer (fileBuffer : Buffer)
    : result (option EmbeddedMetadata) :=
  moovBox <- findAndParseBox fileBuffer "moov" 0 ;;
  match moovBox with
  | None => Ok None
  | Some moovBox =>
      metaBox <- findAndParseBox (data moovBox) "meta" 0 ;;
      match metaBox with
      | None => Ok None
      | Some metaBox =>
          uuidBoxes <- extractUUIDBoxes (data metaBox) ;;
          match find (fun box => equals (uuid box) TRACE_UUID) uuidBoxes with
          | None => Ok None
          | Some traceBox => Ok (parse_envelope (to_string (udata traceBox)))
          end
      end
  end.

Definition extractMetadataMP4 (f : fs) (videoPath : string)
    : result (option EmbeddedMetadata) :=
  if negb (existsSync f videoPath) then Ok None
  else
    fileBuffer <- readFileSync f videoPath ;;
    extractMP4_buffer fileBuffer.

(** *** WebM *)

Definition tagMarker : string := "<!--TRACEPROV:".
Definition tagClose : string := "-->".

(** The bytes [embedMetadataWebM] appends: a line feed, the marker, the
    envelope in Base64, the closing delimiter. *)
Definition webm_tag (manifest signature : string) : Buffer :=
  let metadata := envelope manifest signature in
  "010"%char :: from_string tagMarker
  ++ Base64.encode (from_string metadata) ++ from_string tagClose.

Definition embedMetadataWebM (f : fs) (videoPath : string)
    (manifest signature : string) : result unit * fs :=
  match readFileSync f videoPath with
  | Throw m => (Throw m, f)
  | Ok fileBuffer =>
      (Ok tt, writeFileSync f videoPath (fileBuffer ++ webm_tag manifest signature))
  end.

Definition extractWebM_buffer (fileBuffer : Buffer) : option EmbeddedMetadata :=
  let tagMarkerBytes := from_string tagMarker in
  match lastIndexOf fileBuffer tagMarkerBytes with
  | None => None
  | Some index =>
      let start := index + blen tagMarkerBytes in
      match indexOf fileBuffer (from_string tagClose) start with
      | None => None
      | Some end_ =>
          let base64Data := to_string (subarray fileBuffer start end_) in
          parse_envelope (to_string (Base64.decode (from_string base64Data)))
      end
  end.

Definition extractMetadataWebM (f : fs) (videoPath : string)
    : result (option EmbeddedMetadata) :=
  if negb (existsSync f videoPath) then Ok None
  else
    fileBuffer <- readFileSync f videoPath ;;
    Ok (extractWebM_buffer fileBuffer).

End Embed.
Import Embed.

(** ** Format dispatch (metadata-embed.ts) *)

Module Dispatch.

Inductive media : Type := mp4 | webm.

(** [s.split('.').pop()]: what follows the last dot, or all of [s]. *)
Fixpoint last_segment (s acc : list ascii) : list ascii :=
  match s with
  | [] => acc
  | c :: s' =>
      if Ascii.eqb c "."%char then last_segment s' []
      else last_segment s' (acc ++ [c])
  end.

Definition lower (c : ascii) : ascii :=
  let n := N_of_ascii c in
  if (65 <=? n)%N && (n <=? 90)%N then ascii_of_N (n + 32) else c.

Definition toLowerCase (s : list ascii) : list ascii := map lower s.

Definition getMediaType (filePath : string) : option media :=
  let ext := string_of_list_ascii (toLowerCase (last_segment (chars filePath) [])) in
  if String.eqb ext "mp4" then Some mp4
  else if String.eqb ext "webm" then Some webm
  else None.

Definition embedMetadata (f : fs) (videoPath manifest signature : string)
    : result unit * fs :=
  match getMediaType videoPath with
  | None => (Throw "Unsupported media type", f)
  | Some mp4 => embedMetadataMP4 f videoPath manifest signature
  | Some webm => embedMetadataWebM f videoPath manifest signature
  end.

Definition extractMetadata (f : fs) (videoPath : string)
    : result (option EmbeddedMetadata) :=
  match getMediaType videoPath with
  | None => Ok None
  | Some mp4 => extractMetadataMP4 f videoPath
  | Some webm => extractMetadataWebM f videoPath
  end.

End Dispatch.
Import Dispatch.

(** ** The verifier (index.ts) *)

Inductive VerificationResult : Type := VALID | INVALID | INCONCLUSIVE.

Record Verdict : Type := mkVerdict {
  result_of : VerificationResult;
  message : string
}.

(** A manifest with its signature and where they were found. *)
Record Resolved : Type := mkResolved {
  r_manifest : json;
  r_signature : option json;
  r_source : string
}.

Module Verify.

Section Verifier.

(** The platform: Node's [crypto] and [path] modules, and [Buffer.from]
    on a value that is an array or an object. *)
Variable KeyObject : Type.
Variable createPublicKey : string -> result KeyObject.
Variable crypto_verify : Buffer -> KeyObject -> Buffer -> result bool.
Variable sha256_hex : Buffer -> string.
Variable Buffer_from_object : json -> result Buffer.
Variable basename : string -> string -> string.
Variable dirname : string -> string.
Variable join : string -> string -> string.

(** [Buffer.from(v, 'base64')] *)
Definition Buffer_from_base64 (v : option json) : result Buffer :=
  match v with
  | Some (JStr s) => Ok (Base64.decode (chars s))
  | Some (JArr l) => Buffer_from_object (JArr l)
  | Some (JObj o) => Buffer_from_object (JObj o)
  | _ => Throw "TypeError"
  end.

Definition computeFileHash (f : fs) (filePath : string) : result string :=
  fileBuffer <- readFileSync f filePath ;;
  Ok ("sha256:" ++ sha256_hex fileBuffer)%string.

Definition getSidecarPaths (videoPath : string) : string * string :=
  let ext := string_of_list_ascii (last_segment (chars videoPath) []) in
  let baseName := basename videoPath ("." ++ ext)%string in
  let dir := dirname videoPath in
  let basePath := join dir baseName in
  ((basePath ++ ".prov.json")%string, (basePath ++ ".prov.sig")%string).

(** An optional path argument is used when it is a non-empty string. *)
Definition truthy (p : option string) : bool :=
  match p with
  | Some s => negb (String.eqb s "")
  | None => false
  end.

Definition inconclusive (msg : string) : Verdict := mkVerdict INCONCLUSIVE msg.

(** The first [try] block: the embedded manifest. *)
Definition resolve_embedded (f : fs) (videoPath : string) : result Resolved :=
  embedded <- extractMetadata f videoPath ;;
  match embedded with
  | Some embedded =>
      let manifestJson := manifest embedded in
      manifest <- JSON_parse (ToString_opt manifestJson) ;;
      Ok (mkResolved manifest (signature embedded) "embedded metadata")
  | None => Throw "No embedded metadata found"
  end.

(** Its [catch] block: the sidecar files. *)
Definition sidecar_paths (videoPath : string)
    (manifestPath signaturePath : option string) : string * string :=
  match manifestPath, signaturePath with
  | Some mp, Some sp =>
      if truthy manifestPath && truthy signaturePath then (mp, sp)
      else getSidecarPaths videoPath
  | _, _ => getSidecarPaths videoPath
  end.

Definition resolve_sidecar (f : fs) (videoPath : string)
    (manifestPath signaturePath : option string) : Verdict + Resolved :=
  let sidecarPaths := sidecar_paths videoPath manifestPath signaturePath in
  if negb (existsSync f (fst sidecarPaths)) then
    inl (inconclusive "Manifest file not found (neither embedded nor sidecar)")
  else if negb (existsSync f (snd sidecarPaths)) then
    inl (inconclusive "Signature file not found (neither embedded nor sidecar)")
  else
    match (manifestJson <- readFileSync f (fst sidecarPaths) ;;
           manifest <- JSON_parse (to_string manifestJson) ;;
           signature <- readFileSync f (snd sidecarPaths) ;;
           Ok (mkResolved manifest (Some (JStr (to_string signature)))
                 "sidecar files"))
    with
    | Ok r => inr r
    | Throw m => inl (inconclusive ("Error reading sidecar files: " ++ m)%string)
    end.

Definition resolve (f : fs) (videoPath : string)
    (manifestPath signaturePath : option string) : Verdict + Resolved :=
  match resolve_embedded f videoPath with
  | Ok r => inr r
  | Throw _ => resolve_sidecar f videoPath manifestPath signaturePath
  end.

(** [signatureValid]: the outcome of the signature check on a resolved
    manifest. *)
Definition check_signature (r : Resolved) : result bool :=
  let canonicalJson := canonicalJSON (r_manifest r) in
  provider <- get_prop (Some (r_manifest r)) "provider" ;;
  public_key <- get_prop provider "public_key" ;;
  keyBytes <- Buffer_from_base64 public_key ;;
  let publicKeyPem := to_string keyBytes in
  publicKeyObj <- createPublicKey publicKeyPem ;;
  let data := from_string canonicalJson in
  signatureBuffer <- Buffer_from_base64 (r_signature r) ;;
  crypto_verify data publicKeyObj signatureBuffer.

(** [currentHash !== manifestHash], negated. *)
Definition same_hash (currentHash : string) (manifestHash : option json) : bool :=
  match manifestHash with
  | Some (JStr h) => String.eqb currentHash h
  | _ => false
  end.

Definition check_hash (f : fs) (videoPath : string) (r : Resolved) : result bool :=
  currentHash <- computeFileHash f videoPath ;;
  output <- get_prop (Some (r_manifest r)) "output" ;;
  manifestHash <- get_prop output "hash" ;;
  Ok (same_hash currentHash manifestHash).

(** The last [try] block. *)
Definition verify_resolved (f : fs) (videoPath : string) (r : Resolved)
    : result Verdict :=
  signatureValid <- check_signature r ;;
  if negb signatureValid then
    Ok (mkVerdict INVALID "Signature verification failed")
  else
    hashOk <- check_hash f videoPath r ;;
    if negb hashOk then
      Ok (mkVerdict INVALID "File hash mismatch - file may have been modified")
    else
      Ok (mkVerdict VALID
            ("Provenance verified successfully (from " ++ r_source r ++ ")")%string).

Definition verifyManifest (f : fs) (videoPath : string)
    (manifestPath signaturePath : option string) : Verdict :=
  if negb (existsSync f videoPath) then inconclusive "Video file not found"
  else
    match resolve f videoPath manifestPath signaturePath with
    | inl v => v
    | inr r =>
        match verify_resolved f videoPath r with
        | Ok v => v
        | Throw m => inconclusive ("Verification error: " ++ m)%string
        end
    end.

End Verifier.

End Verify.
Import Verify.

(** ** Stamping (index.ts) *)

Module Stamp.

Record Provider : Type := mkProvider {
  provider_id : string;
  provider_name : string;
  public_key : string
}.

Record Model : Type := mkModel {
  model_id : string;
  model_version : string
}.

(** [buf.toString('hex')] *)
Definition hex (b : Buffer) : list ascii :=
  flat_map (fun c => [hex_digit (N_of_ascii c / 16); hex_digit (N_of_ascii c mod 16)]) b.

Section Stamper.

(** The platform: SHA-256, the export of the public half of a private
    key as PEM text, Ed25519 signing, the [path] module; and what the
    two reads of the environment return in the call at hand, the sixteen
    bytes of [randomBytes(16)] and the text of
    [new Date().toISOString()]. *)
Variable sha256_hex : Buffer -> string.
Variable export_public_pem : string -> result string.
Variable crypto_sign : Buffer -> string -> result Buffer.
Variable basename : string -> string -> string.
Variable dirname : string -> string.
Variable join : string -> string -> string.
Variable randomBytes16 : Buffer.
Variable toISOString_now : string.

Definition extractPublicKey (privateKey : string) : result string :=
  match export_public_pem privateKey with
  | Ok publicKeyPem =>
      Ok (string_of_list_ascii (Base64.encode (from_string publicKeyPem)))
  | Throw m => Throw ("Failed to extract public key: " ++ m)%string
  end.

Definition generateNonce : string := string_of_list_ascii (hex randomBytes16).

Definition signManifest (manifestJson privateKey : string) : result string :=
  let data := from_string manifestJson in
  signObj <- crypto_sign data privateKey ;;
  Ok (string_of_list_ascii (Base64.encode signObj)).

(** [operation] is one of the two strings of the type [Operation] when
    the caller respects the type; the comparison is the one of the
    code.  [inputHash] is a string or [null]. *)
Definition createManifest (f : fs) (videoPath operation : string)
    (provider : Provider) (model : Model) (privateKey : string)
    (inputHash : option string) : result (json * string) :=
  outputHash <- computeFileHash sha256_hex f videoPath ;;
  let ext :=
    match toLowerCase (last_segment (chars videoPath) []) with
    | [] => "mp4"
    | e => string_of_list_ascii e
    end in
  let mediaType := if String.eqb ext "webm" then "video/webm" else "video/mp4" in
  let nonce := generateNonce in
  let claims :=
    if String.eqb operation "ai_generated"
    then [JStr "ai_generated"] else [JStr "ai_transformed"] in
  key <- (if String.eqb (public_key provider) "" then extractPublicKey privateKey
          else Ok (public_key provider)) ;;
  let manifest :=
    JObj [("spec_version", JStr "0.1");
          ("media_profile", JStr "video");
          ("provider", JObj [("id", JStr (provider_id provider));
                             ("name", JStr (provider_name provider));
                             ("public_key", JStr key)]);
          ("operation", JStr operation);
          ("model", JObj [("id", JStr (model_id model));
                          ("version", JStr (model_version model))]);
          ("timestamps", JObj [("created_utc", JStr toISOString_now)]);
          ("input", JObj [("hash", match inputHash with
                                   | Some h => JStr h
                                   | None => JNull
                                   end)]);
          ("output", JObj [("hash", JStr outputHash);
                           ("media_type", JStr mediaType)]);
          ("claims", JArr claims);
          ("nonce", JStr nonce)] in
  let manifestJson := canonicalJSON manifest in
  signature <- signManifest manifestJson privateKey ;;
  Ok (manifest, signature).

(** The file system after the two writes. *)
Definition saveSidecarFiles (f : fs) (videoPath : string) (manifest : json)
    (signature : string) : fs :=
  let (manifestPath, signaturePath) :=
    getSidecarPaths basename dirname join videoPath in
  let canonicalJson := canonicalJSON manifest in
  let f1 := writeFileSync f manifestPath (from_string canonicalJson) in
  writeFileSync f1 signaturePath (from_string signature).

End Stamper.

End Stamp.
Import Stamp.

(** ** The verifier of the earlier version of index.ts

    It reads the sidecar files only; what it does with the manifest and
    the signature is the text of the last [try] block of the later
    version. *)

Module SidecarOnly.

Section Verifier.

Variable KeyObject : Type.
Variable createPublicKey : string -> result KeyObject.
Variable crypto_verify : Buffer -> KeyObject -> Buffer -> result bool.
Variable sha256_hex : Buffer -> string.
Variable Buffer_from_object : json -> result Buffer.

Definition verifyManifest (f : fs) (videoPath manifestPath signaturePath : string)
    : Verdict :=
  if negb (existsSync f manifestPath) then
    mkVerdict INCONCLUSIVE "Manifest file not found"
  else if negb (existsSync f signaturePath) then
    mkVerdict INCONCLUSIVE "Signature file not found"
  else if negb (existsSync f videoPath) then
    mkVerdict INCONCLUSIVE "Video file not found"
  else
    match (manifestJson <- readFileSync f manifestPath ;;
           manifest <- JSON_parse (to_string manifestJson) ;;
           signature <- readFileSync f signaturePath ;;
           let r := mkResolved manifest (Some (JStr (to_string signature))) "" in
           signatureValid <-
             check_signature KeyObject createPublicKey crypto_verify
               Buffer_from_object r ;;
           if negb signatureValid then
             Ok (mkVerdict INVALID "Signature verification failed")
           else
             hashOk <- check_hash sha256_hex f videoPath r ;;
             if negb hashOk then
               Ok (mkVerdict INVALID
                     "File hash mismatch - file may have been modified")
             else Ok (mkVerdict VALID "Provenance verified successfully"))
    with
    | Ok v => v
    | Throw m => mkVerdict INCONCLUSIVE ("Verification error: " ++ m)%string
    end.

End Verifier.

End SidecarOnly.

(** ** Vocabulary of the statements *)

Module Spec.

(** The bytes of [b] at the positions from [lo] up to [hi]. *)
Definition slice (b : Buffer) (lo hi : Z) : Buffer :=
  firstn (Z.to_nat (hi - lo)) (skipn (Z.to_nat lo) b).

(** The four bytes of a 32-bit big-endian size. *)
Definition size_field (n : Z) : Buffer :=
  [byte_of_Z (n / 16777216); byte_of_Z (n / 65536); byte_of_Z (n / 256); byte_of_Z n].

(** A box with a 32-bit size: the size, a four-character tag, the
    payload. *)
Definition box_bytes (tag : string) (payload : Buffer) : Buffer :=
  size_field (8 + blen payload) ++ from_string tag ++ payload.

Definition well_formed_box (b : string * Buffer) : Prop :=
  String.length (fst b) = 4%nat /\ 8 + blen (snd b) < 4294967296.

(** A file that is a sequence of such boxes. *)
Definition container (boxes : list (string * Buffer)) : Buffer :=
  flat_map (fun b => box_bytes (fst b) (snd b)) boxes.

(** A character in front of the body of a string literal. *)
Definition cons_body (c : ascii) (r : option (list ascii * list ascii))
  : option (list ascii * list ascii) :=
  match r with
  | Some (body, rest) => Some (c :: body, rest)
  | None => None
  end.

(** The characters of a Base64 text: the alphabet of the encoder and the
    padding. *)
Definition b64_text (c : ascii) : bool :=
  match Base64.unbase64 c with
  | Some _ => negb (Ascii.eqb c "-"%char) && negb (Ascii.eqb c "_"%char)
  | None => Ascii.eqb c Base64.pad
  end.

(** No character of [l] is [c]. *)
Definition lacks (c : ascii) (l : Buffer) : bool :=
  forallb (fun x => negb (Ascii.eqb x c)) l.

(** Number of positions of [b] where [pat] occurs. *)
Fixpoint occurrences (pat b : Buffer) : nat :=
  match b with
  | [] => if starts_with pat [] then 1 else 0
  | _ :: b' => (if starts_with pat b then 1 else 0) + occurrences pat b'
  end.

(** What the envelope of two strings is read back as. *)
Definition embedded (manifest signature : string) : EmbeddedMetadata :=
  mkEmbedded (Some (JStr manifest)) (Some (JStr signature)).

(** The markers of a list of stamps, one after the other. *)
Definition webm_tags (stamps : list (string * string)) : Buffer :=
  List.concat (map (fun p => webm_tag (fst p) (snd p)) stamps).

(** Stamping a WebM file several times in a row. *)
Fixpoint embed_all (f : fs) (videoPath : string) (stamps : list (string * string)) : fs :=
  match stamps with
  | [] => f
  | (manifest, signature) :: rest =>
      embed_all (snd (embedMetadataWebM f videoPath manifest signature)) videoPath rest
  end.

(** Every object inside a value, the value itself included, has the
    property [P]. *)
Unset Elimination Schemes.
Inductive all_objects (P : props -> Prop) : json -> Prop :=
| ao_null : all_objects P JNull
| ao_bool : forall b, all_objects P (JBool b)
| ao_num : forall n, all_objects P (JNum n)
| ao_str : forall s, all_objects P (JStr s)
| ao_arr : forall l, Forall (all_objects P) l -> all_objects P (JArr l)
| ao_obj : forall o,
    P o -> Forall (fun p => all_objects P (snd p)) o -> all_objects P (JObj o).

(** The same contents: equal scalars, arrays of the same contents in the
    same order, objects with the same keys and the same contents under
    each key, in any order of the keys. *)
Inductive same_contents : json -> json -> Prop :=
| sc_null : same_contents JNull JNull
| sc_bool : forall b, same_contents (JBool b) (JBool b)
| sc_num : forall n, same_contents (JNum n) (JNum n)
| sc_str : forall s, same_contents (JStr s) (JStr s)
| sc_arr : forall l1 l2,
    Forall2 same_contents l1 l2 -> same_contents (JArr l1) (JArr l2)
| sc_obj : forall o1 o1' o2,
    Permutation o1 o1' ->
    Forall2 (fun p q => fst p = fst q /\ same_contents (snd p) (snd q)) o1' o2 ->
    same_contents (JObj o1) (JObj o2).
Set Elimination Schemes.

Definition keys (o : props) : list string := map fst o.

(** The values of an object rewritten by [sortKeys]. *)
Definition rewritten (o : props) : props :=
  map (fun p => (fst p, sortKeys (snd p))) o.

(** The value under a key, [null] when there is none. *)
Definition value_of (o : props) (k : string) : json :=
  match obj_get o k with
  | Some v => v
  | None => JNull
  end.

(** One property per key, with the values of [o]. *)
Definition pick (o : props) (ks : list string) : props :=
  map (fun k => (k, value_of o k)) ks.


(** A key that is no array index and not [__proto__]. *)
Definition plain_key (k : string) : Prop :=
  array_index k = None /\ k <> "__proto__".

(** Values whose keys are distinct and plain, as the keys of a manifest
    are. *)
Definition plain_keys : json -> Prop :=
  all_objects (fun o => NoDup (keys o) /\ Forall plain_key (keys o)).

(** Values whose keys are distinct and none is [__proto__]. *)
Definition own_keys : json -> Prop :=
  all_objects (fun o => NoDup (keys o) /\ Forall (fun k => k <> "__proto__") (keys o)).

(** Strictly increasing in the order of [Array.prototype.sort]. *)
Definition increasing (l : list string) : Prop :=
  Sorted (fun a b => String.ltb a b = true) l.

(** Every object lists its keys in strictly increasing order. *)
Definition keys_sorted : json -> Prop :=
  all_objects (fun o => increasing (keys o)).




End Spec.
Import Spec.

(** ** Sample inputs *)

Module Samples.

Definition bytes (l : list Z) : Buffer := map byte_of_Z l.





(** A file system with one file. *)
Definition fs_of (path : string) (content : Buffer) : fs :=
  fun q => if String.eqb q path then Some content else None.

(** A container without a [moov] box. *)
Definition no_moov_boxes : list (string * Buffer) :=
  [("ftyp", from_string "isom"); ("free", []); ("mdat", from_string "frames")].

(** A container with a [moov] box between two other boxes. *)
Definition mp4_sample : Buffer :=
  container [("ftyp", from_string "isom");
             ("moov", container [("mvhd", from_string "abcd")]);
             ("mdat", from_string "frames")].


(** [mp4_sample] after one stamp, as embedMetadataMP4 writes it: a
    [meta] box at the end of [moov], with one [uuid] box that holds the
    TRACE identifier and the envelope. *)
Definition stamped_once : Buffer :=
  container
    [("ftyp", from_string "isom");
     ("moov",
      container
        [("mvhd", from_string "abcd");
         ("meta",
          bytes [0; 0; 0; 0]
          ++ container [("uuid", TRACE_UUID ++ from_string (envelope "m1" "s1"))])]);
     ("mdat", from_string "frames")].

(** [stamped_once] after a second stamp: the box of the first stamp is
    still there, without the first four bytes of its identifier, and the
    box of the second stamp follows it. *)
Definition stamped_twice : Buffer :=
  container
    [("ftyp", from_string "isom");
     ("moov",
      container
        [("mvhd", from_string "abcd");
         ("meta",
          bytes [0; 0; 0; 0]
          ++ container
               [("uuid", skipn 4 TRACE_UUID ++ from_string (envelope "m1" "s1"));
                ("uuid", TRACE_UUID ++ from_string (envelope "m2" "s2"))])]);
     ("mdat", from_string "frames")].

Definition webm_sample : Buffer := bytes [26; 69; 223; 163] ++ from_string "webm".


(** A stand-in for the platform: keys are the text [PEM], a signature is
    valid when it is the signed bytes in reverse order, the digest of a
    buffer is its length. *)
Definition toy_createPublicKey (pem : string) : result unit :=
  if String.eqb pem "PEM" then Ok tt else Throw "ERR_OSSL_UNSUPPORTED".

Definition toy_verify (data : Buffer) (key : unit) (signature : Buffer) : result bool :=
  Ok (equals signature (rev data)).

Definition toy_sha256_hex (b : Buffer) : string :=
  string_of_list_ascii (decimal (blen b)).

Definition toy_Buffer_from_object (v : json) : result Buffer := Throw "TypeError".

Definition toy_basename (path ext : string) : string :=
  substring 0 (String.length path - String.length ext) path.

Definition toy_dirname (path : string) : string := ".".

Definition toy_join (dir base : string) : string := (dir ++ "/" ++ base)%string.

Definition toy_verifyManifest :=
  verifyManifest unit toy_createPublicKey toy_verify toy_sha256_hex
    toy_Buffer_from_object toy_basename toy_dirname toy_join.

(** A manifest for a video, with the key text [public_key] in Base64. *)
Definition manifest_for (video : Buffer) (public_key : string) : json :=
  JObj [("spec_version", JStr "0.1");
        ("media_profile", JStr "video");
        ("provider", JObj [("id", JStr "p1"); ("name", JStr "Provider One");
                           ("public_key", JStr public_key)]);
        ("operation", JStr "ai_generated");
        ("model", JObj [("id", JStr "m1"); ("version", JStr "1.0")]);
        ("timestamps", JObj [("created_utc", JStr "2024-01-01T00:00:00.000Z")]);
        ("input", JObj [("hash", JNull)]);
        ("output", JObj [("hash", JStr ("sha256:" ++ toy_sha256_hex video)%string);
                         ("media_type", JStr "video/mp4")]);
        ("claims", JArr [JStr "ai_generated"]);
        ("nonce", JStr "000102030405060708090a0b0c0d0e0f")].

(** A video with its two sidecar files. *)
Definition stamped_fs (video : Buffer) (manifest : json) (signature : Buffer) : fs :=
  fun q =>
    if String.eqb q "clip.mp4" then Some video
    else if String.eqb q "./clip.prov.json" then Some (from_string (canonicalJSON manifest))
    else if String.eqb q "./clip.prov.sig" then Some signature
    else None.

Definition toy_sign (manifest : json) : Buffer :=
  Base64.encode (rev (from_string (canonicalJSON manifest))).

(** [UEVN] is [PEM] in Base64. *)
Definition good_manifest : json := manifest_for (container no_moov_boxes) "UEVN".

Definition valid_fs : fs :=
  stamped_fs (container no_moov_boxes) good_manifest (toy_sign good_manifest).






(** The same two properties, written in two orders. *)
Definition claims_first : json :=
  JObj [("claims", JArr [JStr "ai_transformed"; JStr "ai_generated"]);
        ("input", JObj [("hash", JNull)])].

Definition input_first : json :=
  JObj [("input", JObj [("hash", JNull)]);
        ("claims", JArr [JStr "ai_transformed"; JStr "ai_generated"])].

End Samples.
Import Samples.

(** ** Vocabulary for the boxes the code writes *)

Module Shapes.

(** What [findAndParseBox] returns for a box with a 32-bit size: for a
    [meta] box the payload without its four bytes of version and
    flags. *)
Definition found_box (tag : string) (payload : Buffer) (start : Z) : Box :=
  mkBox (8 + blen payload) tag
        (if String.eqb tag "meta" then skipn 4 payload else payload) start.

(** The [uuid] box of a stamp and the payload of a [meta] box that holds
    it alone. *)
Definition trace_uuid_payload (manifest signature : string) : Buffer :=
  TRACE_UUID ++ from_string (envelope manifest signature).

Definition trace_meta_payload (manifest signature : string) : Buffer :=
  size_field 0 ++ box_bytes "uuid" (trace_uuid_payload manifest signature).

(** A bound on the fuel [parse_value] needs to read a value back. *)
Fixpoint json_size (v : json) : nat :=
  match v with
  | JArr l => S (fold_right (fun x n => S (json_size x + n)) O l)
  | JObj o => S (fold_right (fun p n => S (json_size (snd p) + n)) O o)
  | _ => 1
  end.

(** What follows a value inside a text: nothing, a comma, a closing
    bracket or a closing brace. *)
Definition after_value (rest : list ascii) : bool :=
  match rest with
  | [] => true
  | c :: _ => Ascii.eqb c ","%char || Ascii.eqb c "]"%char || Ascii.eqb c "}"%char
  end.

(** The digits of a decimal numeral. *)
Definition uint_chars (u : Decimal.uint) : list ascii :=
  chars (DecimalString.NilEmpty.string_of_uint u).

(** One member of an object in the text of [JSON.stringify]. *)
Definition member_chars (p : string * json) : list ascii :=
  quote (fst p) ++ ":"%char :: stringify_chars (snd p).

(** [provider.public_key || extractPublicKey(privateKey)]: the key text
    that createManifest puts in the manifest. *)
Definition provider_key_text (export_public_pem : string -> result string)
    (provider : Provider) (privateKey : string) : result string :=
  if String.eqb (public_key provider) "" then
    extractPublicKey export_public_pem privateKey
  else Ok (public_key provider).

(** The key text decodes to a key under which the platform accepts every
    signature it makes with the private key. *)
Definition verifies_for {KeyObject : Type}
    (createPublicKey : string -> result KeyObject)
    (crypto_sign : Buffer -> string -> result Buffer)
    (crypto_verify : Buffer -> KeyObject -> Buffer -> result bool)
    (privateKey keyText : string) : Prop :=
  exists K : KeyObject,
    createPublicKey (to_string (Base64.decode (chars keyText))) = Ok K
    /\ forall data sig : Buffer,
         crypto_sign data privateKey = Ok sig -> crypto_verify data K sig = Ok true.

(** The object literal of createManifest. *)
Definition manifest_literal (provider : Provider) (keyText operation : string)
    (model : Model) (created_utc : string) (inputHash : option string)
    (outputHash mediaType nonce : string) : json :=
  JObj [("spec_version", JStr "0.1");
        ("media_profile", JStr "video");
        ("provider", JObj [("id", JStr (provider_id provider));
                           ("name", JStr (provider_name provider));
                           ("public_key", JStr keyText)]);
        ("operation", JStr operation);
        ("model", JObj [("id", JStr (model_id model));
                        ("version", JStr (model_version model))]);
        ("timestamps", JObj [("created_utc", JStr created_utc)]);
        ("input", JObj [("hash", match inputHash with
                                 | Some h => JStr h
                                 | None => JNull
                                 end)]);
        ("output", JObj [("hash", JStr outputHash);
                         ("media_type", JStr mediaType)]);
        ("claims", JArr (if String.eqb operation "ai_generated"
                         then [JStr "ai_generated"] else [JStr "ai_transformed"]));
        ("nonce", JStr nonce)].

(** The media type createManifest is expected to write for a path. *)
Definition media_type_label (videoPath : string) : string :=
  match getMediaType videoPath with
  | Some webm => "video/webm"
  | _ => "video/mp4"
  end.

(** The value under [k2] of the object under [k1]. *)
Definition field2 (v : json) (k1 k2 : string) : option json :=
  match v with
  | JObj o =>
      match obj_get o k1 with
      | Some (JObj o') => obj_get o' k2
      | _ => None
      end
  | _ => None
  end.

Definition field (v : json) (k : string) : option json :=
  match v with
  | JObj o => obj_get o k
  | _ => None
  end.

End Shapes.
Import Shapes.

(** ** Sample stamps *)

Module StampSamples.

(** A stand-in for the rest of the platform, to go with the one of the
    verifier: the public half of every private key is the text [PEM],
    and a signature is the signed bytes in reverse order. *)
Definition toy_export_public_pem (privateKey : string) : result string := Ok "PEM".

Definition toy_crypto_sign (data : Buffer) (privateKey : string) : result Buffer :=
  Ok (rev data).

Definition toy_randomBytes16 : Buffer :=
  bytes [0; 1; 2; 3; 4; 5; 6; 7; 8; 9; 10; 11; 12; 13; 14; 255].

Definition toy_now : string := "2024-01-01T00:00:00.000Z".

Definition toy_createManifest :=
  createManifest toy_sha256_hex toy_export_public_pem toy_crypto_sign
    toy_randomBytes16 toy_now.

Definition toy_saveSidecarFiles :=
  saveSidecarFiles toy_basename toy_dirname toy_join.

Definition toy_provider : Provider := mkProvider "p1" "Provider One" EmptyString.

Definition toy_model : Model := mkModel "m1" "1.0".

(** The stamp of a file with one path. *)
Definition toy_stamp (videoPath : string) (content : Buffer) : result (json * string) :=
  toy_createManifest (fs_of videoPath content) videoPath "ai_generated"
    toy_provider toy_model "PRIVATE" None.

Definition stamp_manifest (videoPath : string) (content : Buffer) : json :=
  match toy_stamp videoPath content with
  | Ok (m, _) => m
  | Throw _ => JNull
  end.

Definition stamp_signature (videoPath : string) (content : Buffer) : string :=
  match toy_stamp videoPath content with
  | Ok (_, s) => s
  | Throw _ => EmptyString
  end.

End StampSamples.
Import StampSamples.

(** * Properties *)

(** ** The box scanner *)

Lemma byteZ_range (c : ascii) : 0 <= byteZ c < 256.
Proof.
  unfold byteZ. pose proof (N_ascii_bounded c). lia.
Qed.

Lemma blen_nonneg (b : Buffer) : 0 <= blen b.
Proof. unfold blen. lia. Qed.

Lemma skipn_cons_length {A} (n : nat) (l : list A) x r :
  skipn n l = x :: r -> (n < List.length l)%nat /\ skipn (S n) l = r.
Proof.
  revert l. induction n; intros l H.
  - destruct l; simpl in *; inversion H; subst. split; [lia | reflexivity].
  - destruct l; simpl in H; [discriminate|].
    destruct (IHn _ H) as [H1 H2]. split; [simpl; lia | exact H2].
Qed.

Lemma readUInt32BE_ok (b : Buffer) (o v : Z) :
  readUInt32BE b o = Ok v ->
  0 <= o /\ o + 4 <= blen b /\ 0 <= v < 4294967296.
Proof.
  unfold readUInt32BE. destruct (o <? 0) eqn:Ho; [discriminate|].
  apply Z.ltb_ge in Ho.
  destruct (skipn (Z.to_nat o) b) as [|b0 [|b1 [|b2 [|b3 r]]]] eqn:Hs; try discriminate.
  intros H; inversion H; subst; clear H.
  apply skipn_cons_length in Hs as [H0 Hs].
  apply skipn_cons_length in Hs as [H1 Hs].
  apply skipn_cons_length in Hs as [H2 Hs].
  apply skipn_cons_length in Hs as [H3 Hs].
  pose proof (byteZ_range b0). pose proof (byteZ_range b1).
  pose proof (byteZ_range b2). pose proof (byteZ_range b3).
  unfold blen. repeat split; lia.
Qed.

Lemma readUInt64BE_ok (b : Buffer) (o v : Z) :
  readUInt64BE b o = Ok v -> 0 <= o /\ o + 8 <= blen b /\ 0 <= v.
Proof.
  unfold readUInt64BE. destruct (o <? 0) eqn:Ho; [discriminate|].
  apply Z.ltb_ge in Ho.
  destruct (skipn (Z.to_nat o) b) as [|b0 [|b1 [|b2 [|b3 [|b4 [|b5 [|b6 [|b7 r]]]]]]]] eqn:Hs;
    try discriminate.
  intros H; inversion H; subst; clear H.
  apply skipn_cons_length in Hs as [H0 Hs].
  apply skipn_cons_length in Hs as [H1 Hs].
  apply skipn_cons_length in Hs as [H2 Hs].
  apply skipn_cons_length in Hs as [H3 Hs].
  apply skipn_cons_length in Hs as [H4 Hs].
  apply skipn_cons_length in Hs as [H5 Hs].
  apply skipn_cons_length in Hs as [H6 Hs].
  apply skipn_cons_length in Hs as [H7 Hs].
  pose proof (byteZ_range b0). pose proof (byteZ_range b1).
  pose proof (byteZ_range b2). pose proof (byteZ_range b3).
  pose proof (byteZ_range b4). pose proof (byteZ_range b5).
  pose proof (byteZ_range b6). pose proof (byteZ_range b7).
  unfold blen. cbn [fold_left]. repeat split; lia.
Qed.



(** What a successful header read says. *)
Lemma read_header_ok (buffer : Buffer) (offset size tagOffset : Z) :
  read_header buffer offset = Ok (Some (size, tagOffset)) ->
  0 <= offset /\ 0 <= size /\ offset < tagOffset <= blen buffer.
Proof.
  unfold read_header, bind.
  destruct (readUInt32BE buffer offset) as [size0|] eqn:H32; [|discriminate].
  apply readUInt32BE_ok in H32 as (H0 & H1 & H2).
  destruct (size0 =? 1) eqn:H1'.
  - destruct (offset + 16 >? blen buffer) eqn:Hlen; [discriminate|].
    destruct (readUInt64BE buffer (offset + 8)) as [s|] eqn:H64; [|discriminate].
    apply readUInt64BE_ok in H64 as (H3 & H4 & H5).
    intros E; inversion E; subst. lia.
  - intros E; inversion E; subst. lia.
Qed.

(** The loop goes on only past a box of non-zero size, to a larger
    offset. *)
Lemma findAndParseBox_body_next (buffer : Buffer) (boxType : string) (offset offset' : Z) :
  findAndParseBox_body buffer boxType offset = Next offset' ->
  exists size tagOffset,
    read_header buffer offset = Ok (Some (size, tagOffset))
    /\ 0 < size /\ 0 <= offset /\ offset' = offset + size.
Proof.
  unfold findAndParseBox_body.
  destruct (read_header buffer offset) as [[[size tagOffset]|]|] eqn:Hh; try discriminate.
  apply read_header_ok in Hh as Hr.
  destruct (tagOffset + 4 >? blen buffer); [discriminate|].
  destruct (equals _ _); [discriminate|].
  destruct (size =? 0) eqn:Hz; [discriminate|].
  apply Z.eqb_neq in Hz.
  intros H; inversion H; subst. exists size, tagOffset. repeat split; lia.
Qed.

Lemma findAndParseBox_loop_total (fuel : nat) :
  forall (buffer : Buffer) (boxType : string) (offset : Z),
    (0 < fuel)%nat ->
    (0 <= offset -> blen buffer - 8 - offset < Z.of_nat fuel) ->
    exists r, findAndParseBox_loop fuel buffer boxType offset = Some r.
Proof.
  induction fuel as [|fuel IH]; intros buffer boxType offset Hpos Hfuel; [lia|].
  cbn [findAndParseBox_loop].
  destruct (offset <? blen buffer - 8) eqn:Hlt; [|eauto].
  apply Z.ltb_lt in Hlt.
  destruct (findAndParseBox_body buffer boxType offset) as [r|offset'] eqn:Hb; [eauto|].
  apply findAndParseBox_body_next in Hb as (size & tagOffset & _ & Hs & H0 & ->).
  apply IH; lia.
Qed.

Lemma findAndParseBox_loop_more_fuel (fuel : nat) :
  forall (buffer : Buffer) (boxType : string) (offset : Z) r (fuel' : nat),
    findAndParseBox_loop fuel buffer boxType offset = Some r ->
    (fuel <= fuel')%nat ->
    findAndParseBox_loop fuel' buffer boxType offset = Some r.
Proof.
  induction fuel as [|fuel IH]; intros buffer boxType offset r fuel' H Hle; [discriminate|].
  destruct fuel' as [|fuel']; [lia|].
  cbn [findAndParseBox_loop] in *.
  destruct (offset <? blen buffer - 8); [|exact H].
  destruct (findAndParseBox_body buffer boxType offset); [exact H|].
  apply IH with (fuel' := fuel') in H; [exact H | lia].
Qed.

Lemma findAndParseBox_fuel_enough (buffer : Buffer) (boxType : string) (startOffset : Z) :
  exists r, findAndParseBox_loop (findAndParseBox_fuel buffer) buffer boxType startOffset = Some r.
Proof.
  apply findAndParseBox_loop_total; unfold findAndParseBox_fuel, blen; lia.
Qed.

(** The function is the loop at any fuel that lets the loop finish. *)
Lemma findAndParseBox_loop_eq (fuel : nat) (buffer : Buffer) (boxType : string) (startOffset : Z) r :
  findAndParseBox_loop fuel buffer boxType startOffset = Some r ->
  findAndParseBox buffer boxType startOffset = r.
Proof.
  intros H. unfold findAndParseBox.
  destruct (findAndParseBox_fuel_enough buffer boxType startOffset) as [r' Hr'].
  rewrite Hr'.
  destruct (Nat.le_ge_cases fuel (findAndParseBox_fuel buffer)) as [Hle|Hle].
  - eapply findAndParseBox_loop_more_fuel in H; [|exact Hle]. congruence.
  - eapply findAndParseBox_loop_more_fuel in Hr'; [|exact Hle]. congruence.
Qed.






Lemma subarray_slice (b : Buffer) (s e : Z) :
  0 <= s -> 0 <= e -> subarray b s e = slice b s (Z.min e (blen b)).
Proof.
  intros Hs He. unfold subarray, slice, clamp_index.
  destruct (s <? 0) eqn:E1; [apply Z.ltb_lt in E1; lia|].
  destruct (e <? 0) eqn:E2; [apply Z.ltb_lt in E2; lia|].
  destruct (Z.le_gt_cases s (blen b)) as [Hle|Hgt].
  - rewrite (Z.min_l s) by lia. reflexivity.
  - rewrite (Z.min_r s) by lia.
    rewrite !skipn_all2 by (unfold blen in *; lia).
    rewrite !firstn_nil. reflexivity.
Qed.

Lemma equals_true (a b : Buffer) : equals a b = true <-> a = b.
Proof.
  unfold equals. destruct (list_eq_dec ascii_dec a b); split; congruence.
Qed.

Lemma equals_false (a b : Buffer) : equals a b = false <-> a <> b.
Proof.
  unfold equals. destruct (list_eq_dec ascii_dec a b); split; congruence.
Qed.



(** ** Scanning a sequence of boxes *)

Lemma blen_app (a b : Buffer) : blen (a ++ b) = blen a + blen b.
Proof. unfold blen. rewrite length_app. lia. Qed.

Lemma skipn_blen_app (a b : Buffer) : skipn (Z.to_nat (blen a)) (a ++ b) = b.
Proof.
  unfold blen. rewrite Nat2Z.id, skipn_app, skipn_all, Nat.sub_diag. reflexivity.
Qed.

Lemma slice_app_mid (a b c : Buffer) :
  slice (a ++ b ++ c) (blen a) (blen a + blen b) = b.
Proof.
  unfold slice. rewrite skipn_blen_app.
  replace (blen a + blen b - blen a) with (blen b) by lia.
  unfold blen. rewrite Nat2Z.id, firstn_app, firstn_all, Nat.sub_diag. 
  cbn. apply app_nil_r.
Qed.

Lemma byteZ_byte_of_Z (z : Z) : byteZ (byte_of_Z z) = z mod 256.
Proof.
  unfold byteZ, byte_of_Z.
  pose proof (Z.mod_pos_bound z 256 ltac:(lia)).
  rewrite N_ascii_embedding by lia. lia.
Qed.

Lemma readUInt32BE_size_field (pre rest : Buffer) (n : Z) :
  0 <= n < 4294967296 ->
  readUInt32BE (pre ++ size_field n ++ rest) (blen pre) = Ok n.
Proof.
  intros Hn. unfold readUInt32BE.
  destruct (blen pre <? 0) eqn:E; [apply Z.ltb_lt in E; pose proof (blen_nonneg pre); lia|].
  rewrite skipn_blen_app. unfold size_field. cbn [app].
  rewrite !byteZ_byte_of_Z. f_equal.
  Z.div_mod_to_equations. lia.
Qed.

Lemma from_string_length (s : string) : List.length (from_string s) = String.length s.
Proof.
  unfold from_string. induction s; cbn; congruence.
Qed.

Lemma from_string_inj (s t : string) : from_string s = from_string t -> s = t.
Proof.
  unfold from_string. intros H.
  rewrite <- (string_of_list_ascii_of_string s), <- (string_of_list_ascii_of_string t).
  congruence.
Qed.

Lemma box_bytes_length (tag : string) (payload : Buffer) :
  String.length tag = 4%nat -> blen (box_bytes tag payload) = 8 + blen payload.
Proof.
  intros H. unfold box_bytes, blen.
  rewrite !length_app, from_string_length, H. cbn [List.length size_field]. lia.
Qed.

(** One turn of the scanner at a well-formed box that is not the one
    looked for. *)
Lemma findAndParseBox_body_skip (pre rest : Buffer) (tag : string)
    (payload : Buffer) (boxType : string) :
  well_formed_box (tag, payload) -> tag <> boxType ->
  findAndParseBox_body (pre ++ box_bytes tag payload ++ rest) boxType (blen pre)
  = Next (blen (pre ++ box_bytes tag payload)).
Proof.
  intros [Htag Hsize] Hne. cbn [fst snd] in *.
  pose proof (blen_nonneg payload) as Hp. pose proof (blen_nonneg pre) as Hpre.
  pose proof (blen_nonneg rest) as Hrest.
  rewrite (blen_app pre), box_bytes_length by assumption.
  unfold box_bytes. rewrite <- !app_assoc.
  remember (pre ++ size_field (8 + blen payload) ++ from_string tag ++ payload ++ rest)
    as buffer eqn:Hbuf.
  assert (Hlen : blen buffer = blen pre + 8 + blen payload + blen rest).
  { subst buffer. unfold blen.
    rewrite !length_app, from_string_length, Htag. cbn [List.length size_field]. lia. }
  assert (Hslice : slice buffer (blen pre + 4) (blen pre + 4 + 4) = from_string tag).
  { subst buffer.
    pose proof (slice_app_mid (pre ++ size_field (8 + blen payload))
                  (from_string tag) (payload ++ rest)) as Hs.
    rewrite blen_app in Hs.
    replace (blen (from_string tag)) with 4 in Hs
      by (unfold blen; rewrite from_string_length, Htag; reflexivity).
    replace (blen (size_field (8 + blen payload))) with 4 in Hs by reflexivity.
    rewrite <- app_assoc in Hs. exact Hs. }
  unfold findAndParseBox_body, read_header, bind.
  rewrite Hbuf at 1. rewrite readUInt32BE_size_field by lia.
  destruct (8 + blen payload =? 1) eqn:E1; [apply Z.eqb_eq in E1; lia|].
  destruct (blen pre + 4 + 4 >? blen buffer) eqn:E2;
    [rewrite Z.gtb_ltb in E2; apply Z.ltb_lt in E2; lia|].
  rewrite subarray_slice by lia.
  rewrite Z.min_l by lia.
  rewrite Hslice.
  destruct (equals (from_string tag) (from_string boxType)) eqn:E3.
  - apply equals_true, from_string_inj in E3. contradiction.
  - destruct (8 + blen payload =? 0) eqn:E4; [apply Z.eqb_eq in E4; lia|].
    reflexivity.
Qed.

(** The scanner finds no box in a sequence of well-formed boxes none of
    which has the tag looked for. *)
Lemma findAndParseBox_loop_container (boxes : list (string * Buffer)) :
  forall (pre : Buffer) (boxType : string) (fuel : nat),
    Forall well_formed_box boxes ->
    Forall (fun b => fst b <> boxType) boxes ->
    (List.length boxes < fuel)%nat ->
    findAndParseBox_loop fuel (pre ++ container boxes) boxType (blen pre)
    = Some (Ok None).
Proof.
  induction boxes as [|[tag payload] boxes IH]; intros pre boxType fuel Hwf Hne Hfuel.
  - destruct fuel; [cbn in Hfuel; lia|]. cbn [findAndParseBox_loop container flat_map].
    rewrite app_nil_r.
    destruct (blen pre <? blen pre - 8) eqn:E; [apply Z.ltb_lt in E; lia | reflexivity].
  - destruct fuel; [cbn in Hfuel; lia|].
    inversion Hwf as [|? ? Hwf1 Hwf2]; subst. inversion Hne as [|? ? Hne1 Hne2]; subst.
    cbn [fst] in Hne1.
    cbn [findAndParseBox_loop container flat_map fst snd].
    fold (container boxes).
    destruct (blen pre <? blen (pre ++ box_bytes tag payload ++ container boxes) - 8);
      [|reflexivity].
    rewrite findAndParseBox_body_skip by assumption.
    rewrite app_assoc. apply IH; [assumption | assumption | cbn in Hfuel; lia].
Qed.

Lemma findAndParseBox_container (boxes : list (string * Buffer)) (boxType : string) :
  Forall well_formed_box boxes ->
  Forall (fun b => fst b <> boxType) boxes ->
  findAndParseBox (container boxes) boxType 0 = Ok None.
Proof.
  intros Hwf Hne.
  apply findAndParseBox_loop_eq with (fuel := S (List.length boxes)).
  apply (findAndParseBox_loop_container boxes [] boxType); [assumption | assumption | lia].
Qed.



(** ** Embedding in MP4, then extracting *)

Lemma uint32BE_ok (v : Z) (b : Buffer) :
  uint32BE v = Ok b -> 0 <= v < 4294967296 /\ b = size_field v.
Proof.
  unfold uint32BE. destruct (0 <=? v) eqn:E1; [|discriminate].
  destruct (v <? 4294967296) eqn:E2; [|discriminate].
  cbn [andb]. intros H; inversion H; subst.
  apply Z.leb_le in E1. apply Z.ltb_lt in E2. split; [lia | reflexivity].
Qed.

Lemma skipn_app_plus {A} (a b : list A) (k : nat) :
  skipn (List.length a + k) (a ++ b) = skipn k b.
Proof.
  rewrite skipn_app, skipn_all2 by lia.
  replace (List.length a + k - List.length a)%nat with k by lia. reflexivity.
Qed.

(** The reader goes on only to a larger offset, so that the fuel its
    caller passes lets the loop finish. *)
Lemma extractUUIDBoxes_body_next (metaData : Buffer) (offset offset' : Z)
    (pushed : option UUIDBox) :
  extractUUIDBoxes_body metaData offset = UNext pushed offset' ->
  0 <= offset < offset'.
Proof.
  unfold extractUUIDBoxes_body.
  destruct (readUInt32BE metaData offset) as [size0|] eqn:H32; [|discriminate].
  apply readUInt32BE_ok in H32 as (H0 & _ & Hs0).
  destruct (size0 =? 0) eqn:E0; [discriminate|]. apply Z.eqb_neq in E0.
  destruct (size0 >? blen metaData - offset); [discriminate|]. cbn [orb].
  destruct (size0 =? 1) eqn:E1.
  - destruct (readUInt64BE metaData (offset + 8)) as [size|] eqn:H64; [|discriminate].
    apply readUInt64BE_ok in H64 as (_ & _ & Hs).
    destruct (offset + 16 + 4 >? blen metaData); [discriminate|].
    destruct (size =? 1) eqn:E; [apply Z.eqb_eq in E | apply Z.eqb_neq in E];
      (destruct (equals _ _);
       [destruct (offset + 16 + 24 >? blen metaData); [discriminate|]|];
       (destruct (size =? 0) eqn:Ez; [discriminate|]); apply Z.eqb_neq in Ez;
       intros H; inversion H; subst; lia).
  - apply Z.eqb_neq in E1.
    destruct (offset + 4 + 4 >? blen metaData); [discriminate|].
    rewrite (proj2 (Z.eqb_neq size0 1) E1), (proj2 (Z.eqb_neq size0 0) E0).
    destruct (equals _ _);
      [destruct (offset + 4 + 24 >? blen metaData); [discriminate|]|];
      intros H; inversion H; subst; lia.
Qed.

Lemma extractUUIDBoxes_loop_total (fuel : nat) :
  forall (metaData : Buffer) (boxes : list UUIDBox) (offset : Z),
    (0 < fuel)%nat ->
    (0 <= offset -> blen metaData - 8 - offset < Z.of_nat fuel) ->
    exists r, extractUUIDBoxes_loop fuel metaData boxes offset = Some r.
Proof.
  induction fuel as [|fuel IH]; intros metaData boxes offset Hpos Hfuel; [lia|].
  cbn [extractUUIDBoxes_loop].
  destruct (offset <? blen metaData - 8) eqn:Hlt; [|eauto].
  apply Z.ltb_lt in Hlt.
  destruct (extractUUIDBoxes_body metaData offset) as [b|m|b offset'] eqn:Hb; [eauto | eauto |].
  apply extractUUIDBoxes_body_next in Hb. apply IH; lia.
Qed.

Lemma extractUUIDBoxes_fuel_enough (metaData : Buffer) :
  exists r, extractUUIDBoxes_loop (S (List.length metaData)) metaData [] 0 = Some r.
Proof.
  apply extractUUIDBoxes_loop_total; unfold blen; lia.
Qed.

Lemma extractUUIDBoxes_loop_S (fuel : nat) (metaData : Buffer)
    (boxes : list UUIDBox) (offset : Z) :
  extractUUIDBoxes_loop (S fuel) metaData boxes offset
  = if offset <? blen metaData - 8 then
      match extractUUIDBoxes_body metaData offset with
      | UBreak b => Some (Ok (push boxes b))
      | UThrow m => Some (Throw m)
      | UNext b offset' => extractUUIDBoxes_loop fuel metaData (push boxes b) offset'
      end
    else Some (Ok boxes).
Proof. reflexivity. Qed.

(** The reader of [uuid] boxes on a box that [createUUIDBox] wrote: it
    takes the identifier four bytes too far, so what it returns as the
    identifier is the last twelve bytes of the identifier followed by the
    first four bytes of the payload, and what it returns as the payload
    lacks these four bytes. *)
Lemma extractUUIDBoxes_createUUIDBox (uuid data box : Buffer) :
  List.length uuid = 16%nat -> (4 <= List.length data)%nat ->
  createUUIDBox uuid data = Ok box ->
  extractUUIDBoxes box
  = Ok [mkUUIDBox (skipn 4 uuid ++ firstn 4 data) (skipn 4 data)].
Proof.
  intros Hu Hd Hbox. unfold createUUIDBox, bind in Hbox. cbv zeta in Hbox.
  remember (4 + 4 + 16 + blen data) as n eqn:En.
  destruct (uint32BE n) as [sz|] eqn:Hsz; [|discriminate].
  apply uint32BE_ok in Hsz as [Hn ->].
  assert (Ebox : box = size_field n ++ from_string "uuid" ++ uuid ++ data) by congruence.
  clear Hbox.
  assert (Hlen : blen box = n).
  { rewrite Ebox, En. unfold blen. rewrite !length_app, Hu.
    cbn [List.length size_field from_string list_ascii_of_string]. lia. }
  assert (Hd' : 4 <= blen data) by (unfold blen; lia).
  assert (Hread : readUInt32BE box 0 = Ok n).
  { rewrite Ebox. exact (readUInt32BE_size_field [] _ n Hn). }
  assert (Htype : subarray box 4 (4 + 4) = from_string "uuid").
  { rewrite subarray_slice, Z.min_l by lia. rewrite Ebox.
    exact (slice_app_mid (size_field n) (from_string "uuid") (uuid ++ data)). }
  assert (Huuid : subarray box (4 + 8) (4 + 24) = skipn 4 uuid ++ firstn 4 data).
  { rewrite subarray_slice, Z.min_l by lia. unfold slice. rewrite Ebox.
    change (Z.to_nat (4 + 8)) with (List.length (size_field n ++ from_string "uuid") + 4)%nat.
    change (Z.to_nat (4 + 24 - (4 + 8))) with 16%nat.
    rewrite app_assoc, skipn_app_plus.
    rewrite skipn_app, firstn_app, length_skipn, Hu.
    change (4 - 16)%nat with 0%nat. change (skipn 0 data) with data.
    rewrite (firstn_all2 (n := 16) (skipn 4 uuid)) by (rewrite length_skipn; lia).
    reflexivity. }
  assert (Hdata : subarray box (4 + 24) (4 - 4 + n) = skipn 4 data).
  { rewrite subarray_slice, Z.min_l by lia. unfold slice. rewrite Ebox.
    change (Z.to_nat (4 + 24))
      with (List.length (size_field n ++ from_string "uuid") + (16 + 4))%nat.
    rewrite app_assoc, skipn_app_plus.
    rewrite <- Hu, skipn_app_plus.
    apply firstn_all2. rewrite length_skipn, En. unfold blen. lia. }
  assert (Hbody : extractUUIDBoxes_body box 0
                  = UNext (Some (mkUUIDBox (skipn 4 uuid ++ firstn 4 data) (skipn 4 data))) n).
  { assert (E0 : (n =? 0) = false) by (apply Z.eqb_neq; lia).
    assert (E1 : (n =? 1) = false) by (apply Z.eqb_neq; lia).
    assert (E2 : (n >? n - 0) = false) by (rewrite Z.gtb_ltb; apply Z.ltb_ge; lia).
    assert (E3 : (4 + 4 >? n) = false) by (rewrite Z.gtb_ltb; apply Z.ltb_ge; lia).
    assert (E4 : (4 + 24 >? n) = false) by (rewrite Z.gtb_ltb; apply Z.ltb_ge; lia).
    unfold extractUUIDBoxes_body. cbv zeta. rewrite Hread, Hlen, E0, E2, E1.
    cbv iota beta. cbn [orb]. change (0 + 4) with 4.
    rewrite E3, Htype, (proj2 (equals_true _ _) eq_refl), E4, E1, E0, Huuid, Hdata.
    reflexivity. }
  assert (Hfuel : exists k, List.length box = S k).
  { destruct (List.length box) eqn:E; [unfold blen in Hlen; lia | eauto]. }
  destruct Hfuel as [k Hk].
  unfold extractUUIDBoxes. rewrite Hk, !extractUUIDBoxes_loop_S.
  replace (0 <? blen box - 8) with true by (symmetry; apply Z.ltb_lt; lia).
  rewrite Hbody, extractUUIDBoxes_loop_S.
  replace (n <? blen box - 8) with false by (symmetry; apply Z.ltb_ge; lia).
  reflexivity.
Qed.

(** Whatever the payload, what the reader returns for a box written for
    the TRACE identifier is not the TRACE identifier. *)
Lemma misread_identifier_is_not_TRACE (data : Buffer) :
  equals (skipn 4 TRACE_UUID ++ firstn 4 data) TRACE_UUID = false.
Proof.
  apply equals_false. intros H. vm_compute in H. discriminate.
Qed.

(** C1, on a sample file: embedMetadataMP4 succeeds and writes the TRACE
    box, and extractMetadataMP4 on the file it wrote returns null instead
    of the pair that was embedded; after a second stamp with another
    payload the [meta] box holds two [uuid] boxes, the first stamp's
    payload among them, and the extractor still returns null. *)
Theorem mp4_extract_after_embed_returns_null :
  let f0 := fs_of "clip.mp4" mp4_sample in
  let f1 := snd (embedMetadataMP4 f0 "clip.mp4" "m1" "s1") in
  let f2 := snd (embedMetadataMP4 f1 "clip.mp4" "m2" "s2") in
  fst (embedMetadataMP4 f0 "clip.mp4" "m1" "s1") = Ok tt
  /\ f1 "clip.mp4" = Some stamped_once
  /\ extractMetadataMP4 f1 "clip.mp4" = Ok None
  /\ fst (embedMetadataMP4 f1 "clip.mp4" "m2" "s2") = Ok tt
  /\ f2 "clip.mp4" = Some stamped_twice
  /\ extractMetadataMP4 f2 "clip.mp4" = Ok None.
Proof.
  cbv zeta.
  split; [|split; [|split; [|split; [|split]]]]; vm_compute; reflexivity.
Qed.

(** ** The envelope through [JSON.stringify] and [JSON.parse] *)

Lemma parse_string_body_quote_char (c : ascii) (tail : list ascii) :
  parse_string_body (quote_char c ++ tail) = cons_body c (parse_string_body tail).
Proof.
  destruct c as [b0 b1 b2 b3 b4 b5 b6 b7].
  destruct b0, b1, b2, b3, b4, b5, b6, b7; reflexivity.
Qed.

Lemma parse_string_body_quoted (s rest : list ascii) :
  parse_string_body (flat_map quote_char s ++ dquote :: rest) = Some (s, rest).
Proof.
  induction s as [|c s IH].
  - reflexivity.
  - cbn [flat_map]. rewrite <- app_assoc, parse_string_body_quote_char, IH. reflexivity.
Qed.

Lemma skip_ws_dquote (rest : list ascii) : skip_ws (dquote :: rest) = dquote :: rest.
Proof. reflexivity. Qed.

(** A string literal written by [quote] is read back by [parse_value]. *)
Lemma parse_value_quote (fuel : nat) (s : string) (rest : list ascii) :
  parse_value (S fuel) (quote s ++ rest) = Some (JStr s, rest).
Proof.
  unfold quote. cbn [app parse_value skip_ws is_ws dquote N_of_ascii].
  cbn. rewrite <- app_assoc. cbn [app].
  change ("034"%char) with dquote.
  rewrite parse_string_body_quoted.
  unfold chars. rewrite string_of_list_ascii_of_string. reflexivity.
Qed.

Lemma parse_members_quote (fuel : nat) (acc : props) (key : string) (text : list ascii) :
  parse_members (S fuel) acc (quote key ++ ":"%char :: text)
  = match parse_value fuel text with
    | Some (v, r3) =>
        let acc' := define_property acc key v in
        match skip_ws r3 with
        | ","%char :: r4 => parse_members fuel acc' r4
        | "}"%char :: r4 => Some (acc', r4)
        | _ => None
        end
    | None => None
    end.
Proof.
  unfold quote. cbn [app parse_members].
  rewrite skip_ws_dquote. rewrite Ascii.eqb_refl.
  rewrite <- app_assoc. cbn [app].
  rewrite parse_string_body_quoted.
  change (skip_ws (":"%char :: text)) with (":"%char :: text). cbn iota.
  unfold chars. rewrite string_of_list_ascii_of_string. reflexivity.
Qed.

Lemma stringify_envelope (manifest signature : string) :
  stringify_chars (envelope_value manifest signature)
  = "{"%char :: quote "manifest" ++ ":"%char :: quote manifest
    ++ ","%char :: quote "signature" ++ ":"%char :: quote signature ++ ["}"%char].
Proof.
  cbn [envelope_value stringify_chars map join_comma fst snd].
  rewrite <- !app_assoc. cbn [app]. rewrite <- !app_assoc. reflexivity.
Qed.

Lemma parse_value_envelope (fuel : nat) (manifest signature : string) :
  parse_value (S (S (S (S fuel)))) (stringify_chars (envelope_value manifest signature))
  = Some (envelope_value manifest signature, []).
Proof.
  rewrite stringify_envelope.
  cbn [parse_value]. change (skip_ws ("{"%char :: ?x)) with ("{"%char :: x).
  cbv beta iota.
  replace (skip_ws (quote "manifest" ++ ":"%char :: quote manifest
    ++ ","%char :: quote "signature" ++ ":"%char :: quote signature ++ ["}"%char]))
    with (quote "manifest" ++ ":"%char :: quote manifest
    ++ ","%char :: quote "signature" ++ ":"%char :: quote signature ++ ["}"%char])
    by reflexivity.
  change (quote "manifest" ++ ?x) with (dquote :: (flat_map quote_char (chars "manifest") ++ [dquote]) ++ x) at 1.
  cbv beta iota.
  change (dquote :: (flat_map quote_char (chars "manifest") ++ [dquote]) ++ ?x)
    with (quote "manifest" ++ x).
  rewrite parse_members_quote, parse_value_quote.
  cbv beta iota zeta.
  change (skip_ws (","%char :: ?x)) with (","%char :: x). cbv beta iota.
  rewrite parse_members_quote, parse_value_quote.
  reflexivity.
Qed.

Lemma JSON_parse_envelope (manifest signature : string) :
  JSON_parse (envelope manifest signature)
  = Ok (envelope_value manifest signature).
Proof.
  unfold JSON_parse, envelope, JSON_stringify, chars.
  rewrite list_ascii_of_string_of_list_ascii.
  assert (Hlen : exists n, List.length (stringify_chars (envelope_value manifest signature))
                           = S n).
  { rewrite stringify_envelope. cbn [List.length]. eauto. }
  destruct Hlen as [n ->].
  replace (2 * S n + 2)%nat with (S (S (S (S (2 * n))))) by lia.
  rewrite parse_value_envelope. reflexivity.
Qed.

(** The envelope of two strings is read back as these strings. *)
Lemma parse_envelope_envelope (manifest signature : string) :
  parse_envelope (envelope manifest signature)
  = Some (mkEmbedded (Some (JStr manifest)) (Some (JStr signature))).
Proof.
  unfold parse_envelope. rewrite JSON_parse_envelope. reflexivity.
Qed.

(** ** Base64 *)

Import Base64.

Lemma b64_char_code (n : N) :
  (n < 64)%N ->
  N_of_ascii (b64_char n)
  = (if n <? 26 then 65 + n else if n <? 52 then 71 + n
     else if n <? 62 then n - 4 else if n =? 62 then 43 else 47)%N.
Proof.
  intros Hn. unfold b64_char.
  destruct (n <? 26)%N eqn:E1; [apply N.ltb_lt in E1; apply N_ascii_embedding; lia|].
  destruct (n <? 52)%N eqn:E2; [apply N.ltb_lt in E2; apply N_ascii_embedding; lia|].
  destruct (n <? 62)%N eqn:E3; [apply N.ltb_lt in E3; apply N_ascii_embedding; lia|].
  destruct (n =? 62)%N; reflexivity.
Qed.

Lemma unbase64_b64_char (n : N) :
  (n < 64)%N -> unbase64 (b64_char n) = Some n.
Proof.
  intros Hn. unfold unbase64. rewrite b64_char_code by assumption.
  destruct (n <? 26)%N eqn:E1.
  { apply N.ltb_lt in E1.
    replace ((65 <=? 65 + n) && (65 + n <=? 90))%N with true
      by (symmetry; apply andb_true_intro; split; apply N.leb_le; lia).
    f_equal. lia. }
  apply N.ltb_ge in E1.
  destruct (n <? 52)%N eqn:E2.
  { apply N.ltb_lt in E2.
    replace ((65 <=? 71 + n) && (71 + n <=? 90))%N with false
      by (symmetry; apply andb_false_intro2; apply N.leb_gt; lia).
    replace ((97 <=? 71 + n) && (71 + n <=? 122))%N with true
      by (symmetry; apply andb_true_intro; split; apply N.leb_le; lia).
    f_equal. lia. }
  apply N.ltb_ge in E2.
  destruct (n <? 62)%N eqn:E3.
  { apply N.ltb_lt in E3.
    replace ((65 <=? n - 4) && (n - 4 <=? 90))%N with false
      by (symmetry; apply andb_false_intro1; apply N.leb_gt; lia).
    replace ((97 <=? n - 4) && (n - 4 <=? 122))%N with false
      by (symmetry; apply andb_false_intro1; apply N.leb_gt; lia).
    replace ((48 <=? n - 4) && (n - 4 <=? 57))%N with true
      by (symmetry; apply andb_true_intro; split; apply N.leb_le; lia).
    f_equal. lia. }
  apply N.ltb_ge in E3.
  destruct (n =? 62)%N eqn:E4.
  { apply N.eqb_eq in E4. subst. reflexivity. }
  apply N.eqb_neq in E4. assert (n = 63%N) by lia. subst. reflexivity.
Qed.

Lemma b64_char_differs (n : N) (c : ascii) :
  (n < 64)%N ->
  N_of_ascii c = 45%N \/ N_of_ascii c = 61%N \/ N_of_ascii c = 95%N ->
  Ascii.eqb (b64_char n) c = false.
Proof.
  intros Hn Hc. apply Ascii.eqb_neq. intros E.
  apply (f_equal N_of_ascii) in E. rewrite b64_char_code in E by assumption.
  destruct (n <? 26)%N eqn:E1; [apply N.ltb_lt in E1; lia|].
  apply N.ltb_ge in E1.
  destruct (n <? 52)%N eqn:E2; [apply N.ltb_lt in E2; lia|].
  apply N.ltb_ge in E2.
  destruct (n <? 62)%N eqn:E3; [apply N.ltb_lt in E3; lia|].
  destruct (n =? 62)%N; lia.
Qed.

Lemma b64_char_text (n : N) : (n < 64)%N -> b64_text (b64_char n) = true.
Proof.
  intros Hn. unfold b64_text. rewrite unbase64_b64_char by assumption.
  rewrite !b64_char_differs by (assumption || (cbn; tauto)). reflexivity.
Qed.

Lemma b64_char_not_pad (n : N) : (n < 64)%N -> Ascii.eqb (b64_char n) pad = false.
Proof.
  intros Hn. apply b64_char_differs; [assumption | cbn; tauto].
Qed.

Lemma list_ind3 {A} (P : list A -> Prop) :
  P [] -> (forall x, P [x]) -> (forall x y, P [x; y]) ->
  (forall x y z l, P l -> P (x :: y :: z :: l)) ->
  forall l, P l.
Proof.
  intros H0 H1 H2 H3.
  fix IH 1.
  intros [|x [|y [|z l]]];
    [exact H0 | exact (H1 x) | exact (H2 x y) | exact (H3 x y z l (IH l))].
Qed.

Ltac byte_bounds :=
  repeat match goal with
         | c : ascii |- _ =>
             lazymatch goal with
             | H : (N_of_ascii c < 256)%N |- _ => fail
             | _ => pose proof (N_ascii_bounded c)
             end
         end.

Lemma sextets_cons (n : N) (s : list ascii) :
  (n < 64)%N -> sextets (b64_char n :: s) = n :: sextets s.
Proof.
  intros Hn. cbn [sextets].
  rewrite b64_char_not_pad, unbase64_b64_char by assumption. reflexivity.
Qed.

Lemma ascii_of_N_eq (c : ascii) (n : N) : n = N_of_ascii c -> ascii_of_N n = c.
Proof. intros ->. apply ascii_N_embedding. Qed.

Ltac divmod_lia :=
  zify; Z.to_euclidean_division_equations; lia.

Lemma decode_encode (b : Buffer) : decode (encode b) = b.
Proof.
  unfold decode. induction b as [|x|x y|x y z l IH] using list_ind3;
    cbn [encode]; byte_bounds.
  - reflexivity.
  - rewrite !sextets_cons by divmod_lia.
    cbn [sextets decode_sextets]. rewrite Ascii.eqb_refl. cbn [decode_sextets].
    f_equal. apply ascii_of_N_eq. divmod_lia.
  - rewrite !sextets_cons by divmod_lia.
    cbn [sextets decode_sextets]. rewrite Ascii.eqb_refl. cbn [decode_sextets].
    f_equal; [|f_equal]; apply ascii_of_N_eq; divmod_lia.
  - rewrite !sextets_cons by divmod_lia.
    cbn [decode_sextets]. rewrite IH.
    f_equal; [|f_equal; [|f_equal]]; apply ascii_of_N_eq; divmod_lia.
Qed.

Lemma encode_text (b : Buffer) : forallb b64_text (encode b) = true.
Proof.
  induction b as [|x|x y|x y z l IH] using list_ind3;
    cbn [encode forallb]; byte_bounds.
  - reflexivity.
  - rewrite !b64_char_text by divmod_lia. reflexivity.
  - rewrite !b64_char_text by divmod_lia. reflexivity.
  - rewrite !b64_char_text by divmod_lia. exact IH.
Qed.

(** No character of a Base64 text opens the marker or the closing
    delimiter. *)
Lemma b64_text_plain (c : ascii) :
  b64_text c = true -> Ascii.eqb c "<"%char = false /\ Ascii.eqb c "-"%char = false.
Proof.
  destruct c as [b0 b1 b2 b3 b4 b5 b6 b7].
  destruct b0, b1, b2, b3, b4, b5, b6, b7; cbv; intros H; try discriminate; auto.
Qed.


(** ** The WebM marker *)

Lemma lacks_app (c : ascii) (a b : Buffer) :
  lacks c (a ++ b) = lacks c a && lacks c b.
Proof. apply forallb_app. Qed.

Lemma starts_with_app (pat rest : Buffer) : starts_with pat (pat ++ rest) = true.
Proof.
  induction pat as [|p pat IH]; [reflexivity|].
  cbn. rewrite Ascii.eqb_refl. exact IH.
Qed.

Lemma ascii_eqb_sym (a b : ascii) : Ascii.eqb a b = Ascii.eqb b a.
Proof.
  destruct (Ascii.eqb_spec a b), (Ascii.eqb_spec b a); congruence.
Qed.

Lemma starts_with_head (c x : ascii) (pat l : Buffer) :
  Ascii.eqb x c = false -> starts_with (c :: pat) (x :: l) = false.
Proof.
  intros H. cbn. rewrite ascii_eqb_sym, H. reflexivity.
Qed.

Lemma starts_with_lacks (c : ascii) (pat l : Buffer) :
  lacks c l = true -> starts_with (c :: pat) l = false.
Proof.
  destruct l as [|x l]; [reflexivity|].
  cbn [lacks forallb]. intros H. apply andb_true_iff in H as [H _].
  apply negb_true_iff in H. apply starts_with_head. exact H.
Qed.

Lemma last_index_lacks (c : ascii) (pat l : Buffer) :
  lacks c l = true -> last_index (c :: pat) l = None.
Proof.
  induction l as [|x l IH]; intros H; [reflexivity|].
  cbn [last_index]. pose proof (starts_with_lacks c pat _ H) as Hs.
  cbn in H. apply andb_true_iff in H as [_ H].
  rewrite (IH H), Hs. reflexivity.
Qed.

Lemma last_index_app (pat a b : Buffer) (j : nat) :
  last_index pat b = Some j -> last_index pat (a ++ b) = Some (List.length a + j)%nat.
Proof.
  intros H. induction a as [|x a IH]; [exact H|].
  cbn [app last_index List.length]. rewrite IH. reflexivity.
Qed.

(** The last occurrence of a pattern whose first character occurs neither
    in the rest of the pattern nor after it. *)
Lemma last_index_final (c : ascii) (pat a rest : Buffer) :
  lacks c pat = true -> lacks c rest = true ->
  last_index (c :: pat) (a ++ (c :: pat) ++ rest) = Some (List.length a).
Proof.
  intros Hp Hr.
  rewrite (last_index_app _ _ _ 0%nat); [f_equal; lia|].
  cbn [app last_index].
  rewrite last_index_lacks by (rewrite lacks_app, Hp, Hr; reflexivity).
  change (c :: pat ++ rest) with ((c :: pat) ++ rest).
  rewrite starts_with_app. reflexivity.
Qed.

Lemma index_from_skip (pat a b : Buffer) (base from : nat) :
  (base + List.length a <= from)%nat ->
  index_from pat (a ++ b) base from = index_from pat b (base + List.length a) from.
Proof.
  revert base. induction a as [|x a IH]; intros base H.
  - cbn. rewrite Nat.add_0_r. reflexivity.
  - cbn [app index_from List.length] in *.
    replace (from <=? base)%nat with false by (symmetry; apply Nat.leb_gt; lia).
    cbn [andb]. rewrite IH by lia. f_equal. lia.
Qed.

(** The first occurrence of a pattern after characters that are not its
    first one. *)
Lemma index_from_first (c : ascii) (pat a rest : Buffer) (base from : nat) :
  lacks c a = true -> (from <= base)%nat ->
  index_from (c :: pat) (a ++ (c :: pat) ++ rest) base from
  = Some (base + List.length a)%nat.
Proof.
  revert base. induction a as [|x a IH]; intros base Ha Hfrom.
  - cbn [app List.length].
    change (c :: pat ++ rest) with ((c :: pat) ++ rest).
    destruct ((c :: pat) ++ rest) eqn:E; [discriminate|].
    cbn [index_from]. rewrite <- E, starts_with_app.
    replace (from <=? base)%nat with true by (symmetry; apply Nat.leb_le; lia).
    cbn. f_equal. lia.
  - cbn [app List.length]. cbn [lacks forallb] in Ha.
    apply andb_true_iff in Ha as [Hx Ha]. apply negb_true_iff in Hx.
    cbn [index_from]. rewrite (starts_with_head c x) by exact Hx.
    rewrite andb_false_r. fold (lacks c a) in Ha.
    rewrite IH by (assumption || lia). f_equal. lia.
Qed.

Lemma lacks_forallb (c : ascii) (P : ascii -> bool) (l : Buffer) :
  (forall x, P x = true -> Ascii.eqb x c = false) ->
  forallb P l = true -> lacks c l = true.
Proof.
  intros HP. induction l as [|x l IH]; [reflexivity|].
  cbn [forallb lacks]. intros H. apply andb_true_iff in H as [Hx Hl].
  rewrite (HP x Hx). exact (IH Hl).
Qed.

Lemma encode_lacks_lt (b : Buffer) : lacks "<"%char (Base64.encode b) = true.
Proof.
  apply lacks_forallb with (P := b64_text); [|apply encode_text].
  intros x Hx. apply (b64_text_plain x Hx).
Qed.

Lemma encode_lacks_dash (b : Buffer) : lacks "-"%char (Base64.encode b) = true.
Proof.
  apply lacks_forallb with (P := b64_text); [|apply encode_text].
  intros x Hx. apply (b64_text_plain x Hx).
Qed.

Lemma to_string_from_string (s : string) : to_string (from_string s) = s.
Proof. apply string_of_list_ascii_of_string. Qed.

Lemma from_string_to_string (b : Buffer) : from_string (to_string b) = b.
Proof. apply list_ascii_of_string_of_list_ascii. Qed.

(** Where the extractor finds the marker that was appended last, and its
    closing delimiter. *)
Lemma lastIndexOf_webm_tag (before : Buffer) (manifest signature : string) :
  lastIndexOf (before ++ webm_tag manifest signature) (from_string tagMarker)
  = Some (blen before + 1).
Proof.
  unfold lastIndexOf, webm_tag.
  change (before ++ "010"%char :: ?x) with (before ++ ["010"%char] ++ x).
  rewrite app_assoc.
  change (from_string tagMarker) with ("<"%char :: from_string "!--TRACEPROV:").
  rewrite last_index_final.
  - cbn [option_map]. f_equal. unfold blen. rewrite length_app. cbn [List.length]. lia.
  - reflexivity.
  - rewrite lacks_app, encode_lacks_lt. reflexivity.
Qed.

Lemma indexOf_webm_tag (before : Buffer) (manifest signature : string) :
  indexOf (before ++ webm_tag manifest signature) (from_string tagClose)
          (blen before + 1 + blen (from_string tagMarker))
  = Some (blen before + 1 + blen (from_string tagMarker)
          + blen (Base64.encode (from_string (envelope manifest signature)))).
Proof.
  unfold indexOf, webm_tag.
  set (b64 := Base64.encode (from_string (envelope manifest signature))).
  change (before ++ "010"%char :: from_string tagMarker ++ b64 ++ from_string tagClose)
    with (before ++ ("010"%char :: from_string tagMarker) ++ b64 ++ from_string tagClose).
  rewrite app_assoc.
  assert (Hlen : Z.to_nat (blen before + 1 + blen (from_string tagMarker))
                 = List.length (before ++ "010"%char :: from_string tagMarker)).
  { unfold blen. rewrite length_app. cbn [List.length]. lia. }
  rewrite Hlen, index_from_skip by (cbn; lia).
  change (from_string tagClose) with ("-"%char :: from_string "->").
  pose proof (index_from_first "-"%char (from_string "->") b64 []
                (0 + List.length (before ++ "010"%char :: from_string tagMarker))
                (List.length (before ++ "010"%char :: from_string tagMarker))
                (encode_lacks_dash _) ltac:(lia)) as Hfirst.
  rewrite app_nil_r in Hfirst. rewrite Hfirst.
  cbn [option_map]. f_equal. rewrite <- Hlen. unfold blen. lia.
Qed.

Lemma extractWebM_buffer_webm_tag (before : Buffer) (manifest signature : string) :
  extractWebM_buffer (before ++ webm_tag manifest signature)
  = Some (embedded manifest signature).
Proof.
  unfold extractWebM_buffer.
  rewrite lastIndexOf_webm_tag, indexOf_webm_tag.
  set (b64 := Base64.encode (from_string (envelope manifest signature))).
  assert (Hsub : subarray (before ++ webm_tag manifest signature)
                   (blen before + 1 + blen (from_string tagMarker))
                   (blen before + 1 + blen (from_string tagMarker) + blen b64)
                 = b64).
  { pose proof (blen_nonneg before). pose proof (blen_nonneg b64).
    rewrite subarray_slice by (cbn; lia).
    unfold webm_tag. fold b64.
    change (before ++ "010"%char :: from_string tagMarker ++ b64 ++ from_string tagClose)
      with (before ++ ("010"%char :: from_string tagMarker) ++ b64 ++ from_string tagClose).
    rewrite app_assoc.
    replace (blen before + 1 + blen (from_string tagMarker))
      with (blen (before ++ "010"%char :: from_string tagMarker))
      by (rewrite blen_app; cbn; lia).
    rewrite Z.min_l by (rewrite !blen_app; cbn; lia).
    apply slice_app_mid. }
  rewrite Hsub, from_string_to_string.
  unfold b64. rewrite decode_encode, to_string_from_string.
  apply parse_envelope_envelope.
Qed.

(** C9: embedMetadataWebM appends to the bytes of the file a line feed
    and the marker [<!--TRACEPROV:] + Base64 of the envelope + [-->], and
    extractMetadataWebM on the result finds that marker (the last
    occurrence of the prefix, then the first closing delimiter after it)
    and returns the manifest and the signature that were embedded. *)
Theorem webm_extract_after_embed :
  forall (f : fs) (videoPath : string) (fileBuffer : Buffer)
         (manifest signature : string),
    f videoPath = Some fileBuffer ->
    let stamped :=
      fileBuffer ++ "010"%char :: from_string "<!--TRACEPROV:"
      ++ Base64.encode (from_string (envelope manifest signature))
      ++ from_string "-->" in
    let f' := snd (embedMetadataWebM f videoPath manifest signature) in
    fst (embedMetadataWebM f videoPath manifest signature) = Ok tt
    /\ f' videoPath = Some stamped
    /\ lastIndexOf stamped (from_string "<!--TRACEPROV:") = Some (blen fileBuffer + 1)
    /\ indexOf stamped (from_string "-->") (blen fileBuffer + 1 + 14)
       = Some (blen fileBuffer + 1 + 14
               + blen (Base64.encode (from_string (envelope manifest signature))))
    /\ extractMetadataWebM f' videoPath
       = Ok (Some (mkEmbedded (Some (JStr manifest)) (Some (JStr signature)))).
Proof.
  intros f videoPath fileBuffer manifest signature Hfile stamped f'.
  assert (Hstamped : stamped = fileBuffer ++ webm_tag manifest signature) by reflexivity.
  assert (Hf' : f' videoPath = Some stamped).
  { unfold f', embedMetadataWebM, readFileSync. rewrite Hfile.
    cbn [snd]. unfold writeFileSync. rewrite String.eqb_refl. reflexivity. }
  split; [|split; [|split; [|split]]].
  - unfold embedMetadataWebM, readFileSync. rewrite Hfile. reflexivity.
  - exact Hf'.
  - rewrite Hstamped. apply lastIndexOf_webm_tag.
  - rewrite Hstamped. apply indexOf_webm_tag.
  - unfold extractMetadataWebM, existsSync, readFileSync. rewrite Hf'.
    cbn [negb bind]. rewrite Hstamped, extractWebM_buffer_webm_tag. reflexivity.
Qed.

Lemma webm_extract_after_embed_witness :
  extractMetadataWebM
    (snd (embedMetadataWebM (fs_of "clip.webm" webm_sample) "clip.webm" "m" "s"))
    "clip.webm"
  = Ok (Some (mkEmbedded (Some (JStr "m")) (Some (JStr "s")))).
Proof.
  apply (webm_extract_after_embed (fs_of "clip.webm" webm_sample) "clip.webm"
           webm_sample "m" "s").
  reflexivity.
Defined.

(** ** Stamping a WebM file again *)

Lemma starts_with_before (c : ascii) (pat a rest : Buffer) :
  lacks c pat = true ->
  starts_with pat (a ++ c :: rest) = starts_with pat a.
Proof.
  revert a. induction pat as [|p pat IH]; intros a H; [destruct a; reflexivity|].
  cbn [lacks forallb] in H. apply andb_true_iff in H as [Hp H].
  apply negb_true_iff in Hp.
  destruct a as [|x a]; cbn [app starts_with].
  - rewrite Hp. reflexivity.
  - rewrite (IH a H). reflexivity.
Qed.

Lemma occurrences_lacks (c : ascii) (pat l : Buffer) :
  lacks c l = true -> occurrences (c :: pat) l = 0%nat.
Proof.
  induction l as [|x l IH]; intros H; [reflexivity|].
  cbn [occurrences]. rewrite (starts_with_lacks c pat _ H).
  cbn [lacks forallb] in H. apply andb_true_iff in H as [_ H].
  rewrite (IH H). reflexivity.
Qed.

Lemma occurrences_cons (pat l : Buffer) (x : ascii) :
  occurrences pat (x :: l)
  = ((if starts_with pat (x :: l) then 1 else 0) + occurrences pat l)%nat.
Proof. reflexivity. Qed.

Lemma occurrences_webm_tag (before : Buffer) (manifest signature : string) :
  occurrences (from_string tagMarker) (before ++ webm_tag manifest signature)
  = (occurrences (from_string tagMarker) before + 1)%nat.
Proof.
  induction before as [|x before IH].
  - unfold webm_tag. cbn [app].
    set (rest := Base64.encode (from_string (envelope manifest signature))
                 ++ from_string tagClose).
    change (from_string tagMarker) with ("<"%char :: from_string "!--TRACEPROV:").
    rewrite occurrences_cons, starts_with_head by reflexivity.
    change (("<"%char :: from_string "!--TRACEPROV:") ++ rest)
      with ("<"%char :: from_string "!--TRACEPROV:" ++ rest).
    rewrite occurrences_cons.
    change ("<"%char :: from_string "!--TRACEPROV:" ++ rest)
      with (("<"%char :: from_string "!--TRACEPROV:") ++ rest).
    rewrite starts_with_app.
    rewrite occurrences_lacks; [reflexivity|].
    unfold rest. rewrite !lacks_app, encode_lacks_lt. reflexivity.
  - cbn [app]. rewrite !occurrences_cons, IH.
    change (x :: before ++ webm_tag manifest signature)
      with ((x :: before) ++ "010"%char
            :: (from_string tagMarker
                ++ Base64.encode (from_string (envelope manifest signature))
                ++ from_string tagClose)).
    rewrite starts_with_before by reflexivity. lia.
Qed.

Lemma embedMetadataWebM_file (f : fs) (videoPath : string) (fileBuffer : Buffer)
    (manifest signature : string) :
  f videoPath = Some fileBuffer ->
  snd (embedMetadataWebM f videoPath manifest signature) videoPath
  = Some (fileBuffer ++ webm_tag manifest signature).
Proof.
  intros Hfile. unfold embedMetadataWebM, readFileSync. rewrite Hfile.
  cbn [snd]. unfold writeFileSync. rewrite String.eqb_refl. reflexivity.
Qed.

Lemma embed_all_file (stamps : list (string * string)) :
  forall (f : fs) (videoPath : string) (fileBuffer : Buffer),
    f videoPath = Some fileBuffer ->
    embed_all f videoPath stamps videoPath = Some (fileBuffer ++ webm_tags stamps).
Proof.
  induction stamps as [|[manifest signature] stamps IH]; intros f videoPath fileBuffer Hfile.
  - cbn. rewrite app_nil_r. exact Hfile.
  - cbn [embed_all].
    rewrite (IH _ _ _ (embedMetadataWebM_file f videoPath fileBuffer manifest signature Hfile)).
    unfold webm_tags. cbn [map List.concat fst snd]. rewrite app_assoc. reflexivity.
Qed.

Lemma occurrences_webm_tags (stamps : list (string * string)) :
  forall fileBuffer : Buffer,
    occurrences (from_string tagMarker) (fileBuffer ++ webm_tags stamps)
    = (occurrences (from_string tagMarker) fileBuffer + List.length stamps)%nat.
Proof.
  induction stamps as [|[manifest signature] stamps IH]; intros fileBuffer.
  - cbn. rewrite app_nil_r. lia.
  - unfold webm_tags. cbn [map List.concat fst snd List.length].
    fold (webm_tags stamps). rewrite app_assoc, IH, occurrences_webm_tag. lia.
Qed.

(** C10: stamping a WebM file again removes nothing: after the stamps of
    a list, in order, the file is the original followed by one marker per
    stamp, the occurrences of the marker prefix are those of the original
    plus one per stamp, and extractMetadataWebM returns the envelope of
    the last stamp. *)
Theorem webm_restamp_keeps_markers :
  forall (stamps : list (string * string)) (f : fs) (videoPath : string)
         (fileBuffer : Buffer),
    f videoPath = Some fileBuffer ->
    let final := embed_all f videoPath stamps in
    final videoPath = Some (fileBuffer ++ webm_tags stamps)
    /\ occurrences (from_string tagMarker) (fileBuffer ++ webm_tags stamps)
       = (occurrences (from_string tagMarker) fileBuffer + List.length stamps)%nat
    /\ (forall earlier manifest signature,
          stamps = earlier ++ [(manifest, signature)] ->
          extractMetadataWebM final videoPath
          = Ok (Some (mkEmbedded (Some (JStr manifest)) (Some (JStr signature))))).
Proof.
  intros stamps f videoPath fileBuffer Hfile final. subst final.
  pose proof (embed_all_file stamps f videoPath fileBuffer Hfile) as Hfinal.
  split; [exact Hfinal | split; [apply occurrences_webm_tags|]].
  intros earlier manifest signature ->.
  unfold extractMetadataWebM, existsSync, readFileSync. rewrite Hfinal.
  cbn [negb bind]. unfold webm_tags.
  rewrite map_app, concat_app. cbn [map List.concat fst snd].
  rewrite app_nil_r, app_assoc, extractWebM_buffer_webm_tag. reflexivity.
Qed.

Lemma webm_restamp_keeps_markers_witness :
  occurrences (from_string tagMarker)
    (webm_sample ++ webm_tags [("m1", "s1"); ("m2", "s2"); ("m3", "s3")]) = 3%nat
  /\ extractMetadataWebM
       (embed_all (fs_of "clip.webm" webm_sample) "clip.webm"
          [("m1", "s1"); ("m2", "s2"); ("m3", "s3")]) "clip.webm"
     = Ok (Some (mkEmbedded (Some (JStr "m3")) (Some (JStr "s3")))).
Proof.
  pose proof (webm_restamp_keeps_markers [("m1", "s1"); ("m2", "s2"); ("m3", "s3")]
                (fs_of "clip.webm" webm_sample) "clip.webm" webm_sample eq_refl)
    as (_ & Hocc & Hlast).
  split.
  - exact Hocc.
  - apply (Hlast [("m1", "s1"); ("m2", "s2")] "m3" "s3"). reflexivity.
Defined.

(** ** The verifier *)

Section VerifierProperties.

Variable KeyObject : Type.
Variable createPublicKey : string -> result KeyObject.
Variable crypto_verify : Buffer -> KeyObject -> Buffer -> result bool.
Variable sha256_hex : Buffer -> string.
Variable Buffer_from_object : json -> result Buffer.
Variable basename : string -> string -> string.
Variable dirname : string -> string.
Variable join : string -> string -> string.

Local Abbreviation verifyManifest :=
  (Verify.verifyManifest KeyObject createPublicKey crypto_verify sha256_hex
                  Buffer_from_object basename dirname join).
Local Abbreviation resolve := (Verify.resolve basename dirname join).
Local Abbreviation resolve_sidecar := (Verify.resolve_sidecar basename dirname join).
Local Abbreviation sidecar_paths := (Verify.sidecar_paths basename dirname join).
Local Abbreviation check_signature :=
  (Verify.check_signature KeyObject createPublicKey crypto_verify Buffer_from_object).
Local Abbreviation check_hash := (Verify.check_hash sha256_hex).
Local Abbreviation verify_resolved :=
  (Verify.verify_resolved KeyObject createPublicKey crypto_verify sha256_hex
                   Buffer_from_object).
Local Abbreviation Buffer_from_base64 := (Verify.Buffer_from_base64 Buffer_from_object).






Lemma resolve_embedded_none (f : fs) (videoPath : string) :
  extractMetadata f videoPath = Ok None ->
  resolve_embedded f videoPath = Throw "No embedded metadata found".
Proof.
  intros H. unfold resolve_embedded, bind. rewrite H. reflexivity.
Qed.

Lemma resolve_sidecar_missing (f : fs) (videoPath : string)
    (manifestPath signaturePath : option string) :
  existsSync f (fst (sidecar_paths videoPath manifestPath signaturePath)) = false
  \/ existsSync f (snd (sidecar_paths videoPath manifestPath signaturePath)) = false ->
  exists msg,
    resolve_sidecar f videoPath manifestPath signaturePath = inl (inconclusive msg).
Proof.
  intros H. unfold Verify.resolve_sidecar.
  destruct (existsSync f (fst (sidecar_paths videoPath manifestPath signaturePath))) eqn:Hm;
    cbn [negb]; [|eauto].
  destruct H as [H|H]; [discriminate|]. rewrite H. cbn [negb]. eauto.
Qed.


(** C7: verifyManifest answers INCONCLUSIVE whenever a file it needs is
    missing: the asset itself; or, for an asset that carries no embedded
    metadata (the extractor returns null, or the first [try] block throws
    for any other reason), the sidecar manifest or the sidecar
    signature. *)
Theorem verifyManifest_missing_files :
  forall (f : fs) (videoPath : string) (manifestPath signaturePath : option string),
    (existsSync f videoPath = false ->
     result_of (verifyManifest f videoPath manifestPath signaturePath) = INCONCLUSIVE)
    /\ (extractMetadata f videoPath = Ok None
        \/ (exists m, resolve_embedded f videoPath = Throw m) ->
        existsSync f (fst (sidecar_paths videoPath manifestPath signaturePath)) = false
        \/ existsSync f (snd (sidecar_paths videoPath manifestPath signaturePath)) = false ->
        result_of (verifyManifest f videoPath manifestPath signaturePath) = INCONCLUSIVE).
Proof.
  intros f videoPath manifestPath signaturePath. split.
  - intros H. unfold Verify.verifyManifest. rewrite H. reflexivity.
  - intros Hemb Hside. unfold Verify.verifyManifest.
    destruct (existsSync f videoPath); cbn [negb]; [|reflexivity].
    assert (He : exists m, resolve_embedded f videoPath = Throw m).
    { destruct Hemb as [Hnone|He]; [|exact He].
      eexists. apply resolve_embedded_none. exact Hnone. }
    destruct He as [m He]. unfold Verify.resolve. rewrite He.
    destruct (resolve_sidecar_missing f videoPath manifestPath signaturePath Hside)
      as [msg ->].
    reflexivity.
Qed.


End VerifierProperties.

(** *** The verifier on sample files *)


Lemma verifyManifest_missing_files_witness :
  result_of (toy_verifyManifest valid_fs "other.mp4" None None) = INCONCLUSIVE
  /\ result_of (toy_verifyManifest (fs_of "clip.mp4" mp4_sample) "clip.mp4" None None)
     = INCONCLUSIVE.
Proof.
  split.
  - apply (proj1 (verifyManifest_missing_files unit toy_createPublicKey toy_verify
             toy_sha256_hex toy_Buffer_from_object toy_basename toy_dirname toy_join
             valid_fs "other.mp4" None None)).
    reflexivity.
  - apply (proj2 (verifyManifest_missing_files unit toy_createPublicKey toy_verify
             toy_sha256_hex toy_Buffer_from_object toy_basename toy_dirname toy_join
             (fs_of "clip.mp4" mp4_sample) "clip.mp4" None None)).
    + left. vm_compute. reflexivity.
    + left. vm_compute. reflexivity.
Defined.




(** ** The canonical encoder *)

Lemma json_induction (P : json -> Prop) :
  P JNull -> (forall b, P (JBool b)) -> (forall n, P (JNum n)) ->
  (forall s, P (JStr s)) ->
  (forall l, Forall P l -> P (JArr l)) ->
  (forall o, Forall (fun p => P (snd p)) o -> P (JObj o)) ->
  forall v, P v.
Proof.
  intros Hnull Hbool Hnum Hstr Harr Hobj.
  fix IH 1. intros [|b|n|s|l|o].
  - exact Hnull.
  - apply Hbool.
  - apply Hnum.
  - apply Hstr.
  - apply Harr.
    exact ((fix all (l : list json) : Forall P l :=
              match l with
              | [] => Forall_nil P
              | x :: l' => Forall_cons x (IH x) (all l')
              end) l).
  - apply Hobj.
    exact ((fix all (o : props) : Forall (fun p => P (snd p)) o :=
              match o with
              | [] => Forall_nil _
              | p :: o' => Forall_cons p (IH (snd p)) (all o')
              end) o).
Qed.

(** *** The order of [sort] *)

Lemma leb_iff (a b : string) :
  String.leb a b = true <-> a = b \/ String_as_OT.lt a b.
Proof.
  unfold String.leb. split.
  - destruct (String.compare a b) eqn:E; try discriminate; intros _.
    + left. apply String_as_OT.cmp_eq. exact E.
    + right. apply String_as_OT.cmp_lt. exact E.
  - intros [->|H].
    + replace (String.compare b b) with Eq; [reflexivity|].
      symmetry. apply String_as_OT.cmp_eq. reflexivity.
    + apply String_as_OT.cmp_lt in H. unfold String_as_OT.cmp in H. rewrite H. reflexivity.
Qed.

Lemma ltb_iff (a b : string) : String.ltb a b = true <-> String_as_OT.lt a b.
Proof.
  unfold String.ltb. rewrite <- String_as_OT.cmp_lt. unfold String_as_OT.cmp.
  destruct (String.compare a b); split; congruence.
Qed.

Lemma leb_trans (a b c : string) :
  String.leb a b = true -> String.leb b c = true -> String.leb a c = true.
Proof.
  rewrite !leb_iff. intros [->|H1] [->|H2]; auto.
  right. eapply String_as_OT.lt_trans; eassumption.
Qed.

Lemma leb_false (a b : string) : String.leb a b = false -> String.leb b a = true.
Proof.
  intros H. destruct (String.leb_total a b) as [H'|H']; congruence.
Qed.

Lemma leb_neq_ltb (a b : string) :
  String.leb a b = true -> a <> b -> String.ltb a b = true.
Proof.
  rewrite leb_iff, ltb_iff. intros [->|H] Hne; [contradiction | exact H].
Qed.



Lemma insert_sorted_perm (a : string) (l : list string) :
  Permutation (insert_sorted a l) (a :: l).
Proof.
  induction l as [|h t IH]; cbn [insert_sorted]; [reflexivity|].
  destruct (String.leb a h); [reflexivity|].
  rewrite IH. apply perm_swap.
Qed.

Lemma sort_perm (l : list string) : Permutation (sort l) l.
Proof.
  unfold sort. induction l as [|a l IH]; cbn [fold_right]; [reflexivity|].
  rewrite insert_sorted_perm, IH. reflexivity.
Qed.

Lemma insert_sorted_leb (a : string) (l : list string) :
  StronglySorted (fun x y => String.leb x y = true) l ->
  StronglySorted (fun x y => String.leb x y = true) (insert_sorted a l).
Proof.
  induction 1 as [|h t Hs IH Hh]; cbn [insert_sorted].
  - repeat constructor.
  - destruct (String.leb a h) eqn:Hah.
    + constructor; [constructor; assumption|].
      constructor; [exact Hah|].
      eapply Forall_impl; [|exact Hh]. intros x Hx. cbn in Hx.
      eapply leb_trans; eassumption.
    + constructor; [exact IH|].
      eapply Permutation_Forall; [symmetry; apply insert_sorted_perm|].
      constructor; [apply leb_false; exact Hah | exact Hh].
Qed.

Lemma sort_leb (l : list string) :
  StronglySorted (fun x y => String.leb x y = true) (sort l).
Proof.
  unfold sort. induction l as [|a l IH]; cbn [fold_right]; [constructor|].
  apply insert_sorted_leb. exact IH.
Qed.

(** Distinct keys come out of [sort] strictly increasing. *)
Lemma sort_increasing (l : list string) : NoDup l -> increasing (sort l).
Proof.
  intros Hnd. unfold increasing.
  assert (Hnd' : NoDup (sort l)).
  { eapply Permutation_NoDup; [symmetry; apply sort_perm | exact Hnd]. }
  pose proof (sort_leb l) as Hs.
  induction Hs as [|h t Hs IH Hh]; [constructor|].
  inversion Hnd' as [|? ? Hnotin Hnd'']; subst.
  constructor; [apply IH; exact Hnd''|].
  destruct t as [|x t]; constructor.
  inversion Hh; subst. apply leb_neq_ltb; [assumption|].
  intros ->. apply Hnotin. left. reflexivity.
Qed.

(** *** Objects as lists of properties *)

Lemma obj_get_In (o : props) (k : string) (v : json) :
  obj_get o k = Some v -> In (k, v) o.
Proof.
  induction o as [|[k' v'] o IH]; cbn [obj_get]; [discriminate|].
  destruct (String.eqb_spec k' k) as [->|Hne].
  - intros H; inversion H; subst. left. reflexivity.
  - intros H. right. exact (IH H).
Qed.

Lemma obj_get_None (o : props) (k : string) :
  obj_get o k = None <-> ~ In k (keys o).
Proof.
  induction o as [|[k' v'] o IH]; cbn [obj_get keys map fst In].
  - tauto.
  - destruct (String.eqb_spec k' k) as [->|Hne].
    + split; [discriminate | intros H; exfalso; apply H; left; reflexivity].
    + fold (keys o). rewrite IH. tauto.
Qed.

Lemma In_obj_get (o : props) (k : string) (v : json) :
  NoDup (keys o) -> In (k, v) o -> obj_get o k = Some v.
Proof.
  induction o as [|[k' v'] o IH]; cbn [obj_get keys map fst]; [intros _ []|].
  intros Hnd [Heq|Hin]; inversion Hnd as [|? ? Hnotin Hnd']; subst.
  - inversion Heq; subst. rewrite String.eqb_refl. reflexivity.
  - destruct (String.eqb_spec k' k) as [->|Hne].
    + exfalso. apply Hnotin. apply (in_map fst) in Hin. exact Hin.
    + apply IH; assumption.
Qed.


Lemma keys_rewritten (o : props) : keys (rewritten o) = keys o.
Proof.
  unfold keys, rewritten. rewrite map_map. reflexivity.
Qed.

Lemma sortKeys_obj (o : props) :
  sortKeys (JObj o) = JObj (assemble (rewritten o) (sort (keys o))).
Proof. reflexivity. Qed.


Lemma all_objects_arr (P : props -> Prop) (l : list json) :
  all_objects P (JArr l) -> Forall (all_objects P) l.
Proof. intros H; inversion H; assumption. Qed.

Lemma all_objects_obj (P : props -> Prop) (o : props) :
  all_objects P (JObj o) -> P o /\ Forall (fun p => all_objects P (snd p)) o.
Proof. intros H; inversion H; split; assumption. Qed.


(** *** Adding properties *)

Lemma has_key_false (acc : props) (k : string) :
  ~ In k (keys acc) -> has_key acc k = false.
Proof.
  intros H. unfold has_key. apply obj_get_None in H. rewrite H. reflexivity.
Qed.

Lemma insert_index_perm (o : props) (i : Z) (k : string) (v : json) :
  Permutation (insert_index o i k v) ((k, v) :: o).
Proof.
  induction o as [|[k' v'] o IH]; cbn [insert_index]; [reflexivity|].
  destruct (array_index k') as [j|]; [|reflexivity].
  destruct (j <? i); [|reflexivity].
  rewrite IH. apply perm_swap.
Qed.

Lemma define_property_perm (acc : props) (k : string) (v : json) :
  ~ In k (keys acc) -> Permutation (define_property acc k v) (acc ++ [(k, v)]).
Proof.
  intros H. unfold define_property. rewrite (has_key_false _ _ H).
  destruct (array_index k) as [i|]; [|reflexivity].
  rewrite insert_index_perm. apply Permutation_cons_append.
Qed.

Lemma define_property_plain (acc : props) (k : string) (v : json) :
  array_index k = None -> ~ In k (keys acc) ->
  define_property acc k v = acc ++ [(k, v)].
Proof.
  intros Hi H. unfold define_property. rewrite (has_key_false _ _ H), Hi. reflexivity.
Qed.

Lemma obj_set_own (acc : props) (k : string) (v : json) :
  k <> "__proto__" -> obj_set acc k v = define_property acc k v.
Proof.
  intros H. unfold obj_set. apply String.eqb_neq in H. rewrite H. reflexivity.
Qed.

Lemma keys_app (a b : props) : keys (a ++ b) = keys a ++ keys b.
Proof. apply map_app. Qed.

Lemma NoDup_app_cons_notin {A} (l : list A) (x : A) (l' : list A) :
  NoDup (l ++ x :: l') -> ~ In x l /\ NoDup ((l ++ [x]) ++ l').
Proof.
  intros H. split.
  - apply NoDup_remove_2 in H. intros Hin. apply H. apply in_or_app. left. exact Hin.
  - rewrite <- app_assoc. exact H.
Qed.

Lemma value_of_some (r : props) (k : string) (v : json) :
  obj_get r k = Some v -> value_of r k = v.
Proof. unfold value_of. intros ->. reflexivity. Qed.

(** With plain and distinct keys every assignment of the loop appends a
    property. *)
Lemma fold_add_key_plain (r : props) (ks : list string) :
  forall acc : props,
    NoDup (keys acc ++ ks) -> Forall plain_key ks ->
    Forall (fun k => In k (keys r)) ks ->
    fold_left (add_key r) ks acc = acc ++ pick r ks.
Proof.
  induction ks as [|k ks IH]; intros acc Hnd Hplain Hin; cbn [fold_left pick map].
  - rewrite app_nil_r. reflexivity.
  - inversion Hplain as [|? ? [Hidx Hproto] Hplain']; subst.
    inversion Hin as [|? ? Hk Hin']; subst.
    apply NoDup_app_cons_notin in Hnd as [Hnotin Hnd].
    unfold add_key at 2.
    destruct (obj_get r k) as [v|] eqn:E; [|apply obj_get_None in E; contradiction].
    rewrite obj_set_own, define_property_plain by assumption.
    rewrite IH; [| rewrite keys_app; exact Hnd | assumption | assumption].
    rewrite <- app_assoc. cbn [app]. fold (pick r ks).
    rewrite (value_of_some _ _ _ E). reflexivity.
Qed.

(** With distinct keys other than [__proto__] the loop adds one property
    per key. *)
Lemma fold_add_key_perm (r : props) (ks : list string) :
  forall acc : props,
    NoDup (keys acc ++ ks) -> Forall (fun k => k <> "__proto__") ks ->
    Forall (fun k => In k (keys r)) ks ->
    Permutation (fold_left (add_key r) ks acc) (acc ++ pick r ks).
Proof.
  induction ks as [|k ks IH]; intros acc Hnd Hown Hin; cbn [fold_left pick map].
  - rewrite app_nil_r. reflexivity.
  - inversion Hown as [|? ? Hproto Hown']; subst.
    inversion Hin as [|? ? Hk Hin']; subst.
    apply NoDup_app_cons_notin in Hnd as [Hnotin Hnd].
    unfold add_key at 2.
    destruct (obj_get r k) as [v|] eqn:E; [|apply obj_get_None in E; contradiction].
    rewrite obj_set_own by assumption.
    pose proof (define_property_perm acc k v Hnotin) as Hp.
    rewrite IH; [| | assumption | assumption].
    + fold (pick r ks). rewrite Hp, <- app_assoc. cbn [app].
      rewrite (value_of_some _ _ _ E). reflexivity.
    + eapply Permutation_NoDup; [|exact Hnd].
      apply Permutation_app_tail. symmetry.
      replace (keys acc ++ [k]) with (keys (acc ++ [(k, v)])) by apply keys_app.
      apply Permutation_map. exact Hp.
Qed.

Lemma assemble_fold (r : props) (ks : list string) :
  assemble r ks = fold_left (add_key r) ks [].
Proof. reflexivity. Qed.

Lemma keys_pick (r : props) (ks : list string) : keys (pick r ks) = ks.
Proof.
  unfold keys, pick. rewrite map_map. cbn [fst]. apply map_id.
Qed.

Lemma pick_keys (r : props) : NoDup (keys r) -> pick r (keys r) = r.
Proof.
  intros Hnd. unfold pick, keys. rewrite map_map.
  rewrite <- (map_id r) at 2. apply map_ext_in.
  intros [k v] Hin. cbn [fst]. f_equal.
  apply value_of_some. apply In_obj_get; assumption.
Qed.

Lemma sort_keys_in (o : props) :
  Forall (fun k => In k (keys (rewritten o))) (sort (keys o)).
Proof.
  apply Forall_forall. intros k Hk. rewrite keys_rewritten.
  eapply Permutation_in; [apply sort_perm | exact Hk].
Qed.

(** *** What [sortKeys] returns *)

Lemma rewritten_In (o : props) (k : string) (v : json) :
  In (k, v) (rewritten o) -> exists p, In p o /\ k = fst p /\ v = sortKeys (snd p).
Proof.
  unfold rewritten. intros H. apply in_map_iff in H as (p & Heq & Hin).
  inversion Heq; subst. eauto.
Qed.

(** On plain keys the result lists the sorted keys, each with its
    rewritten value. *)
Lemma sortKeys_obj_plain (o : props) :
  NoDup (keys o) -> Forall plain_key (keys o) ->
  sortKeys (JObj o) = JObj (pick (rewritten o) (sort (keys o))).
Proof.
  intros Hnd Hplain. rewrite sortKeys_obj, assemble_fold. f_equal.
  rewrite fold_add_key_plain; [reflexivity | | | apply sort_keys_in].
  - cbn [keys map app]. eapply Permutation_NoDup; [symmetry; apply sort_perm | exact Hnd].
  - eapply Permutation_Forall; [symmetry; apply sort_perm | exact Hplain].
Qed.

Lemma sortKeys_keys_sorted (v : json) : plain_keys v -> keys_sorted (sortKeys v).
Proof.
  induction v as [|x|n|s|l IH|o IH] using json_induction; intros Hp;
    [constructor | constructor | constructor | constructor | |].
  - (* arrays *)
    apply all_objects_arr in Hp. cbn [sortKeys]. constructor.
    induction l as [|x l IHl]; [constructor|].
    inversion IH as [|? ? IHx IHl']; subst. inversion Hp as [|? ? Hx Hl]; subst.
    cbn [map]. constructor; [exact (IHx Hx) | exact (IHl IHl' Hl)].
  - (* objects *)
    apply all_objects_obj in Hp as [[Hnd Hplain] Hvals].
    rewrite sortKeys_obj_plain by assumption.
    constructor.
    + rewrite keys_pick. apply sort_increasing. exact Hnd.
    + apply Forall_forall. intros [k v] Hin. cbn [snd].
      unfold pick in Hin. apply in_map_iff in Hin as (k' & Heq & _).
      inversion Heq; subst. unfold value_of.
      destruct (obj_get (rewritten o) k) as [v|] eqn:E; [|constructor].
      apply obj_get_In, rewritten_In in E as (p & Hin & _ & ->).
      rewrite Forall_forall in IH, Hvals. apply IH; [exact Hin | apply Hvals; exact Hin].
Qed.

(** The result has the contents of the argument. *)
Lemma sortKeys_keeps_contents (v : json) : own_keys v -> same_contents (sortKeys v) v.
Proof.
  induction v as [|x|n|s|l IH|o IH] using json_induction; intros Hp;
    [constructor | constructor | constructor | constructor | |].
  - (* arrays *)
    apply all_objects_arr in Hp. cbn [sortKeys]. constructor.
    induction l as [|x l IHl]; [constructor|].
    inversion IH; subst. inversion Hp; subst.
    cbn [map]. constructor; [auto | apply IHl; assumption].
  - (* objects *)
    apply all_objects_obj in Hp as [[Hnd Hown] Hvals].
    rewrite sortKeys_obj, assemble_fold.
    apply sc_obj with (o1' := rewritten o).
    + rewrite fold_add_key_perm; [| | | apply sort_keys_in].
      * cbn [app]. rewrite <- (pick_keys (rewritten o)) at 2
          by (rewrite keys_rewritten; exact Hnd).
        rewrite keys_rewritten. unfold pick. apply Permutation_map. apply sort_perm.
      * cbn [keys map app]. eapply Permutation_NoDup; [symmetry; apply sort_perm | exact Hnd].
      * eapply Permutation_Forall; [symmetry; apply sort_perm | exact Hown].
    + clear Hnd Hown. induction o as [|p o IHo]; [constructor|].
      inversion IH as [|? ? IHp IHo']; subst. inversion Hvals as [|? ? Hp Ho]; subst.
      cbn [rewritten map]. fold (rewritten o).
      constructor; [split; [reflexivity | exact (IHp Hp)] | exact (IHo IHo' Ho)].
Qed.




(** ** Finding a box in a sequence of boxes *)

Lemma container_app (a b : list (string * Buffer)) :
  container (a ++ b) = container a ++ container b.
Proof. unfold container. apply flat_map_app. Qed.


(** The payload the scanner returns for a box: all of it, or what
    follows the four bytes of version and flags of a [meta] box. *)
Lemma payload_slice (pre rest payload : Buffer) (tag : string) (k : Z) :
  String.length tag = 4%nat -> (k = 0 \/ k = 4) ->
  slice (pre ++ box_bytes tag payload ++ rest) (blen pre + 4 + 4 + k)
        (blen pre + (8 + blen payload))
  = skipn (Z.to_nat k) payload.
Proof.
  intros Htag Hk. unfold slice, box_bytes.
  pose proof (blen_nonneg pre) as Hpre. pose proof (blen_nonneg payload) as Hp.
  replace (Z.to_nat (blen pre + 4 + 4 + k))
    with (List.length (pre ++ size_field (8 + blen payload) ++ from_string tag)
          + Z.to_nat k)%nat.
  2:{ rewrite !length_app, from_string_length, Htag. cbn [List.length size_field].
      unfold blen. lia. }
  rewrite <- !app_assoc.
  replace (pre ++ size_field (8 + blen payload) ++ from_string tag ++ payload ++ rest)
    with ((pre ++ size_field (8 + blen payload) ++ from_string tag) ++ payload ++ rest)
    by (rewrite <- !app_assoc; reflexivity).
  rewrite skipn_app_plus, skipn_app, firstn_app.
  rewrite length_skipn.
  replace (Z.to_nat (blen pre + (8 + blen payload) - (blen pre + 4 + 4 + k)))
    with (List.length payload - Z.to_nat k)%nat by (unfold blen; lia).
  rewrite (firstn_all2 (n := (List.length payload - Z.to_nat k)%nat))
    by (rewrite length_skipn; lia).
  replace (List.length payload - Z.to_nat k - (List.length payload - Z.to_nat k))%nat
    with 0%nat by lia.
  rewrite firstn_O. apply app_nil_r.
Qed.

(** One turn of the scanner at a well-formed box with the tag looked
    for. *)
Lemma findAndParseBox_body_hit (pre rest payload : Buffer) (tag : string) :
  well_formed_box (tag, payload) ->
  findAndParseBox_body (pre ++ box_bytes tag payload ++ rest) tag (blen pre)
  = Leave (Ok (Some (found_box tag payload (blen pre)))).
Proof.
  intros [Htag Hsize]. cbn [fst snd] in *.
  pose proof (blen_nonneg payload) as Hp. pose proof (blen_nonneg pre) as Hpre.
  pose proof (blen_nonneg rest) as Hrest.
  remember (pre ++ box_bytes tag payload ++ rest) as buffer eqn:Hbuf.
  assert (Hlen : blen buffer = blen pre + 8 + blen payload + blen rest).
  { subst buffer. rewrite !blen_app, box_bytes_length by assumption. lia. }
  assert (Hread : readUInt32BE buffer (blen pre) = Ok (8 + blen payload)).
  { subst buffer. unfold box_bytes. rewrite <- !app_assoc.
    apply readUInt32BE_size_field. lia. }
  assert (Hslice : slice buffer (blen pre + 4) (blen pre + 4 + 4) = from_string tag).
  { subst buffer. unfold box_bytes. rewrite <- !app_assoc.
    pose proof (slice_app_mid (pre ++ size_field (8 + blen payload))
                  (from_string tag) (payload ++ rest)) as Hs.
    rewrite blen_app in Hs.
    replace (blen (from_string tag)) with 4 in Hs
      by (unfold blen; rewrite from_string_length, Htag; reflexivity).
    replace (blen (size_field (8 + blen payload))) with 4 in Hs by reflexivity.
    rewrite <- app_assoc in Hs. exact Hs. }
  unfold findAndParseBox_body, read_header, bind.
  rewrite Hread.
  destruct (8 + blen payload =? 1) eqn:E1; [apply Z.eqb_eq in E1; lia|].
  destruct (blen pre + 4 + 4 >? blen buffer) eqn:E2;
    [rewrite Z.gtb_ltb in E2; apply Z.ltb_lt in E2; lia|].
  rewrite subarray_slice by lia.
  rewrite Z.min_l by lia.
  rewrite Hslice, (proj2 (equals_true _ _) eq_refl).
  unfold found_box. do 3 f_equal.
  rewrite subarray_slice by (destruct (String.eqb tag "meta"); lia).
  rewrite Z.min_l by lia.
  rewrite Hbuf.
  destruct (String.eqb tag "meta").
  - rewrite payload_slice by (auto; lia). reflexivity.
  - rewrite payload_slice by (auto; lia). reflexivity.
Qed.

Lemma findAndParseBox_loop_finds (boxes : list (string * Buffer)) :
  forall (pre rest payload : Buffer) (tag : string) (fuel : nat),
    Forall well_formed_box boxes ->
    Forall (fun b => fst b <> tag) boxes ->
    well_formed_box (tag, payload) ->
    0 < blen payload + blen rest ->
    (List.length boxes < fuel)%nat ->
    findAndParseBox_loop fuel (pre ++ container boxes ++ box_bytes tag payload ++ rest)
                         tag (blen pre)
    = Some (Ok (Some (found_box tag payload (blen (pre ++ container boxes))))).
Proof.
  induction boxes as [|[t p] boxes IH];
    intros pre rest payload tag fuel Hwf Hne Hbox Hpos Hfuel.
  - destruct fuel; [cbn in Hfuel; lia|].
    cbn [findAndParseBox_loop container flat_map app]. rewrite app_nil_r.
    destruct Hbox as [Htag Hsize]. cbn [fst snd] in *.
    replace (blen pre <? blen (pre ++ box_bytes tag payload ++ rest) - 8) with true.
    2:{ symmetry. apply Z.ltb_lt. rewrite !blen_app, box_bytes_length by assumption. lia. }
    rewrite findAndParseBox_body_hit by (split; assumption). reflexivity.
  - destruct fuel; [cbn in Hfuel; lia|].
    inversion Hwf as [|? ? Hwf1 Hwf2]; subst. inversion Hne as [|? ? Hne1 Hne2]; subst.
    cbn [fst] in Hne1.
    cbn [findAndParseBox_loop container flat_map fst snd].
    fold (container boxes). rewrite <- !app_assoc.
    pose proof Hwf1 as [Ht Hs]. cbn [fst snd] in Ht, Hs.
    pose proof Hbox as [Htag Hsize]. cbn [fst snd] in Htag, Hsize.
    replace (blen pre <? blen (pre ++ box_bytes t p ++ container boxes ++ box_bytes tag payload ++ rest) - 8) with true.
    2:{ symmetry. apply Z.ltb_lt. rewrite !blen_app, !box_bytes_length by assumption.
        pose proof (blen_nonneg (container boxes)). pose proof (blen_nonneg p).
        pose proof (blen_nonneg payload). pose proof (blen_nonneg rest). lia. }
    rewrite findAndParseBox_body_skip by assumption.
    rewrite (app_assoc pre (box_bytes t p)).
    rewrite IH by (try assumption; cbn in Hfuel; lia).
    rewrite <- !app_assoc. reflexivity.
Qed.

Lemma findAndParseBox_finds (boxes : list (string * Buffer))
    (rest payload : Buffer) (tag : string) :
  Forall well_formed_box boxes ->
  Forall (fun b => fst b <> tag) boxes ->
  well_formed_box (tag, payload) ->
  0 < blen payload + blen rest ->
  findAndParseBox (container boxes ++ box_bytes tag payload ++ rest) tag 0
  = Ok (Some (found_box tag payload (blen (container boxes)))).
Proof.
  intros Hwf Hne Hbox Hpos.
  apply findAndParseBox_loop_eq with (fuel := S (List.length boxes)).
  apply (findAndParseBox_loop_finds boxes [] rest payload tag); auto.
Qed.

(** A box of eight bytes, a header alone, at the very end. *)
Lemma findAndParseBox_loop_header_only (boxes : list (string * Buffer)) :
  forall (pre : Buffer) (tag : string) (fuel : nat),
    Forall well_formed_box boxes ->
    Forall (fun b => fst b <> tag) boxes ->
    String.length tag = 4%nat ->
    (List.length boxes < fuel)%nat ->
    findAndParseBox_loop fuel (pre ++ container boxes ++ box_bytes tag []) tag (blen pre)
    = Some (Ok None).
Proof.
  induction boxes as [|[t p] boxes IH]; intros pre tag fuel Hwf Hne Htag Hfuel.
  - destruct fuel; [cbn in Hfuel; lia|].
    cbn [findAndParseBox_loop container flat_map app].
    replace (blen pre <? blen (pre ++ box_bytes tag []) - 8) with false; [reflexivity|].
    symmetry. apply Z.ltb_ge. rewrite blen_app, box_bytes_length by assumption.
    cbn. lia.
  - destruct fuel; [cbn in Hfuel; lia|].
    inversion Hwf as [|? ? Hwf1 Hwf2]; subst. inversion Hne as [|? ? Hne1 Hne2]; subst.
    cbn [fst] in Hne1.
    cbn [findAndParseBox_loop container flat_map fst snd].
    fold (container boxes). rewrite <- !app_assoc.
    destruct (blen pre <? _); [|reflexivity].
    rewrite findAndParseBox_body_skip by assumption.
    rewrite (app_assoc pre (box_bytes t p)).
    apply IH; try assumption. cbn in Hfuel; lia.
Qed.

(** ** Taking a box out and putting one in its place *)

Lemma subarray_prefix (a b : Buffer) : subarray (a ++ b) 0 (blen a) = a.
Proof.
  pose proof (blen_nonneg a). pose proof (blen_nonneg b).
  rewrite subarray_slice by lia. rewrite blen_app, Z.min_l by lia.
  exact (slice_app_mid [] a b).
Qed.

Lemma subarray_from_suffix (a b : Buffer) : subarray_from (a ++ b) (blen a) = b.
Proof.
  pose proof (blen_nonneg a). pose proof (blen_nonneg b).
  unfold subarray_from. rewrite subarray_slice by (rewrite ?blen_app; lia).
  rewrite Z.min_id. unfold slice. rewrite skipn_blen_app.
  apply firstn_all2. rewrite blen_app. unfold blen. lia.
Qed.

Lemma removeBoxFromBuffer_finds (boxes : list (string * Buffer))
    (rest payload : Buffer) (tag : string) :
  Forall well_formed_box boxes ->
  Forall (fun b => fst b <> tag) boxes ->
  well_formed_box (tag, payload) ->
  0 < blen payload + blen rest ->
  removeBoxFromBuffer (container boxes ++ box_bytes tag payload ++ rest) tag
  = Ok (container boxes ++ rest).
Proof.
  intros Hwf Hne Hbox Hpos. unfold removeBoxFromBuffer, bind.
  rewrite findAndParseBox_finds by assumption.
  cbn [found_box startOffset size].
  rewrite subarray_prefix.
  destruct Hbox as [Htag _]. cbn [fst] in Htag.
  rewrite <- (box_bytes_length tag payload Htag), <- blen_app.
  rewrite (app_assoc (container boxes) (box_bytes tag payload) rest).
  rewrite subarray_from_suffix. reflexivity.
Qed.

Lemma replaceBoxInFile_finds (boxes : list (string * Buffer))
    (rest payload newBox : Buffer) (tag : string) :
  Forall well_formed_box boxes ->
  Forall (fun b => fst b <> tag) boxes ->
  well_formed_box (tag, payload) ->
  0 < blen payload + blen rest ->
  replaceBoxInFile (container boxes ++ box_bytes tag payload ++ rest) tag newBox
  = Ok (container boxes ++ newBox ++ rest).
Proof.
  intros Hwf Hne Hbox Hpos. unfold replaceBoxInFile, bind.
  rewrite findAndParseBox_finds by assumption.
  cbn [found_box startOffset size].
  rewrite subarray_prefix.
  destruct Hbox as [Htag _]. cbn [fst] in Htag.
  rewrite <- (box_bytes_length tag payload Htag), <- blen_app.
  rewrite (app_assoc (container boxes) (box_bytes tag payload) rest).
  rewrite subarray_from_suffix. reflexivity.
Qed.

(** ** The boxes the code builds *)

Lemma uint32BE_size_field (v : Z) :
  0 <= v < 4294967296 -> uint32BE v = Ok (size_field v).
Proof.
  intros H. unfold uint32BE.
  replace (0 <=? v) with true by (symmetry; apply Z.leb_le; lia).
  replace (v <? 4294967296) with true by (symmetry; apply Z.ltb_lt; lia).
  reflexivity.
Qed.


Lemma createBox_box_bytes (type : string) (data : Buffer) :
  8 + blen data < 4294967296 -> createBox type data = Ok (box_bytes type data).
Proof.
  intros H. pose proof (blen_nonneg data). unfold createBox, bind.
  replace (4 + 4 + blen data) with (8 + blen data) by lia.
  rewrite uint32BE_size_field by lia. reflexivity.
Qed.

Lemma createUUIDBox_box_bytes (uuid data : Buffer) :
  List.length uuid = 16%nat -> 24 + blen data < 4294967296 ->
  createUUIDBox uuid data = Ok (box_bytes "uuid" (uuid ++ data)).
Proof.
  intros Hu H. pose proof (blen_nonneg data). unfold createUUIDBox, bind, box_bytes.
  rewrite blen_app. replace (blen uuid) with 16 by (unfold blen; lia).
  replace (4 + 4 + 16 + blen data) with (8 + (16 + blen data)) by lia.
  rewrite uint32BE_size_field by lia. reflexivity.
Qed.

Lemma createMetaBox_single (uuid data : Buffer) :
  List.length uuid = 16%nat -> 36 + blen data < 4294967296 ->
  createMetaBox [mkUUIDBox uuid data]
  = Ok (box_bytes "meta" (size_field 0 ++ box_bytes "uuid" (uuid ++ data))).
Proof.
  intros Hu H. pose proof (blen_nonneg data).
  unfold createMetaBox, createUUIDBoxes, bind. cbn [Embed.uuid udata].
  rewrite createUUIDBox_box_bytes by (auto; lia).
  cbn [List.concat]. rewrite (app_nil_r (box_bytes "uuid" (uuid ++ data))).
  assert (Hlen : blen (box_bytes "uuid" (uuid ++ data)) = 24 + blen data).
  { rewrite box_bytes_length by reflexivity. rewrite blen_app. unfold blen. lia. }
  rewrite Hlen.
  replace (4 + 4 + 4 + (24 + blen data)) with (8 + (4 + (24 + blen data))) by lia.
  rewrite uint32BE_size_field by lia.
  rewrite (uint32BE_size_field 0) by lia.
  unfold box_bytes at 2. rewrite blen_app, Hlen.
  change (blen (size_field 0)) with 4. reflexivity.
Qed.

(** ** The reader of [uuid] boxes on boxes of other types *)

Lemma extractUUIDBoxes_body_skip (pre rest : Buffer) (tag : string) (payload : Buffer) :
  well_formed_box (tag, payload) -> tag <> "uuid" ->
  extractUUIDBoxes_body (pre ++ box_bytes tag payload ++ rest) (blen pre)
  = UNext None (blen (pre ++ box_bytes tag payload)).
Proof.
  intros [Htag Hsize] Hne. cbn [fst snd] in *.
  pose proof (blen_nonneg payload) as Hp. pose proof (blen_nonneg pre) as Hpre.
  pose proof (blen_nonneg rest) as Hrest.
  rewrite (blen_app pre), box_bytes_length by assumption.
  remember (pre ++ box_bytes tag payload ++ rest) as buffer eqn:Hbuf.
  assert (Hlen : blen buffer = blen pre + 8 + blen payload + blen rest).
  { subst buffer. rewrite !blen_app, box_bytes_length by assumption. lia. }
  assert (Hread : readUInt32BE buffer (blen pre) = Ok (8 + blen payload)).
  { subst buffer. unfold box_bytes. rewrite <- !app_assoc.
    apply readUInt32BE_size_field. lia. }
  assert (Hslice : slice buffer (blen pre + 4) (blen pre + 4 + 4) = from_string tag).
  { subst buffer. unfold box_bytes. rewrite <- !app_assoc.
    pose proof (slice_app_mid (pre ++ size_field (8 + blen payload))
                  (from_string tag) (payload ++ rest)) as Hs.
    rewrite blen_app in Hs.
    replace (blen (from_string tag)) with 4 in Hs
      by (unfold blen; rewrite from_string_length, Htag; reflexivity).
    replace (blen (size_field (8 + blen payload))) with 4 in Hs by reflexivity.
    rewrite <- app_assoc in Hs. exact Hs. }
  assert (E0 : (8 + blen payload =? 0) = false) by (apply Z.eqb_neq; lia).
  assert (E1 : (8 + blen payload =? 1) = false) by (apply Z.eqb_neq; lia).
  assert (E2 : (8 + blen payload >? blen buffer - blen pre) = false)
    by (rewrite Z.gtb_ltb; apply Z.ltb_ge; lia).
  assert (E3 : (blen pre + 4 + 4 >? blen buffer) = false)
    by (rewrite Z.gtb_ltb; apply Z.ltb_ge; lia).
  unfold extractUUIDBoxes_body. rewrite Hread, E0, E2. cbn [orb].
  rewrite E1. cbv iota beta zeta. rewrite E3, E1, E0.
  rewrite subarray_slice by lia. rewrite Z.min_l by lia. rewrite Hslice.
  destruct (equals (from_string tag) (from_string "uuid")) eqn:E4.
  - apply equals_true, from_string_inj in E4. contradiction.
  - f_equal. lia.
Qed.

Lemma extractUUIDBoxes_loop_skips (boxes : list (string * Buffer)) :
  forall (pre : Buffer) (acc : list UUIDBox) (fuel : nat),
    Forall well_formed_box boxes ->
    Forall (fun b => fst b <> "uuid") boxes ->
    (List.length boxes < fuel)%nat ->
    extractUUIDBoxes_loop fuel (pre ++ container boxes) acc (blen pre)
    = Some (Ok acc).
Proof.
  induction boxes as [|[t p] boxes IH]; intros pre acc fuel Hwf Hne Hfuel.
  - destruct fuel; [cbn in Hfuel; lia|]. rewrite extractUUIDBoxes_loop_S.
    cbn [container flat_map]. rewrite app_nil_r.
    replace (blen pre <? blen pre - 8) with false by (symmetry; apply Z.ltb_ge; lia).
    reflexivity.
  - destruct fuel; [cbn in Hfuel; lia|]. rewrite extractUUIDBoxes_loop_S.
    inversion Hwf as [|? ? Hwf1 Hwf2]; subst. inversion Hne as [|? ? Hne1 Hne2]; subst.
    cbn [fst] in Hne1.
    cbn [container flat_map fst snd]. fold (container boxes).
    destruct (blen pre <? _); [|reflexivity].
    rewrite extractUUIDBoxes_body_skip by assumption.
    cbn [push]. rewrite app_assoc. apply IH; try assumption. cbn in Hfuel; lia.
Qed.

(** The loop with more fuel than it needs. *)
Lemma extractUUIDBoxes_loop_more_fuel (fuel : nat) :
  forall (fuel' : nat) (metaData : Buffer) (acc : list UUIDBox) (offset : Z) r,
    (fuel <= fuel')%nat ->
    extractUUIDBoxes_loop fuel metaData acc offset = Some r ->
    extractUUIDBoxes_loop fuel' metaData acc offset = Some r.
Proof.
  induction fuel as [|fuel IH]; intros fuel' metaData acc offset r Hle H; [discriminate|].
  destruct fuel' as [|fuel']; [lia|].
  rewrite extractUUIDBoxes_loop_S in *.
  destruct (offset <? blen metaData - 8); [|exact H].
  destruct (extractUUIDBoxes_body metaData offset); try exact H.
  apply IH; [lia | exact H].
Qed.

Lemma extractUUIDBoxes_loop_eq (fuel : nat) (metaData : Buffer) r :
  extractUUIDBoxes_loop fuel metaData [] 0 = Some r -> extractUUIDBoxes metaData = r.
Proof.
  intros H. unfold extractUUIDBoxes.
  destruct (extractUUIDBoxes_fuel_enough metaData) as [r' Hr'].
  rewrite Hr'.
  destruct (Nat.le_ge_cases fuel (S (List.length metaData))) as [Hle|Hle].
  - eapply extractUUIDBoxes_loop_more_fuel in H; [|exact Hle]. congruence.
  - eapply extractUUIDBoxes_loop_more_fuel in Hr'; [|exact Hle]. congruence.
Qed.

Lemma extractUUIDBoxes_no_uuid (boxes : list (string * Buffer)) :
  Forall well_formed_box boxes ->
  Forall (fun b => fst b <> "uuid") boxes ->
  extractUUIDBoxes (container boxes) = Ok [].
Proof.
  intros Hwf Hne.
  apply extractUUIDBoxes_loop_eq with (fuel := S (List.length boxes)).
  apply (extractUUIDBoxes_loop_skips boxes [] []); auto.
Qed.

(** ** Stamping an MP4 file *)


Lemma container_snoc (boxes : list (string * Buffer)) (tag : string) (payload : Buffer) :
  container (boxes ++ [(tag, payload)]) = container boxes ++ box_bytes tag payload.
Proof.
  rewrite container_app. cbn [container flat_map fst snd]. rewrite app_nil_r. reflexivity.
Qed.

(** The [meta] box of a first stamp. *)
Lemma createMetaBox_trace (manifest signature : string) :
  36 + blen (from_string (envelope manifest signature)) < 4294967296 ->
  createMetaBox [mkUUIDBox TRACE_UUID (from_string (envelope manifest signature))]
  = Ok (box_bytes "meta" (trace_meta_payload manifest signature)).
Proof.
  intros H. apply createMetaBox_single; [reflexivity | exact H].
Qed.

Lemma trace_meta_payload_length (manifest signature : string) :
  blen (trace_meta_payload manifest signature)
  = 28 + blen (from_string (envelope manifest signature)).
Proof.
  unfold trace_meta_payload, trace_uuid_payload.
  rewrite blen_app, box_bytes_length, blen_app by reflexivity.
  change (blen (size_field 0)) with 4. change (blen TRACE_UUID) with 16. lia.
Qed.

(** The file after a stamp, when [moov] has no [meta] box. *)
Lemma embedMP4_buffer_fresh (before kids : list (string * Buffer)) (rest : Buffer)
    (manifest signature : string) :
  Forall well_formed_box before ->
  Forall (fun b => fst b <> "moov") before ->
  Forall well_formed_box kids ->
  Forall (fun b => fst b <> "meta") kids ->
  0 < blen (container kids) + blen rest ->
  44 + blen (container kids) + blen (from_string (envelope manifest signature))
    < 4294967296 ->
  embedMP4_buffer (container before ++ box_bytes "moov" (container kids) ++ rest)
                  manifest signature
  = Ok (container before
        ++ box_bytes "moov"
             (container (kids ++ [("meta", trace_meta_payload manifest signature)]))
        ++ rest).
Proof.
  intros Hb1 Hb2 Hk1 Hk2 Hpos Hsize.
  pose proof (blen_nonneg (container kids)) as Hkn.
  pose proof (blen_nonneg (from_string (envelope manifest signature))) as Hen.
  assert (Hmoov : well_formed_box ("moov", container kids)).
  { split; [reflexivity | cbn [snd]; lia]. }
  unfold embedMP4_buffer, bind.
  rewrite findAndParseBox_finds by assumption.
  cbn [found_box data String.eqb Ascii.eqb Bool.eqb].
  rewrite findAndParseBox_container by assumption.
  rewrite createMetaBox_trace by lia.
  unfold removeBoxFromBuffer, bind. rewrite findAndParseBox_container by assumption.
  unfold insertBox.
  rewrite createBox_box_bytes.
  2:{ rewrite blen_app, box_bytes_length, trace_meta_payload_length by reflexivity. lia. }
  rewrite replaceBoxInFile_finds by assumption.
  rewrite container_snoc. reflexivity.
Qed.

(** What the extractor finds in a [moov] box that ends with the [meta]
    box of a first stamp. *)
Lemma extractMP4_buffer_stamped (before kids : list (string * Buffer)) (rest : Buffer)
    (manifest signature : string) :
  Forall well_formed_box before ->
  Forall (fun b => fst b <> "moov") before ->
  Forall well_formed_box kids ->
  Forall (fun b => fst b <> "meta") kids ->
  44 + blen (container kids) + blen (from_string (envelope manifest signature))
    < 4294967296 ->
  (4 <= List.length (from_string (envelope manifest signature)))%nat ->
  extractMP4_buffer
    (container before
     ++ box_bytes "moov"
          (container (kids ++ [("meta", trace_meta_payload manifest signature)]))
     ++ rest)
  = Ok None.
Proof.
  intros Hb1 Hb2 Hk1 Hk2 Hsize Henv.
  pose proof (blen_nonneg (container kids)) as Hkn.
  pose proof (blen_nonneg (from_string (envelope manifest signature))) as Hen.
  pose proof (blen_nonneg rest) as Hrn.
  pose proof (trace_meta_payload_length manifest signature) as Hml.
  assert (Hlen : blen (container (kids ++ [("meta", trace_meta_payload manifest signature)]))
                 = blen (container kids) + 36
                   + blen (from_string (envelope manifest signature))).
  { rewrite container_snoc, blen_app, box_bytes_length by reflexivity. lia. }
  unfold extractMP4_buffer, bind.
  rewrite findAndParseBox_finds; try assumption.
  2:{ split; [reflexivity | cbn [snd]; lia]. }
  2:{ lia. }
  cbn [found_box data String.eqb Ascii.eqb Bool.eqb].
  rewrite container_snoc.
  rewrite <- (app_nil_r (box_bytes "meta" (trace_meta_payload manifest signature))).
  rewrite findAndParseBox_finds; try assumption.
  2:{ split; [reflexivity | cbn [snd]; lia]. }
  2:{ change (blen []) with 0. lia. }
  cbn [found_box data String.eqb Ascii.eqb Bool.eqb].
  unfold trace_meta_payload at 1. change (skipn 4 (size_field 0 ++ ?x)) with x.
  unfold trace_uuid_payload.
  rewrite (extractUUIDBoxes_createUUIDBox TRACE_UUID
             (from_string (envelope manifest signature))
             (box_bytes "uuid" (TRACE_UUID ++ from_string (envelope manifest signature))));
    [| reflexivity | exact Henv | apply createUUIDBox_box_bytes; [reflexivity | lia]].
  cbn [find Embed.uuid]. rewrite misread_identifier_is_not_TRACE. reflexivity.
Qed.

Lemma quote_length (s : string) : (2 <= List.length (quote s))%nat.
Proof.
  unfold quote. cbn [List.length]. rewrite length_app. cbn [List.length]. lia.
Qed.

Lemma envelope_length (manifest signature : string) :
  (4 <= List.length (from_string (envelope manifest signature)))%nat.
Proof.
  unfold envelope, JSON_stringify, from_string.
  rewrite list_ascii_of_string_of_list_ascii.
  rewrite stringify_envelope. cbn [List.length]. rewrite !length_app.
  cbn [List.length]. rewrite !length_app. cbn [List.length].
  pose proof (quote_length manifest). lia.
Qed.

(** ** A [meta] box that is already there *)

Lemma skipn_vf (vf x : Buffer) : List.length vf = 4%nat -> skipn 4 (vf ++ x) = x.
Proof.
  intros H. rewrite <- H. rewrite skipn_app, skipn_all, Nat.sub_diag. reflexivity.
Qed.

(** Stamping a file whose [moov] box holds a [meta] box without [uuid]
    boxes. *)
Lemma embedMP4_buffer_existing_meta (before k1 mk : list (string * Buffer))
    (vf r2 rest : Buffer) (manifest signature : string) :
  Forall well_formed_box before ->
  Forall (fun b => fst b <> "moov") before ->
  Forall well_formed_box k1 ->
  Forall (fun b => fst b <> "meta") k1 ->
  List.length vf = 4%nat ->
  Forall well_formed_box mk ->
  Forall (fun b => fst b <> "uuid") mk ->
  8 + blen (container k1 ++ box_bytes "meta" (vf ++ container mk) ++ r2) < 4294967296 ->
  44 + blen (container k1 ++ r2) + blen (from_string (envelope manifest signature))
    < 4294967296 ->
  embedMP4_buffer
    (container before
     ++ box_bytes "moov" (container k1 ++ box_bytes "meta" (vf ++ container mk) ++ r2)
     ++ rest)
    manifest signature
  = Ok (container before
        ++ box_bytes "moov"
             (container k1 ++ r2
              ++ box_bytes "meta" (trace_meta_payload manifest signature))
        ++ rest).
Proof.
  intros Hb1 Hb2 Hk1 Hk2 Hvf Hm1 Hm2 Hold Hnew.
  pose proof (blen_nonneg (container k1)) as Hkn.
  pose proof (blen_nonneg (container mk)) as Hmn.
  pose proof (blen_nonneg r2) as Hrn.
  pose proof (blen_nonneg rest) as Hrest.
  pose proof (blen_nonneg (from_string (envelope manifest signature))) as Hen.
  assert (Hvfl : blen vf = 4) by (unfold blen; lia).
  rewrite !blen_app, box_bytes_length, blen_app in Hold by reflexivity.
  rewrite blen_app in Hnew.
  assert (Hmeta : well_formed_box ("meta", vf ++ container mk)).
  { split; [reflexivity | cbn [snd]; rewrite blen_app; lia]. }
  assert (Hmoov : well_formed_box
                    ("moov", container k1 ++ box_bytes "meta" (vf ++ container mk) ++ r2)).
  { split; [reflexivity | cbn [snd]].
    rewrite !blen_app, box_bytes_length, blen_app by reflexivity. lia. }
  unfold embedMP4_buffer, bind.
  rewrite findAndParseBox_finds; try assumption.
  2:{ rewrite !blen_app, box_bytes_length, blen_app by reflexivity. lia. }
  cbn [found_box data String.eqb Ascii.eqb Bool.eqb].
  rewrite findAndParseBox_finds; try assumption.
  2:{ rewrite blen_app. lia. }
  cbn [found_box data String.eqb Ascii.eqb Bool.eqb].
  rewrite skipn_vf by assumption.
  rewrite extractUUIDBoxes_no_uuid by assumption.
  cbn [filter app].
  rewrite createMetaBox_trace by lia.
  rewrite removeBoxFromBuffer_finds; try assumption.
  2:{ rewrite blen_app. lia. }
  unfold insertBox.
  rewrite createBox_box_bytes.
  2:{ rewrite !blen_app, box_bytes_length, trace_meta_payload_length by reflexivity. lia. }
  rewrite replaceBoxInFile_finds; try assumption.
  2:{ rewrite !blen_app, box_bytes_length, blen_app by reflexivity. lia. }
  rewrite <- !app_assoc. reflexivity.
Qed.

(** ** A truncated extended size inside [meta] *)

Lemma readUInt64BE_message (b : Buffer) (o : Z) (m : string) :
  readUInt64BE b o = Throw m -> m = "ERR_OUT_OF_RANGE".
Proof.
  unfold readUInt64BE. destruct (o <? 0); [congruence|].
  destruct (skipn (Z.to_nat o) b) as [|b0 [|b1 [|b2 [|b3 [|b4 [|b5 [|b6 [|b7 l]]]]]]]];
    congruence.
Qed.

Lemma readUInt64BE_short (b : Buffer) (o : Z) :
  blen b < o + 8 -> readUInt64BE b o = Throw "ERR_OUT_OF_RANGE".
Proof.
  intros H. destruct (readUInt64BE b o) as [v|m] eqn:E.
  - apply readUInt64BE_ok in E. lia.
  - apply readUInt64BE_message in E. congruence.
Qed.

Lemma extractUUIDBoxes_truncated (tail : Buffer) :
  (5 <= List.length tail <= 11)%nat ->
  extractUUIDBoxes (size_field 1 ++ tail) = Throw "ERR_OUT_OF_RANGE".
Proof.
  intros H.
  assert (Hlen : blen (size_field 1 ++ tail) = 4 + blen tail)
    by (rewrite blen_app; reflexivity).
  assert (Ht : 5 <= blen tail <= 11) by (unfold blen; lia).
  unfold extractUUIDBoxes. rewrite extractUUIDBoxes_loop_S.
  replace (0 <? blen (size_field 1 ++ tail) - 8) with true
    by (symmetry; apply Z.ltb_lt; lia).
  unfold extractUUIDBoxes_body.
  pose proof (readUInt32BE_size_field [] tail 1 ltac:(lia)) as Hread.
  cbn [app] in Hread. change (blen []) with 0 in Hread. rewrite Hread.
  replace (1 >? blen (size_field 1 ++ tail) - 0) with false
    by (symmetry; rewrite Z.gtb_ltb; apply Z.ltb_ge; lia).
  cbn [Z.eqb orb]. cbv iota beta zeta.
  rewrite readUInt64BE_short by lia. reflexivity.
Qed.

(** ** The box engine on sequences of boxes *)

(** X1: in a buffer that starts with well-formed boxes, findAndParseBox
    returns the first box that carries the tag looked for, whatever
    follows it: its size, its offset, and its payload (for [meta], the
    payload after the four bytes of version and flags), provided the
    header of the box is not the end of the buffer. *)
Theorem findAndParseBox_returns_first_match :
  forall (boxes : list (string * Buffer)) (tag : string) (payload rest : Buffer),
    Forall well_formed_box boxes ->
    Forall (fun b => fst b <> tag) boxes ->
    well_formed_box (tag, payload) ->
    payload ++ rest <> [] ->
    findAndParseBox (container boxes ++ box_bytes tag payload ++ rest) tag 0
    = Ok (Some (mkBox (8 + blen payload) tag
                  (if String.eqb tag "meta" then skipn 4 payload else payload)
                  (blen (container boxes)))).
Proof.
  intros boxes tag payload rest Hwf Hne Hbox Hnil.
  apply findAndParseBox_finds; try assumption.
  rewrite <- blen_app. unfold blen.
  destruct (payload ++ rest); [contradiction | cbn [List.length]; lia].
Qed.

Lemma findAndParseBox_returns_first_match_witness :
  findAndParseBox
    (container [("ftyp", from_string "isom")]
     ++ box_bytes "moov" (from_string "abcd") ++ box_bytes "moov" (from_string "late"))
    "moov" 0
  = Ok (Some (mkBox 12 "moov" (from_string "abcd") 12)).
Proof.
  apply (findAndParseBox_returns_first_match
           [("ftyp", from_string "isom")] "moov" (from_string "abcd")
           (box_bytes "moov" (from_string "late"))).
  - repeat constructor; cbn; lia.
  - repeat constructor; cbn; discriminate.
  - split; [reflexivity | cbn; lia].
  - discriminate.
Defined.

(** X2: a box that is its eight-byte header alone and ends the buffer is
    not found: the loop stops as soon as no more than eight bytes are
    left. *)
Theorem findAndParseBox_misses_final_header :
  forall (boxes : list (string * Buffer)) (tag : string),
    Forall well_formed_box boxes ->
    Forall (fun b => fst b <> tag) boxes ->
    String.length tag = 4%nat ->
    findAndParseBox (container boxes ++ box_bytes tag []) tag 0 = Ok None.
Proof.
  intros boxes tag Hwf Hne Htag.
  apply findAndParseBox_loop_eq with (fuel := S (List.length boxes)).
  apply (findAndParseBox_loop_header_only boxes [] tag); auto.
Qed.

Lemma findAndParseBox_misses_final_header_witness :
  findAndParseBox (container [("ftyp", from_string "isom")] ++ box_bytes "free" [])
                  "free" 0
  = Ok None.
Proof.
  apply (findAndParseBox_misses_final_header [("ftyp", from_string "isom")] "free").
  - repeat constructor; cbn; lia.
  - repeat constructor; cbn; discriminate.
  - reflexivity.
Defined.

(** X3: removeBoxFromBuffer takes out the first box with the tag, header
    and payload, and keeps every other byte in place; a sequence of
    boxes without the tag comes back as it is. *)
Theorem removeBoxFromBuffer_removes_first_match :
  forall (boxes : list (string * Buffer)) (tag : string) (payload rest : Buffer),
    Forall well_formed_box boxes ->
    Forall (fun b => fst b <> tag) boxes ->
    (well_formed_box (tag, payload) -> payload ++ rest <> [] ->
     removeBoxFromBuffer (container boxes ++ box_bytes tag payload ++ rest) tag
     = Ok (container boxes ++ rest))
    /\ removeBoxFromBuffer (container boxes) tag = Ok (container boxes).
Proof.
  intros boxes tag payload rest Hwf Hne. split.
  - intros Hbox Hnil. apply removeBoxFromBuffer_finds; try assumption.
    rewrite <- blen_app. unfold blen.
    destruct (payload ++ rest); [contradiction | cbn [List.length]; lia].
  - unfold removeBoxFromBuffer, bind.
    rewrite findAndParseBox_container by assumption. reflexivity.
Qed.

Lemma removeBoxFromBuffer_removes_first_match_witness :
  removeBoxFromBuffer
    (container [("mvhd", from_string "abcd")]
     ++ box_bytes "meta" (from_string "0000") ++ from_string "tail") "meta"
  = Ok (container [("mvhd", from_string "abcd")] ++ from_string "tail").
Proof.
  apply (proj1 (removeBoxFromBuffer_removes_first_match
                  [("mvhd", from_string "abcd")] "meta" (from_string "0000")
                  (from_string "tail")
                  ltac:(repeat constructor; cbn; lia)
                  ltac:(repeat constructor; cbn; discriminate))).
  - split; [reflexivity | cbn; lia].
  - discriminate.
Defined.

(** X4: replaceBoxInFile puts the new bytes where the first box with the
    tag was and keeps what is before and after it; without such a box
    the file comes back as it is and the new bytes are dropped. *)
Theorem replaceBoxInFile_replaces_first_match :
  forall (boxes : list (string * Buffer)) (tag : string)
         (payload rest newBox : Buffer),
    Forall well_formed_box boxes ->
    Forall (fun b => fst b <> tag) boxes ->
    (well_formed_box (tag, payload) -> payload ++ rest <> [] ->
     replaceBoxInFile (container boxes ++ box_bytes tag payload ++ rest) tag newBox
     = Ok (container boxes ++ newBox ++ rest))
    /\ replaceBoxInFile (container boxes) tag newBox = Ok (container boxes).
Proof.
  intros boxes tag payload rest newBox Hwf Hne. split.
  - intros Hbox Hnil. apply replaceBoxInFile_finds; try assumption.
    rewrite <- blen_app. unfold blen.
    destruct (payload ++ rest); [contradiction | cbn [List.length]; lia].
  - unfold replaceBoxInFile, bind.
    rewrite findAndParseBox_container by assumption. reflexivity.
Qed.

Lemma replaceBoxInFile_replaces_first_match_witness :
  replaceBoxInFile
    (container [("ftyp", from_string "isom")]
     ++ box_bytes "moov" (from_string "abcd") ++ from_string "tail")
    "moov" (from_string "NEW")
  = Ok (container [("ftyp", from_string "isom")] ++ from_string "NEW"
        ++ from_string "tail").
Proof.
  apply (proj1 (replaceBoxInFile_replaces_first_match
                  [("ftyp", from_string "isom")] "moov" (from_string "abcd")
                  (from_string "tail") (from_string "NEW")
                  ltac:(repeat constructor; cbn; lia)
                  ltac:(repeat constructor; cbn; discriminate))).
  - split; [reflexivity | cbn; lia].
  - discriminate.
Defined.

(** X5: the [meta] box that createMetaBox builds around one [uuid] box
    is found again by findAndParseBox, and extractUUIDBoxes then returns
    one entry whose identifier is the last twelve bytes of the
    identifier written followed by the first four bytes of the payload
    written, and whose payload lacks these four bytes: the writer puts
    the identifier at offset 8 of the box, the reader takes it at
    offset 12. *)
Theorem createMetaBox_read_back :
  forall (uuid data : Buffer),
    List.length uuid = 16%nat ->
    (4 <= List.length data)%nat ->
    36 + blen data < 4294967296 ->
    exists (box : Buffer) (metaBox : Box),
      createMetaBox [mkUUIDBox uuid data] = Ok box
      /\ findAndParseBox box "meta" 0 = Ok (Some metaBox)
      /\ size metaBox = blen box
      /\ extractUUIDBoxes (Embed.data metaBox)
         = Ok [mkUUIDBox (skipn 4 uuid ++ firstn 4 data) (skipn 4 data)].
Proof.
  intros uuid data Hu Hd Hsize.
  pose proof (blen_nonneg data) as Hdn.
  assert (Hlen : blen (size_field 0 ++ box_bytes "uuid" (uuid ++ data)) = 28 + blen data).
  { rewrite blen_app, box_bytes_length, blen_app by reflexivity.
    change (blen (size_field 0)) with 4. unfold blen. lia. }
  exists (box_bytes "meta" (size_field 0 ++ box_bytes "uuid" (uuid ++ data))).
  exists (found_box "meta" (size_field 0 ++ box_bytes "uuid" (uuid ++ data)) 0).
  split; [apply createMetaBox_single; assumption|].
  split.
  - rewrite <- (app_nil_r (box_bytes "meta" _)).
    apply (findAndParseBox_finds [] [] _ "meta").
    + constructor.
    + constructor.
    + split; [reflexivity | cbn [snd]; lia].
    + change (blen []) with 0. lia.
  - split.
    + cbn [found_box size]. rewrite box_bytes_length by reflexivity. reflexivity.
    + cbn [found_box Embed.data String.eqb Ascii.eqb Bool.eqb].
      change (skipn 4 (size_field 0 ++ ?x)) with x.
      apply extractUUIDBoxes_createUUIDBox; try assumption.
      apply createUUIDBox_box_bytes; [assumption | lia].
Qed.

Lemma createMetaBox_read_back_witness :
  exists (box : Buffer) (metaBox : Box),
    createMetaBox [mkUUIDBox TRACE_UUID (from_string "payload")] = Ok box
    /\ findAndParseBox box "meta" 0 = Ok (Some metaBox)
    /\ size metaBox = blen box
    /\ extractUUIDBoxes (Embed.data metaBox)
       = Ok [mkUUIDBox (skipn 4 TRACE_UUID ++ firstn 4 (from_string "payload"))
               (skipn 4 (from_string "payload"))].
Proof.
  apply (createMetaBox_read_back TRACE_UUID (from_string "payload")).
  - reflexivity.
  - cbn; lia.
  - cbn; lia.
Defined.

(** ** Stamping MP4 files *)

(** X6: on a file that starts with well-formed boxes up to a [moov] box
    whose payload is a sequence of well-formed boxes without [meta],
    embedMetadataMP4 succeeds and rewrites the file so that every byte
    before and after [moov] is kept, the boxes inside [moov] are kept,
    and one [meta] box follows them, holding four zero bytes and one
    [uuid] box with the TRACE identifier and the envelope; no other path
    of the file system changes. *)
Theorem embedMetadataMP4_appends_meta_to_moov :
  forall (f : fs) (videoPath : string) (before kids : list (string * Buffer))
         (rest : Buffer) (manifest signature : string),
    f videoPath = Some (container before ++ box_bytes "moov" (container kids) ++ rest) ->
    Forall well_formed_box before ->
    Forall (fun b => fst b <> "moov") before ->
    Forall well_formed_box kids ->
    Forall (fun b => fst b <> "meta") kids ->
    container kids ++ rest <> [] ->
    44 + blen (container kids) + blen (from_string (envelope manifest signature))
      < 4294967296 ->
    embedMetadataMP4 f videoPath manifest signature
    = (Ok tt,
       writeFileSync f videoPath
         (container before
          ++ box_bytes "moov"
               (container (kids ++ [("meta", trace_meta_payload manifest signature)]))
          ++ rest)).
Proof.
  intros f videoPath before kids rest manifest signature Hf Hb1 Hb2 Hk1 Hk2 Hnil Hsize.
  unfold embedMetadataMP4, readFileSync. rewrite Hf.
  rewrite embedMP4_buffer_fresh; try assumption; [reflexivity|].
  rewrite <- blen_app. unfold blen.
  destruct (container kids ++ rest); [contradiction | cbn [List.length]; lia].
Qed.

Lemma embedMetadataMP4_appends_meta_to_moov_witness :
  embedMetadataMP4 (fs_of "clip.mp4" mp4_sample) "clip.mp4" "m1" "s1"
  = (Ok tt,
     writeFileSync (fs_of "clip.mp4" mp4_sample) "clip.mp4"
       (container [("ftyp", from_string "isom")]
        ++ box_bytes "moov"
             (container ([("mvhd", from_string "abcd")]
                         ++ [("meta", trace_meta_payload "m1" "s1")]))
        ++ container [("mdat", from_string "frames")])).
Proof.
  apply (embedMetadataMP4_appends_meta_to_moov
           (fs_of "clip.mp4" mp4_sample) "clip.mp4"
           [("ftyp", from_string "isom")] [("mvhd", from_string "abcd")]
           (container [("mdat", from_string "frames")]) "m1" "s1").
  - reflexivity.
  - repeat constructor; cbn; lia.
  - repeat constructor; cbn; discriminate.
  - repeat constructor; cbn; lia.
  - repeat constructor; cbn; discriminate.
  - discriminate.
  - vm_compute. reflexivity.
Defined.

(** X7: on every such file, extractMetadataMP4 after a successful
    embedMetadataMP4 returns null, whatever the manifest and the
    signature: the [uuid] box that was written is read back with another
    identifier. *)
Theorem extractMetadataMP4_after_first_stamp_is_null :
  forall (f : fs) (videoPath : string) (before kids : list (string * Buffer))
         (rest : Buffer) (manifest signature : string),
    f videoPath = Some (container before ++ box_bytes "moov" (container kids) ++ rest) ->
    Forall well_formed_box before ->
    Forall (fun b => fst b <> "moov") before ->
    Forall well_formed_box kids ->
    Forall (fun b => fst b <> "meta") kids ->
    container kids ++ rest <> [] ->
    44 + blen (container kids) + blen (from_string (envelope manifest signature))
      < 4294967296 ->
    fst (embedMetadataMP4 f videoPath manifest signature) = Ok tt
    /\ extractMetadataMP4 (snd (embedMetadataMP4 f videoPath manifest signature))
                          videoPath
       = Ok None.
Proof.
  intros f videoPath before kids rest manifest signature Hf Hb1 Hb2 Hk1 Hk2 Hnil Hsize.
  unfold embedMetadataMP4, readFileSync. rewrite Hf.
  rewrite embedMP4_buffer_fresh; try assumption.
  2:{ rewrite <- blen_app. unfold blen.
      destruct (container kids ++ rest); [contradiction | cbn [List.length]; lia]. }
  cbn [fst snd]. split; [reflexivity|].
  unfold extractMetadataMP4, existsSync, readFileSync, writeFileSync.
  rewrite String.eqb_refl. cbn [negb bind].
  apply extractMP4_buffer_stamped; try assumption. apply envelope_length.
Qed.

Lemma extractMetadataMP4_after_first_stamp_is_null_witness :
  fst (embedMetadataMP4 (fs_of "clip.mp4" mp4_sample) "clip.mp4" "m1" "s1") = Ok tt
  /\ extractMetadataMP4
       (snd (embedMetadataMP4 (fs_of "clip.mp4" mp4_sample) "clip.mp4" "m1" "s1"))
       "clip.mp4"
     = Ok None.
Proof.
  apply (extractMetadataMP4_after_first_stamp_is_null
           (fs_of "clip.mp4" mp4_sample) "clip.mp4"
           [("ftyp", from_string "isom")] [("mvhd", from_string "abcd")]
           (container [("mdat", from_string "frames")]) "m1" "s1").
  - reflexivity.
  - repeat constructor; cbn; lia.
  - repeat constructor; cbn; discriminate.
  - repeat constructor; cbn; lia.
  - repeat constructor; cbn; discriminate.
  - discriminate.
  - vm_compute. reflexivity.
Defined.

(** X8: when the payload of the [meta] box inside [moov], after its four
    bytes of version and flags, starts with a size field of 1 and is
    between 9 and 15 bytes long, extractUUIDBoxes reads the 64-bit size
    past the end of the buffer: extractMetadataMP4 throws a range error
    instead of returning null, and embedMetadataMP4 throws the same
    error and writes nothing. *)
Theorem truncated_extended_size_in_meta_throws :
  forall (f : fs) (videoPath : string) (before k1 : list (string * Buffer))
         (vf tail r2 rest : Buffer) (manifest signature : string),
    f videoPath
    = Some (container before
            ++ box_bytes "moov"
                 (container k1 ++ box_bytes "meta" (vf ++ size_field 1 ++ tail) ++ r2)
            ++ rest) ->
    Forall well_formed_box before ->
    Forall (fun b => fst b <> "moov") before ->
    Forall well_formed_box k1 ->
    Forall (fun b => fst b <> "meta") k1 ->
    List.length vf = 4%nat ->
    (5 <= List.length tail <= 11)%nat ->
    8 + blen (container k1 ++ box_bytes "meta" (vf ++ size_field 1 ++ tail) ++ r2)
      < 4294967296 ->
    extractMetadataMP4 f videoPath = Throw "ERR_OUT_OF_RANGE"
    /\ embedMetadataMP4 f videoPath manifest signature = (Throw "ERR_OUT_OF_RANGE", f).
Proof.
  intros f videoPath before k1 vf tail r2 rest manifest signature
         Hf Hb1 Hb2 Hk1 Hk2 Hvf Htail Hsize.
  pose proof (blen_nonneg (container k1)) as Hkn.
  pose proof (blen_nonneg r2) as Hrn. pose proof (blen_nonneg rest) as Hrest.
  assert (Hpl : blen (vf ++ size_field 1 ++ tail) = 8 + blen tail).
  { rewrite !blen_app. change (blen (size_field 1)) with 4. unfold blen. lia. }
  assert (Ht : 5 <= blen tail <= 11) by (unfold blen; lia).
  assert (Hml : blen (container k1 ++ box_bytes "meta" (vf ++ size_field 1 ++ tail) ++ r2)
                = blen (container k1) + 16 + blen tail + blen r2).
  { rewrite !blen_app, box_bytes_length, Hpl by reflexivity. lia. }
  rewrite Hml in Hsize.
  assert (Hmoov : findAndParseBox
                    (container before
                     ++ box_bytes "moov"
                          (container k1
                           ++ box_bytes "meta" (vf ++ size_field 1 ++ tail) ++ r2)
                     ++ rest) "moov" 0
                  = Ok (Some (found_box "moov"
                                (container k1
                                 ++ box_bytes "meta" (vf ++ size_field 1 ++ tail) ++ r2)
                                (blen (container before))))).
  { apply findAndParseBox_finds; try assumption.
    - split; [reflexivity | cbn [snd]; rewrite Hml; lia].
    - rewrite Hml. lia. }
  assert (Hmeta : findAndParseBox
                    (container k1 ++ box_bytes "meta" (vf ++ size_field 1 ++ tail) ++ r2)
                    "meta" 0
                  = Ok (Some (found_box "meta" (vf ++ size_field 1 ++ tail)
                                (blen (container k1))))).
  { apply findAndParseBox_finds; try assumption.
    - split; [reflexivity | cbn [snd]; rewrite Hpl; lia].
    - rewrite Hpl. lia. }
  split.
  - unfold extractMetadataMP4, existsSync, readFileSync. rewrite Hf. cbn [negb bind].
    unfold extractMP4_buffer, bind. rewrite Hmoov.
    cbn [found_box data String.eqb Ascii.eqb Bool.eqb]. rewrite Hmeta.
    cbn [found_box data String.eqb Ascii.eqb Bool.eqb].
    rewrite skipn_vf by assumption.
    rewrite extractUUIDBoxes_truncated by assumption. reflexivity.
  - unfold embedMetadataMP4, readFileSync. rewrite Hf.
    unfold embedMP4_buffer, bind. rewrite Hmoov.
    cbn [found_box data String.eqb Ascii.eqb Bool.eqb]. rewrite Hmeta.
    cbn [found_box data String.eqb Ascii.eqb Bool.eqb].
    rewrite skipn_vf by assumption.
    rewrite extractUUIDBoxes_truncated by assumption. reflexivity.
Qed.

Lemma truncated_extended_size_in_meta_throws_witness :
  extractMetadataMP4
    (fs_of "clip.mp4"
       (container [("ftyp", from_string "isom")]
        ++ box_bytes "moov"
             (container [("mvhd", from_string "abcd")]
              ++ box_bytes "meta"
                   (bytes [0; 0; 0; 0] ++ size_field 1 ++ from_string "uuid.")
              ++ container [("trak", from_string "t")])
        ++ container [("mdat", from_string "frames")]))
    "clip.mp4"
  = Throw "ERR_OUT_OF_RANGE".
Proof.
  apply (proj1 (truncated_extended_size_in_meta_throws
                  (fs_of "clip.mp4"
                     (container [("ftyp", from_string "isom")]
                      ++ box_bytes "moov"
                           (container [("mvhd", from_string "abcd")]
                            ++ box_bytes "meta"
                                 (bytes [0; 0; 0; 0] ++ size_field 1
                                  ++ from_string "uuid.")
                            ++ container [("trak", from_string "t")])
                      ++ container [("mdat", from_string "frames")]))
                  "clip.mp4" [("ftyp", from_string "isom")]
                  [("mvhd", from_string "abcd")]
                  (bytes [0; 0; 0; 0]) (from_string "uuid.")
                  (container [("trak", from_string "t")])
                  (container [("mdat", from_string "frames")]) "m" "s"
                  eq_refl
                  ltac:(repeat constructor; cbn; lia)
                  ltac:(repeat constructor; cbn; discriminate)
                  ltac:(repeat constructor; cbn; lia)
                  ltac:(repeat constructor; cbn; discriminate)
                  eq_refl
                  ltac:(cbn; lia)
                  ltac:(vm_compute; reflexivity))).
Defined.

(** X9: when [moov] already holds a [meta] box whose payload, after the
    four bytes of version and flags, is a sequence of well-formed boxes
    none of which is a [uuid] box, embedMetadataMP4 takes that [meta]
    box out and appends a new one at the end of [moov] that holds the
    TRACE [uuid] box alone: the boxes that were inside the old [meta]
    box are not in the file any more. *)
Theorem embedMetadataMP4_drops_meta_children :
  forall (f : fs) (videoPath : string) (before k1 mk : list (string * Buffer))
         (vf r2 rest : Buffer) (manifest signature : string),
    f videoPath
    = Some (container before
            ++ box_bytes "moov"
                 (container k1 ++ box_bytes "meta" (vf ++ container mk) ++ r2)
            ++ rest) ->
    Forall well_formed_box before ->
    Forall (fun b => fst b <> "moov") before ->
    Forall well_formed_box k1 ->
    Forall (fun b => fst b <> "meta") k1 ->
    List.length vf = 4%nat ->
    Forall well_formed_box mk ->
    Forall (fun b => fst b <> "uuid") mk ->
    8 + blen (container k1 ++ box_bytes "meta" (vf ++ container mk) ++ r2)
      < 4294967296 ->
    44 + blen (container k1 ++ r2) + blen (from_string (envelope manifest signature))
      < 4294967296 ->
    embedMetadataMP4 f videoPath manifest signature
    = (Ok tt,
       writeFileSync f videoPath
         (container before
          ++ box_bytes "moov"
               (container k1 ++ r2
                ++ box_bytes "meta" (trace_meta_payload manifest signature))
          ++ rest)).
Proof.
  intros f videoPath before k1 mk vf r2 rest manifest signature
         Hf Hb1 Hb2 Hk1 Hk2 Hvf Hm1 Hm2 Hold Hnew.
  unfold embedMetadataMP4, readFileSync. rewrite Hf.
  rewrite embedMP4_buffer_existing_meta by assumption. reflexivity.
Qed.

Lemma embedMetadataMP4_drops_meta_children_witness :
  embedMetadataMP4
    (fs_of "clip.mp4"
       (container [("ftyp", from_string "isom")]
        ++ box_bytes "moov"
             (container [("mvhd", from_string "abcd")]
              ++ box_bytes "meta"
                   (bytes [0; 0; 0; 0] ++ container [("hdlr", from_string "mdir")])
              ++ container [("trak", from_string "t")])
        ++ container [("mdat", from_string "frames")]))
    "clip.mp4" "m1" "s1"
  = (Ok tt,
     writeFileSync
       (fs_of "clip.mp4"
          (container [("ftyp", from_string "isom")]
           ++ box_bytes "moov"
                (container [("mvhd", from_string "abcd")]
                 ++ box_bytes "meta"
                      (bytes [0; 0; 0; 0] ++ container [("hdlr", from_string "mdir")])
                 ++ container [("trak", from_string "t")])
           ++ container [("mdat", from_string "frames")]))
       "clip.mp4"
       (container [("ftyp", from_string "isom")]
        ++ box_bytes "moov"
             (container [("mvhd", from_string "abcd")]
              ++ container [("trak", from_string "t")]
              ++ box_bytes "meta" (trace_meta_payload "m1" "s1"))
        ++ container [("mdat", from_string "frames")])).
Proof.
  apply (embedMetadataMP4_drops_meta_children
           (fs_of "clip.mp4"
              (container [("ftyp", from_string "isom")]
               ++ box_bytes "moov"
                    (container [("mvhd", from_string "abcd")]
                     ++ box_bytes "meta"
                          (bytes [0; 0; 0; 0]
                           ++ container [("hdlr", from_string "mdir")])
                     ++ container [("trak", from_string "t")])
               ++ container [("mdat", from_string "frames")]))
           "clip.mp4"
           [("ftyp", from_string "isom")] [("mvhd", from_string "abcd")]
           [("hdlr", from_string "mdir")] (bytes [0; 0; 0; 0])
           (container [("trak", from_string "t")])
           (container [("mdat", from_string "frames")]) "m1" "s1").
  - reflexivity.
  - repeat constructor; cbn; lia.
  - repeat constructor; cbn; discriminate.
  - repeat constructor; cbn; lia.
  - repeat constructor; cbn; discriminate.
  - reflexivity.
  - repeat constructor; cbn; lia.
  - repeat constructor; cbn; discriminate.
  - vm_compute. reflexivity.
  - vm_compute. reflexivity.
Defined.

(** ** A second stamp on an MP4 file *)

Lemma createMetaBox_pair (u1 d1 u2 d2 : Buffer) :
  List.length u1 = 16%nat -> List.length u2 = 16%nat ->
  60 + blen d1 + blen d2 < 4294967296 ->
  createMetaBox [mkUUIDBox u1 d1; mkUUIDBox u2 d2]
  = Ok (box_bytes "meta"
          (size_field 0 ++ box_bytes "uuid" (u1 ++ d1) ++ box_bytes "uuid" (u2 ++ d2))).
Proof.
  intros Hu1 Hu2 H. pose proof (blen_nonneg d1). pose proof (blen_nonneg d2).
  unfold createMetaBox, createUUIDBoxes, bind. cbn [Embed.uuid udata].
  rewrite !createUUIDBox_box_bytes by (auto; lia).
  cbn [List.concat].
  rewrite (app_nil_r (box_bytes "uuid" (u2 ++ d2))).
  assert (Hlen : blen (box_bytes "uuid" (u1 ++ d1) ++ box_bytes "uuid" (u2 ++ d2))
                 = 48 + blen d1 + blen d2).
  { rewrite blen_app, !box_bytes_length, !blen_app by reflexivity. unfold blen. lia. }
  rewrite Hlen.
  replace (4 + 4 + 4 + (48 + blen d1 + blen d2))
    with (8 + (4 + (48 + blen d1 + blen d2))) by lia.
  rewrite uint32BE_size_field by lia.
  rewrite (uint32BE_size_field 0) by lia.
  unfold box_bytes at 3. rewrite blen_app, Hlen.
  change (blen (size_field 0)) with 4. reflexivity.
Qed.

Lemma misread_payload (uuid data : Buffer) :
  List.length uuid = 16%nat -> (4 <= List.length data)%nat ->
  (skipn 4 uuid ++ firstn 4 data) ++ skipn 4 data = skipn 4 uuid ++ data.
Proof.
  intros _ _. rewrite <- app_assoc, firstn_skipn. reflexivity.
Qed.

(** The file after a second stamp. *)
Lemma embedMP4_buffer_second (before kids : list (string * Buffer)) (rest : Buffer)
    (m1 s1 m2 s2 : string) :
  Forall well_formed_box before ->
  Forall (fun b => fst b <> "moov") before ->
  Forall well_formed_box kids ->
  Forall (fun b => fst b <> "meta") kids ->
  80 + blen (container kids) + blen (from_string (envelope m1 s1))
     + blen (from_string (envelope m2 s2)) < 4294967296 ->
  embedMP4_buffer
    (container before
     ++ box_bytes "moov" (container (kids ++ [("meta", trace_meta_payload m1 s1)]))
     ++ rest)
    m2 s2
  = Ok (container before
        ++ box_bytes "moov"
             (container
                (kids ++ [("meta",
                           size_field 0
                           ++ box_bytes "uuid"
                                (skipn 4 TRACE_UUID ++ from_string (envelope m1 s1))
                           ++ box_bytes "uuid" (trace_uuid_payload m2 s2))]))
        ++ rest).
Proof.
  intros Hb1 Hb2 Hk1 Hk2 Hsize.
  pose proof (blen_nonneg (container kids)) as Hkn.
  pose proof (blen_nonneg (from_string (envelope m1 s1))) as He1.
  pose proof (blen_nonneg (from_string (envelope m2 s2))) as He2.
  pose proof (blen_nonneg rest) as Hrn.
  pose proof (trace_meta_payload_length m1 s1) as Hml.
  pose proof (envelope_length m1 s1) as Hen1.
  set (e1 := from_string (envelope m1 s1)) in *.
  set (e2 := from_string (envelope m2 s2)) in *.
  assert (Hlen : blen (container (kids ++ [("meta", trace_meta_payload m1 s1)]))
                 = blen (container kids) + 36 + blen e1).
  { rewrite container_snoc, blen_app, box_bytes_length by reflexivity. lia. }
  assert (Hmeta : well_formed_box ("meta", trace_meta_payload m1 s1)).
  { split; [reflexivity | cbn [snd]; lia]. }
  unfold embedMP4_buffer, bind.
  rewrite findAndParseBox_finds; try assumption.
  2:{ split; [reflexivity | cbn [snd]; lia]. }
  2:{ lia. }
  cbn [found_box data String.eqb Ascii.eqb Bool.eqb].
  rewrite container_snoc.
  rewrite <- (app_nil_r (box_bytes "meta" (trace_meta_payload m1 s1))).
  rewrite findAndParseBox_finds; try assumption.
  2:{ change (blen []) with 0. lia. }
  cbn [found_box data String.eqb Ascii.eqb Bool.eqb].
  unfold trace_meta_payload at 1. change (skipn 4 (size_field 0 ++ ?x)) with x.
  unfold trace_uuid_payload at 1. fold e1.
  rewrite (extractUUIDBoxes_createUUIDBox TRACE_UUID e1
             (box_bytes "uuid" (TRACE_UUID ++ e1)));
    [| reflexivity | exact Hen1 | apply createUUIDBox_box_bytes; [reflexivity | lia]].
  cbn [filter Embed.uuid]. rewrite misread_identifier_is_not_TRACE. cbn [negb app].
  rewrite createMetaBox_pair.
  2:{ rewrite length_app, length_skipn, length_firstn. cbn [List.length TRACE_UUID map]. lia. }
  2:{ reflexivity. }
  2:{ assert (blen (skipn 4 e1) <= blen e1) by (unfold blen; rewrite length_skipn; lia).
      fold e2. lia. }
  rewrite misread_payload by (auto; reflexivity).
  rewrite removeBoxFromBuffer_finds; try assumption.
  2:{ change (blen []) with 0. lia. }
  unfold insertBox. rewrite app_nil_r.
  rewrite createBox_box_bytes.
  2:{ rewrite blen_app, box_bytes_length, !blen_app, !box_bytes_length, !blen_app
        by reflexivity.
      change (blen (size_field 0)) with 4. change (blen TRACE_UUID) with 16.
      assert (blen (skipn 4 TRACE_UUID) = 12) by reflexivity. fold e2. lia. }
  rewrite app_nil_r.
  rewrite replaceBoxInFile_finds; try assumption.
  2:{ split; [reflexivity | cbn [snd]; rewrite <- container_snoc; lia]. }
  2:{ rewrite <- container_snoc. lia. }
  rewrite container_snoc. unfold trace_uuid_payload. reflexivity.
Qed.

(** X24: a second stamp does not replace the first: starting from the
    file a first stamp produced, embedMetadataMP4 with another manifest
    and signature writes a [meta] box with two [uuid] boxes, the box of
    the first stamp without the first four bytes of its identifier and
    with its whole envelope, and then the box of the second stamp;
    nothing of the first envelope is removed. *)
Theorem embedMetadataMP4_second_stamp_keeps_first :
  forall (f : fs) (videoPath : string) (before kids : list (string * Buffer))
         (rest : Buffer) (m1 s1 m2 s2 : string),
    f videoPath
    = Some (container before
            ++ box_bytes "moov"
                 (container (kids ++ [("meta", trace_meta_payload m1 s1)]))
            ++ rest) ->
    Forall well_formed_box before ->
    Forall (fun b => fst b <> "moov") before ->
    Forall well_formed_box kids ->
    Forall (fun b => fst b <> "meta") kids ->
    80 + blen (container kids) + blen (from_string (envelope m1 s1))
       + blen (from_string (envelope m2 s2)) < 4294967296 ->
    embedMetadataMP4 f videoPath m2 s2
    = (Ok tt,
       writeFileSync f videoPath
         (container before
          ++ box_bytes "moov"
               (container
                  (kids ++ [("meta",
                             size_field 0
                             ++ box_bytes "uuid"
                                  (skipn 4 TRACE_UUID ++ from_string (envelope m1 s1))
                             ++ box_bytes "uuid" (trace_uuid_payload m2 s2))]))
          ++ rest)).
Proof.
  intros f videoPath before kids rest m1 s1 m2 s2 Hf Hb1 Hb2 Hk1 Hk2 Hsize.
  unfold embedMetadataMP4, readFileSync. rewrite Hf.
  rewrite embedMP4_buffer_second by assumption. reflexivity.
Qed.

Lemma embedMetadataMP4_second_stamp_keeps_first_witness :
  embedMetadataMP4
    (fs_of "clip.mp4"
       (container [("ftyp", from_string "isom")]
        ++ box_bytes "moov"
             (container ([("mvhd", from_string "abcd")]
                         ++ [("meta", trace_meta_payload "m1" "s1")]))
        ++ container [("mdat", from_string "frames")]))
    "clip.mp4" "m2" "s2"
  = (Ok tt,
     writeFileSync
       (fs_of "clip.mp4"
          (container [("ftyp", from_string "isom")]
           ++ box_bytes "moov"
                (container ([("mvhd", from_string "abcd")]
                            ++ [("meta", trace_meta_payload "m1" "s1")]))
           ++ container [("mdat", from_string "frames")]))
       "clip.mp4"
       (container [("ftyp", from_string "isom")]
        ++ box_bytes "moov"
             (container
                ([("mvhd", from_string "abcd")]
                 ++ [("meta",
                      size_field 0
                      ++ box_bytes "uuid"
                           (skipn 4 TRACE_UUID ++ from_string (envelope "m1" "s1"))
                      ++ box_bytes "uuid" (trace_uuid_payload "m2" "s2"))]))
        ++ container [("mdat", from_string "frames")])).
Proof.
  apply (embedMetadataMP4_second_stamp_keeps_first
           (fs_of "clip.mp4"
              (container [("ftyp", from_string "isom")]
               ++ box_bytes "moov"
                    (container ([("mvhd", from_string "abcd")]
                                ++ [("meta", trace_meta_payload "m1" "s1")]))
               ++ container [("mdat", from_string "frames")]))
           "clip.mp4" [("ftyp", from_string "isom")] [("mvhd", from_string "abcd")]
           (container [("mdat", from_string "frames")]) "m1" "s1" "m2" "s2").
  - reflexivity.
  - repeat constructor; cbn; lia.
  - repeat constructor; cbn; discriminate.
  - repeat constructor; cbn; lia.
  - repeat constructor; cbn; discriminate.
  - vm_compute. reflexivity.
Defined.



(** ** Reading back what [JSON.stringify] wrote *)

(** *** Numbers *)

Lemma after_value_span (rest : list ascii) :
  after_value rest = true -> span_digits rest = ([], rest).
Proof.
  destruct rest as [|c rest]; [reflexivity|]. cbn [after_value span_digits].
  intros H. replace (is_digit c) with false; [reflexivity|].
  symmetry. apply orb_true_iff in H as [H|H]; [apply orb_true_iff in H as [H|H]|];
    apply Ascii.eqb_eq in H; subst c; reflexivity.
Qed.

Lemma after_value_plain (rest : list ascii) :
  after_value rest = true ->
  match rest with
  | c :: _ => negb (Ascii.eqb c "."%char || Ascii.eqb c "e"%char || Ascii.eqb c "E"%char)
  | [] => true
  end = true.
Proof.
  destruct rest as [|c rest]; [reflexivity|]. cbn [after_value].
  intros H. apply orb_true_iff in H as [H|H]; [apply orb_true_iff in H as [H|H]|];
    apply Ascii.eqb_eq in H; subst c; reflexivity.
Qed.

Lemma span_digits_uint (u : Decimal.uint) (rest : list ascii) :
  span_digits rest = ([], rest) ->
  span_digits (uint_chars u ++ rest) = (uint_chars u, rest).
Proof.
  intros H. unfold uint_chars.
  induction u as [|u IH|u IH|u IH|u IH|u IH|u IH|u IH|u IH|u IH|u IH];
    [exact H | ..];
    cbn [DecimalString.NilEmpty.string_of_uint chars list_ascii_of_string app span_digits];
    change (is_digit _) with true; cbv iota; unfold chars in IH; rewrite IH; reflexivity.
Qed.

Lemma decimal_value_acc (u : Decimal.uint) (a : positive) :
  fold_left (fun acc c => acc * 10 + digit_val c) (uint_chars u) (Z.pos a)
  = Z.pos (Pos.of_uint_acc u a).
Proof.
  unfold uint_chars. revert a.
  induction u as [|u IH|u IH|u IH|u IH|u IH|u IH|u IH|u IH|u IH|u IH]; intros a;
    [reflexivity | ..];
    cbn [DecimalString.NilEmpty.string_of_uint chars list_ascii_of_string fold_left
         Pos.of_uint_acc];
    unfold chars in IH; rewrite <- IH; f_equal;
    match goal with
    | |- context [digit_val ?c] =>
        let v := eval vm_compute in (digit_val c) in change (digit_val c) with v
    end; lia.
Qed.

Lemma decimal_value_uint (u : Decimal.uint) :
  decimal_value (uint_chars u) = Z.of_N (Pos.of_uint u).
Proof.
  unfold decimal_value.
  induction u as [|u IH|u IH|u IH|u IH|u IH|u IH|u IH|u IH|u IH|u IH];
    [reflexivity | exact IH | ..];
    exact (decimal_value_acc u _).
Qed.

(** The numeral of a positive number has no leading zero. *)
Lemma to_uint_head (p : positive) (u : Decimal.uint) : Pos.to_uint p <> Decimal.D0 u.
Proof.
  pose proof (DecimalPos.Unsigned.to_of (Pos.to_uint p)) as H.
  rewrite DecimalPos.Unsigned.of_to in H. cbn [N.to_uint] in H.
  intros E. unfold Decimal.unorm in H.
  destruct (Decimal.nzhead (Pos.to_uint p)) eqn:En;
    try (rewrite H in E; discriminate E).
  - exact (DecimalPos.Unsigned.to_uint_nonzero p H).
  - exact (DecimalFacts.nzhead_nonzero _ _ En).
Qed.

Lemma uint_chars_canonical (u : Decimal.uint) :
  u <> Decimal.Nil -> (forall u', u <> Decimal.D0 u') ->
  exists c t, uint_chars u = c :: t
              /\ is_digit c = true
              /\ match uint_chars u with
                 | [] => false
                 | [_] => true
                 | d :: _ => negb (Ascii.eqb d "0"%char)
                 end = true.
Proof.
  intros Hnil Hzero. unfold uint_chars.
  destruct u as [|u|u|u|u|u|u|u|u|u|u];
    [contradiction | exfalso; exact (Hzero u eq_refl) | ..];
    cbn [DecimalString.NilEmpty.string_of_uint chars list_ascii_of_string];
    (eexists; eexists; split; [reflexivity | split; [reflexivity|]]);
    destruct (list_ascii_of_string _); reflexivity.
Qed.

Lemma parse_number_uint (u : Decimal.uint) (rest : list ascii) :
  u <> Decimal.Nil -> (forall u', u <> Decimal.D0 u') ->
  after_value rest = true ->
  parse_number (uint_chars u ++ rest) = Some (Z.of_N (Pos.of_uint u), rest)
  /\ parse_number ("-"%char :: uint_chars u ++ rest)
     = Some (- Z.of_N (Pos.of_uint u), rest).
Proof.
  intros Hnil Hzero Hrest.
  destruct (uint_chars_canonical u Hnil Hzero) as (c & t & Hu & Hc & Hcan).
  assert (Hminus : Ascii.eqb c "-"%char = false).
  { destruct (Ascii.eqb c "-"%char) eqn:E; [|reflexivity].
    apply Ascii.eqb_eq in E. subst c. discriminate Hc. }
  pose proof (span_digits_uint u rest (after_value_span rest Hrest)) as Hs.
  pose proof (decimal_value_uint u) as Hv.
  rewrite Hu in Hs, Hv, Hcan |- *. cbn [app] in Hs |- *.
  split.
  - unfold parse_number. rewrite Hminus, Hs, Hcan, (after_value_plain rest Hrest).
    cbn [andb]. rewrite Hv. reflexivity.
  - unfold parse_number. cbn [Ascii.eqb Bool.eqb].
    rewrite Hs, Hcan, (after_value_plain rest Hrest).
    cbn [andb]. rewrite Hv. reflexivity.
Qed.

Lemma decimal_pos (p : positive) : decimal (Z.pos p) = uint_chars (Pos.to_uint p).
Proof.
  unfold decimal, uint_chars. cbn [Z.to_int DecimalString.NilZero.string_of_int].
  unfold DecimalString.NilZero.string_of_uint.
  destruct (Pos.to_uint p) eqn:E; try reflexivity.
  exfalso. exact (DecimalPos.Unsigned.to_uint_nonnil p E).
Qed.

Lemma decimal_neg (p : positive) :
  decimal (Z.neg p) = "-"%char :: uint_chars (Pos.to_uint p).
Proof.
  unfold decimal, uint_chars. cbn [Z.to_int DecimalString.NilZero.string_of_int].
  unfold DecimalString.NilZero.string_of_uint.
  destruct (Pos.to_uint p) eqn:E; try reflexivity.
  exfalso. exact (DecimalPos.Unsigned.to_uint_nonnil p E).
Qed.

Lemma parse_number_decimal (n : Z) (rest : list ascii) :
  after_value rest = true -> parse_number (decimal n ++ rest) = Some (n, rest).
Proof.
  intros Hrest. destruct n as [|p|p].
  - change (decimal 0) with ["0"%char]. unfold parse_number. cbn [app Ascii.eqb Bool.eqb].
    cbn [span_digits]. change (is_digit "0") with true. cbv iota.
    rewrite (after_value_span rest Hrest), (after_value_plain rest Hrest). reflexivity.
  - rewrite decimal_pos.
    destruct (parse_number_uint (Pos.to_uint p) rest
                (DecimalPos.Unsigned.to_uint_nonnil p) (to_uint_head p) Hrest) as [H _].
    rewrite H, DecimalPos.Unsigned.of_to. reflexivity.
  - rewrite decimal_neg. cbn [app].
    destruct (parse_number_uint (Pos.to_uint p) rest
                (DecimalPos.Unsigned.to_uint_nonnil p) (to_uint_head p) Hrest) as [_ H].
    rewrite H, DecimalPos.Unsigned.of_to. reflexivity.
Qed.

(** The first character of a numeral. *)
Lemma decimal_head (n : Z) :
  exists c t, decimal n = c :: t /\ (is_digit c = true \/ c = "-"%char).
Proof.
  destruct n as [|p|p].
  - exists "0"%char, []. split; [reflexivity | left; reflexivity].
  - rewrite decimal_pos.
    destruct (uint_chars_canonical (Pos.to_uint p)
                (DecimalPos.Unsigned.to_uint_nonnil p) (to_uint_head p))
      as (c & t & Hu & Hc & _).
    exists c, t. split; [exact Hu | left; exact Hc].
  - rewrite decimal_neg. eexists; eexists. split; [reflexivity | right; reflexivity].
Qed.

(** *** Values *)

Lemma parse_value_number_head (f : nat) (c : ascii) (r : list ascii) :
  is_digit c = true \/ c = "-"%char ->
  parse_value (S f) (c :: r)
  = match parse_number (c :: r) with
    | Some (n, r') => Some (JNum n, r')
    | None => None
    end.
Proof.
  intros H. destruct c as [b0 b1 b2 b3 b4 b5 b6 b7].
  destruct b0, b1, b2, b3, b4, b5, b6, b7;
    first [ reflexivity
          | exfalso; destruct H as [H|H]; [cbv in H; discriminate H | discriminate H] ].
Qed.

Lemma parse_value_array_head (f : nat) (c : ascii) (t : list ascii) :
  is_ws c = false -> c <> "]"%char ->
  parse_value (S f) ("["%char :: c :: t)
  = match parse_elements f (c :: t) with
    | Some (vs, r') => Some (JArr vs, r')
    | None => None
    end.
Proof.
  intros Hws Hc. destruct c as [b0 b1 b2 b3 b4 b5 b6 b7].
  destruct b0, b1, b2, b3, b4, b5, b6, b7;
    first [ reflexivity | exfalso; apply Hc; reflexivity | cbv in Hws; discriminate Hws ].
Qed.

Lemma parse_value_object_head (f : nat) (t : list ascii) :
  parse_value (S f) ("{"%char :: dquote :: t)
  = match parse_members f [] (dquote :: t) with
    | Some (o, r') => Some (JObj o, r')
    | None => None
    end.
Proof. reflexivity. Qed.

Lemma parse_elements_S (f : nat) (s : list ascii) :
  parse_elements (S f) s
  = match parse_value f s with
    | Some (v, r) =>
        match skip_ws r with
        | ","%char :: r' =>
            match parse_elements f r' with
            | Some (vs, r'') => Some (v :: vs, r'')
            | None => None
            end
        | "]"%char :: r' => Some ([v], r')
        | _ => None
        end
    | None => None
    end.
Proof. reflexivity. Qed.

(** The first character of the text of a value is no white space and
    closes neither an array nor an object. *)
Lemma stringify_head (v : json) :
  exists c t, stringify_chars v = c :: t
              /\ is_ws c = false /\ c <> "]"%char /\ c <> "}"%char.
Proof.
  destruct v as [|[|]|n|s|l|o];
    try (eexists; eexists; split; [reflexivity |];
         split; [reflexivity | split; discriminate]).
  destruct (decimal_head n) as (c & t & Hd & Hc).
  exists c, t. split; [exact Hd|].
  destruct Hc as [Hc | ->]; [|split; [reflexivity | split; discriminate]].
  destruct c as [b0 b1 b2 b3 b4 b5 b6 b7].
  destruct b0, b1, b2, b3, b4, b5, b6, b7;
    first [ cbv in Hc; discriminate Hc
          | split; [reflexivity | split; discriminate] ].
Qed.

(** What the parser of a value is assumed to do in the lemmas on
    elements and members. *)
Lemma parse_elements_list (l : list json) :
  Forall (fun v => forall fuel rest,
            (json_size v <= fuel)%nat -> after_value rest = true ->
            parse_value fuel (stringify_chars v ++ rest) = Some (v, rest)) l ->
  l <> [] ->
  forall (fuel : nat) (rest : list ascii),
    (fold_right (fun x n => S (json_size x + n)) O l <= fuel)%nat ->
    parse_elements fuel (join_comma (map stringify_chars l) ++ "]"%char :: rest)
    = Some (l, rest).
Proof.
  induction l as [|v l IH]; intros HP Hnil fuel rest Hfuel; [contradiction|].
  inversion HP as [|? ? Hv Hl]; subst.
  cbn [fold_right] in Hfuel.
  destruct fuel as [|f]; [lia|].
  rewrite parse_elements_S.
  destruct l as [|v2 l].
  - cbn [map join_comma].
    rewrite Hv by (cbn [fold_right] in Hfuel; first [lia | reflexivity]).
    reflexivity.
  - change (join_comma (map stringify_chars (v :: v2 :: l)))
      with (stringify_chars v ++ ","%char :: join_comma (map stringify_chars (v2 :: l))).
    rewrite <- app_assoc. cbn [app].
    rewrite Hv by (first [lia | reflexivity]).
    change (skip_ws (","%char :: ?x)) with (","%char :: x). cbv iota.
    rewrite IH; [reflexivity | exact Hl | discriminate | lia].
Qed.

Lemma parse_members_list (o : props) :
  Forall (fun p => forall fuel rest,
            (json_size (snd p) <= fuel)%nat -> after_value rest = true ->
            parse_value fuel (stringify_chars (snd p) ++ rest) = Some (snd p, rest)) o ->
  o <> [] ->
  forall (fuel : nat) (acc : props) (rest : list ascii),
    (fold_right (fun p n => S (json_size (snd p) + n)) O o <= fuel)%nat ->
    NoDup (keys acc ++ keys o) ->
    Forall (fun k => array_index k = None) (keys o) ->
    parse_members fuel acc (join_comma (map member_chars o) ++ "}"%char :: rest)
    = Some (acc ++ o, rest).
Proof.
  induction o as [|[k v] o IH]; intros HP Hnil fuel acc rest Hfuel Hnd Hidx;
    [contradiction|].
  inversion HP as [|? ? Hv Ho]; subst. cbn [snd] in Hv.
  cbn [keys map fst] in Hnd, Hidx. fold (keys o) in Hnd, Hidx.
  inversion Hidx as [|? ? Hk Hidx']; subst.
  apply NoDup_app_cons_notin in Hnd as [Hnotin Hnd].
  cbn [fold_right snd] in Hfuel.
  destruct fuel as [|f]; [lia|].
  destruct o as [|p2 o].
  - cbn [map join_comma]. unfold member_chars. cbn [fst snd].
    rewrite <- app_assoc. cbn [app].
    rewrite parse_members_quote.
    rewrite Hv by (cbn [fold_right] in Hfuel; first [lia | reflexivity]).
    cbv zeta. change (skip_ws ("}"%char :: ?x)) with ("}"%char :: x). cbv iota.
    rewrite define_property_plain by assumption. reflexivity.
  - change (join_comma (map member_chars ((k, v) :: p2 :: o)))
      with (member_chars (k, v) ++ ","%char :: join_comma (map member_chars (p2 :: o))).
    unfold member_chars at 1. cbn [fst snd].
    repeat (rewrite <- app_assoc; cbn [app]).
    rewrite parse_members_quote.
    rewrite Hv by (first [lia | reflexivity]).
    cbv zeta. change (skip_ws (","%char :: ?x)) with (","%char :: x). cbv iota.
    rewrite define_property_plain by assumption.
    rewrite IH; [ rewrite <- app_assoc; reflexivity | exact Ho | discriminate | lia | | exact Hidx'].
    rewrite keys_app. exact Hnd.
Qed.

Lemma plain_key_no_index (l : list string) :
  Forall plain_key l -> Forall (fun k => array_index k = None) l.
Proof.
  intros H. eapply Forall_impl; [|exact H]. intros k [Hk _]. exact Hk.
Qed.

(** [parse_value] reads back the text of a value with plain keys, with
    any fuel from the size of the value on, and leaves what follows the
    text. *)
Lemma parse_value_stringify (v : json) :
  plain_keys v ->
  forall (fuel : nat) (rest : list ascii),
    (json_size v <= fuel)%nat -> after_value rest = true ->
    parse_value fuel (stringify_chars v ++ rest) = Some (v, rest).
Proof.
  induction v as [|b|n|s|l IH|o IH] using json_induction;
    intros Hp fuel rest Hfuel Hrest;
    (destruct fuel as [|f]; [cbn [json_size] in Hfuel; lia|]).
  - reflexivity.
  - destruct b; reflexivity.
  - destruct (decimal_head n) as (c & t & Hd & Hc).
    cbn [stringify_chars]. pose proof (parse_number_decimal n rest Hrest) as Hn.
    rewrite Hd in Hn |- *. cbn [app] in Hn |- *.
    rewrite parse_value_number_head by exact Hc. rewrite Hn. reflexivity.
  - apply parse_value_quote.
  - apply all_objects_arr in Hp. cbn [stringify_chars json_size] in *.
    destruct l as [|v l]; [reflexivity|].
    destruct (stringify_head v) as (c & t & Hs & Hws & Hc & _).
    assert (HP : Forall (fun v => forall fuel rest,
                           (json_size v <= fuel)%nat -> after_value rest = true ->
                           parse_value fuel (stringify_chars v ++ rest) = Some (v, rest))
                        (v :: l)).
    { rewrite Forall_forall in IH, Hp |- *. intros x Hx fuel' rest' Hf' Hr'.
      apply IH; [exact Hx | apply Hp; exact Hx | exact Hf' | exact Hr']. }
    pose proof (parse_elements_list (v :: l) HP ltac:(discriminate) f rest ltac:(lia))
      as He.
    cbn [app]. rewrite <- app_assoc. cbn [app].
    assert (Hhead : exists t', join_comma (map stringify_chars (v :: l))
                               ++ "]"%char :: rest = c :: t').
    { cbn [map join_comma]. rewrite Hs. destruct (map stringify_chars l); eexists; reflexivity. }
    destruct Hhead as [t' Ht']. rewrite Ht' in He |- *.
    rewrite parse_value_array_head by assumption. rewrite He. reflexivity.
  - apply all_objects_obj in Hp as [[Hnd Hplain] Hvals].
    cbn [stringify_chars json_size] in *.
    destruct o as [|[k v] o]; [reflexivity|].
    assert (HP : Forall (fun p => forall fuel rest,
                           (json_size (snd p) <= fuel)%nat -> after_value rest = true ->
                           parse_value fuel (stringify_chars (snd p) ++ rest)
                           = Some (snd p, rest))
                        ((k, v) :: o)).
    { rewrite Forall_forall in IH, Hvals |- *. intros x Hx fuel' rest' Hf' Hr'.
      apply IH; [exact Hx | apply Hvals; exact Hx | exact Hf' | exact Hr']. }
    pose proof (parse_members_list ((k, v) :: o) HP ltac:(discriminate) f [] rest
                  ltac:(lia) Hnd (plain_key_no_index _ Hplain)) as Hm.
    cbn [app]. rewrite <- app_assoc. cbn [app].
    change (map (fun p => quote (fst p) ++ ":"%char :: stringify_chars (snd p)) ((k, v) :: o))
      with (map member_chars ((k, v) :: o)).
    assert (Hhead : exists t', join_comma (map member_chars ((k, v) :: o))
                               ++ "}"%char :: rest = dquote :: t').
    { cbn [map join_comma].
      destruct (map member_chars o) as [|m ms]; unfold member_chars, quote;
        cbn [fst app]; eexists; reflexivity. }
    destruct Hhead as [t' Ht']. rewrite Ht' in Hm |- *.
    rewrite parse_value_object_head. rewrite Hm. reflexivity.
Qed.

(** The text of a value is at least as long as the value is large. *)
Lemma json_size_text (v : json) : (json_size v <= List.length (stringify_chars v))%nat.
Proof.
  induction v as [|b|n|s|l IH|o IH] using json_induction.
  - cbn. lia.
  - destruct b; cbn; lia.
  - destruct (decimal_head n) as (c & t & Hd & _). cbn [stringify_chars json_size].
    rewrite Hd. cbn [List.length]. lia.
  - cbn [stringify_chars json_size]. pose proof (quote_length s). lia.
  - cbn [stringify_chars json_size List.length]. rewrite length_app. cbn [List.length].
    assert (H : (fold_right (fun x n => S (json_size x + n)) O l
                 <= List.length (join_comma (map stringify_chars l)) + 1)%nat).
    { induction l as [|v l IHl]; [cbn; lia|].
      inversion IH as [|? ? Hv Hl]; subst. specialize (IHl Hl).
      destruct l as [|v2 l].
      - cbn [fold_right map join_comma]. lia.
      - change (join_comma (map stringify_chars (v :: v2 :: l)))
          with (stringify_chars v ++ ","%char :: join_comma (map stringify_chars (v2 :: l))).
        rewrite length_app. cbn [List.length fold_right] in *. lia. }
    lia.
  - cbn [stringify_chars json_size List.length]. rewrite length_app. cbn [List.length].
    change (map (fun p => quote (fst p) ++ ":"%char :: stringify_chars (snd p)) o)
      with (map member_chars o).
    assert (H : (fold_right (fun p n => S (json_size (snd p) + n)) O o
                 <= List.length (join_comma (map member_chars o)) + 1)%nat).
    { induction o as [|p o IHo]; [cbn; lia|].
      inversion IH as [|? ? Hv Hl]; subst. specialize (IHo Hl).
      assert (Hm : (json_size (snd p) + 3 <= List.length (member_chars p))%nat).
      { unfold member_chars. rewrite length_app. cbn [List.length].
        pose proof (quote_length (fst p)). lia. }
      destruct o as [|p2 o].
      - cbn [fold_right map join_comma]. lia.
      - change (join_comma (map member_chars (p :: p2 :: o)))
          with (member_chars p ++ ","%char :: join_comma (map member_chars (p2 :: o))).
        rewrite length_app. cbn [List.length fold_right] in *. lia. }
    lia.
Qed.

(** [JSON.parse] after [JSON.stringify] on a value with plain keys. *)
Lemma JSON_parse_stringify (v : json) :
  plain_keys v -> JSON_parse (JSON_stringify v) = Ok v.
Proof.
  intros Hp. unfold JSON_parse, JSON_stringify, chars.
  rewrite list_ascii_of_string_of_list_ascii.
  pose proof (parse_value_stringify v Hp
                (2 * List.length (stringify_chars v) + 2) []) as H.
  rewrite app_nil_r in H. rewrite H; [reflexivity | | reflexivity].
  pose proof (json_size_text v). lia.
Qed.

(** ** The canonical text read back *)

Lemma ltb_leb (a b : string) : String.ltb a b = true -> String.leb a b = true.
Proof.
  unfold String.ltb, String.leb. destruct (String.compare a b); congruence.
Qed.

(** Sorting keys that are already in increasing order changes nothing. *)
Lemma sort_increasing_id (l : list string) : increasing l -> sort l = l.
Proof.
  unfold increasing. induction l as [|a l IH]; intros H; [reflexivity|].
  apply Sorted_inv in H as [Hs Hhd]. cbn [sort fold_right]. fold (sort l).
  rewrite (IH Hs). destruct l as [|h t]; [reflexivity|].
  apply HdRel_inv in Hhd. cbn [insert_sorted]. rewrite (ltb_leb _ _ Hhd). reflexivity.
Qed.

Lemma sortKeys_plain_keys (v : json) : plain_keys v -> plain_keys (sortKeys v).
Proof.
  induction v as [|x|n|s|l IH|o IH] using json_induction; intros Hp;
    [constructor | constructor | constructor | constructor | |].
  - apply all_objects_arr in Hp. cbn [sortKeys]. constructor.
    induction l as [|x l IHl]; [constructor|].
    inversion IH as [|? ? IHx IHl']; subst. inversion Hp as [|? ? Hx Hl]; subst.
    cbn [map]. constructor; [exact (IHx Hx) | exact (IHl IHl' Hl)].
  - apply all_objects_obj in Hp as [[Hnd Hplain] Hvals].
    rewrite sortKeys_obj_plain by assumption.
    constructor.
    + rewrite keys_pick. split.
      * eapply Permutation_NoDup; [symmetry; apply sort_perm | exact Hnd].
      * eapply Permutation_Forall; [symmetry; apply sort_perm | exact Hplain].
    + apply Forall_forall. intros [k v] Hin. cbn [snd].
      unfold pick in Hin. apply in_map_iff in Hin as (k' & Heq & _).
      inversion Heq; subst. unfold value_of.
      destruct (obj_get (rewritten o) k) as [v|] eqn:E; [|constructor].
      apply obj_get_In, rewritten_In in E as (p & Hin & _ & ->).
      rewrite Forall_forall in IH, Hvals. apply IH; [exact Hin | apply Hvals; exact Hin].
Qed.

(** A value whose objects list plain keys in increasing order is its own
    canonical form. *)
Lemma sortKeys_sorted_id (v : json) : plain_keys v -> keys_sorted v -> sortKeys v = v.
Proof.
  induction v as [|x|n|s|l IH|o IH] using json_induction; intros Hp Hs;
    try reflexivity.
  - apply all_objects_arr in Hp. apply all_objects_arr in Hs. cbn [sortKeys]. f_equal.
    induction l as [|x l IHl]; [reflexivity|].
    inversion IH as [|? ? IHx IHl']; subst. inversion Hp as [|? ? Hx Hl]; subst.
    inversion Hs as [|? ? Hsx Hsl]; subst.
    cbn [map]. rewrite (IHx Hx Hsx), (IHl IHl' Hl Hsl). reflexivity.
  - apply all_objects_obj in Hp as [[Hnd Hplain] Hvals].
    apply all_objects_obj in Hs as [Hinc Hsvals].
    rewrite sortKeys_obj_plain by assumption.
    rewrite (sort_increasing_id _ Hinc).
    assert (Hrw : rewritten o = o).
    { unfold rewritten. rewrite <- (map_id o) at 2. apply map_ext_in.
      intros [k v] Hin. cbn [fst snd]. f_equal.
      rewrite Forall_forall in IH, Hvals, Hsvals.
      exact (IH _ Hin (Hvals _ Hin) (Hsvals _ Hin)). }
    rewrite Hrw, pick_keys by assumption. reflexivity.
Qed.

Lemma sortKeys_idempotent (v : json) : plain_keys v -> sortKeys (sortKeys v) = sortKeys v.
Proof.
  intros Hp. apply sortKeys_sorted_id.
  - apply sortKeys_plain_keys. exact Hp.
  - apply sortKeys_keys_sorted. exact Hp.
Qed.

Lemma JSON_parse_canonicalJSON (v : json) :
  plain_keys v -> JSON_parse (canonicalJSON v) = Ok (sortKeys v).
Proof.
  intros Hp. unfold canonicalJSON. apply JSON_parse_stringify.
  apply sortKeys_plain_keys. exact Hp.
Qed.





(** X12: the canonical text determines the contents: two values with
    plain keys and the same canonical text have the same sorted form,
    which has the contents of each of them. *)
Theorem canonicalJSON_injective :
  forall a b : json,
    plain_keys a -> plain_keys b ->
    canonicalJSON a = canonicalJSON b ->
    sortKeys a = sortKeys b
    /\ same_contents (sortKeys a) a /\ same_contents (sortKeys a) b.
Proof.
  intros a b Ha Hb Heq.
  assert (Hs : sortKeys a = sortKeys b).
  { pose proof (JSON_parse_canonicalJSON a Ha) as H1.
    pose proof (JSON_parse_canonicalJSON b Hb) as H2.
    rewrite Heq in H1. congruence. }
  assert (Hown : forall v, plain_keys v -> own_keys v).
  { intros v Hv. unfold plain_keys, own_keys in *.
    induction v as [|x|n|s|l IH|o IH] using json_induction;
      [constructor | constructor | constructor | constructor | |].
    - apply all_objects_arr in Hv. constructor.
      rewrite Forall_forall in IH, Hv |- *. intros x Hx. apply IH; auto.
    - apply all_objects_obj in Hv as [[Hnd Hplain] Hvals]. constructor.
      + split; [exact Hnd|]. eapply Forall_impl; [|exact Hplain].
        intros k [_ Hk]. exact Hk.
      + rewrite Forall_forall in IH, Hvals |- *. intros x Hx. apply IH; auto. }
  split; [exact Hs | split].
  - apply sortKeys_keeps_contents, Hown, Ha.
  - rewrite Hs. apply sortKeys_keeps_contents, Hown, Hb.
Qed.

Lemma canonicalJSON_injective_witness :
  sortKeys input_first = sortKeys claims_first
  /\ same_contents (sortKeys input_first) input_first
  /\ same_contents (sortKeys input_first) claims_first.
Proof.
  apply (canonicalJSON_injective input_first claims_first).
  - repeat constructor; cbn; intuition discriminate.
  - repeat constructor; cbn; intuition discriminate.
  - vm_compute. reflexivity.
Defined.

(** ** Stamping, then verifying *)

Lemma string_app_inj_l (a b c : string) : (a ++ b = a ++ c)%string -> b = c.
Proof.
  induction a as [|x a IH]; cbn [String.append]; intros H; [exact H|].
  apply IH. congruence.
Qed.

Lemma chars_string_of_list (l : list ascii) : chars (string_of_list_ascii l) = l.
Proof. apply list_ascii_of_string_of_list_ascii. Qed.

(** The media type createManifest writes is the one of the dispatcher of
    the embedder, with [video/mp4] where the dispatcher knows none. *)
Lemma media_type_agrees (videoPath : string) :
  (if String.eqb
        match toLowerCase (last_segment (chars videoPath) []) with
        | [] => "mp4"
        | e => string_of_list_ascii e
        end "webm"
   then "video/webm" else "video/mp4")
  = media_type_label videoPath.
Proof.
  unfold media_type_label, getMediaType.
  destruct (toLowerCase (last_segment (chars videoPath) [])) as [|c t]; [reflexivity|].
  destruct (String.eqb (string_of_list_ascii (c :: t)) "webm") eqn:Ew.
  - apply String.eqb_eq in Ew. rewrite Ew. reflexivity.
  - destruct (String.eqb (string_of_list_ascii (c :: t)) "mp4"); reflexivity.
Qed.

Lemma manifest_literal_plain (provider : Provider) (keyText operation : string)
    (model : Model) (created_utc : string) (inputHash : option string)
    (outputHash mediaType nonce : string) :
  plain_keys (manifest_literal provider keyText operation model created_utc
                inputHash outputHash mediaType nonce).
Proof.
  unfold manifest_literal, plain_keys.
  destruct (String.eqb operation "ai_generated"); destruct inputHash;
    repeat constructor; cbn [In keys map fst]; intuition discriminate.
Qed.

Lemma manifest_literal_sorted_lookup (provider : Provider) (keyText operation : string)
    (model : Model) (created_utc : string) (inputHash : option string)
    (outputHash mediaType nonce : string) :
  let m := sortKeys (manifest_literal provider keyText operation model created_utc
                       inputHash outputHash mediaType nonce) in
  get_prop (Some m) "provider"
  = Ok (Some (JObj [("id", JStr (provider_id provider));
                    ("name", JStr (provider_name provider));
                    ("public_key", JStr keyText)]))
  /\ get_prop (Some m) "output"
     = Ok (Some (JObj [("hash", JStr outputHash); ("media_type", JStr mediaType)])).
Proof.
  unfold manifest_literal.
  destruct (String.eqb operation "ai_generated"); destruct inputHash;
    split; reflexivity.
Qed.

(** The extractors read the file of the asset only. *)
Lemma extractMetadata_ext (f1 f2 : fs) (videoPath : string) :
  f1 videoPath = f2 videoPath ->
  extractMetadata f1 videoPath = extractMetadata f2 videoPath.
Proof.
  intros H. unfold extractMetadata, extractMetadataMP4, extractMetadataWebM,
              existsSync, readFileSync.
  rewrite H. reflexivity.
Qed.

Section StampProperties.

Variable KeyObject : Type.
Variable createPublicKey : string -> result KeyObject.
Variable crypto_verify : Buffer -> KeyObject -> Buffer -> result bool.
Variable sha256_hex : Buffer -> string.
Variable Buffer_from_object : json -> result Buffer.
Variable basename : string -> string -> string.
Variable dirname : string -> string.
Variable join : string -> string -> string.
Variable export_public_pem : string -> result string.
Variable crypto_sign : Buffer -> string -> result Buffer.
Variable randomBytes16 : Buffer.
Variable toISOString_now : string.

Local Abbreviation verifyManifest :=
  (Verify.verifyManifest KeyObject createPublicKey crypto_verify sha256_hex
     Buffer_from_object basename dirname join).
Local Abbreviation verify_resolved :=
  (Verify.verify_resolved KeyObject createPublicKey crypto_verify sha256_hex
     Buffer_from_object).
Local Abbreviation check_signature :=
  (Verify.check_signature KeyObject createPublicKey crypto_verify Buffer_from_object).
Local Abbreviation check_hash := (Verify.check_hash sha256_hex).
Local Abbreviation getSidecarPaths := (Verify.getSidecarPaths basename dirname join).
Local Abbreviation createManifest :=
  (Stamp.createManifest sha256_hex export_public_pem crypto_sign randomBytes16
     toISOString_now).
Local Abbreviation saveSidecarFiles := (Stamp.saveSidecarFiles basename dirname join).
Local Abbreviation generateNonce := (Stamp.generateNonce randomBytes16).

(** What a successful call of createManifest has done. *)
Lemma createManifest_inv (f : fs) (videoPath operation : string)
    (provider : Provider) (model : Model) (privateKey : string)
    (inputHash : option string) (m : json) (s : string) :
  createManifest f videoPath operation provider model privateKey inputHash = Ok (m, s) ->
  exists (content : Buffer) (keyText : string) (sig : Buffer),
    f videoPath = Some content
    /\ provider_key_text export_public_pem provider privateKey = Ok keyText
    /\ m = manifest_literal provider keyText operation model toISOString_now inputHash
             ("sha256:" ++ sha256_hex content) (media_type_label videoPath)
             generateNonce
    /\ crypto_sign (from_string (canonicalJSON m)) privateKey = Ok sig
    /\ s = string_of_list_ascii (Base64.encode sig).
Proof.
  unfold Stamp.createManifest, computeFileHash, readFileSync, bind.
  destruct (f videoPath) as [content|] eqn:Hf; [|discriminate].
  fold (provider_key_text export_public_pem provider privateKey).
  destruct (provider_key_text export_public_pem provider privateKey) as [keyText|] eqn:Hk;
    [|discriminate].
  cbv zeta. rewrite media_type_agrees.
  fold (manifest_literal provider keyText operation model toISOString_now inputHash
          ("sha256:" ++ sha256_hex content) (media_type_label videoPath)
          generateNonce).
  unfold signManifest, bind.
  destruct (crypto_sign _ privateKey) as [sig|] eqn:Hs; [|discriminate].
  intros H. exists content, keyText, sig.
  split; [reflexivity|]. split; [reflexivity|].
  assert (Hm : m = manifest_literal provider keyText operation model toISOString_now
                     inputHash ("sha256:" ++ sha256_hex content)
                     (media_type_label videoPath) generateNonce) by congruence.
  split; [exact Hm|]. split; [rewrite Hm; exact Hs | congruence].
Qed.

(** The signature check on the sorted form of a manifest of
    createManifest and the signature text that came with it. *)
Lemma check_signature_stamped (provider : Provider) (keyText operation : string)
    (model : Model) (created_utc : string) (inputHash : option string)
    (outputHash mediaType nonce privateKey source : string) (sig : Buffer) :
  let m := manifest_literal provider keyText operation model created_utc inputHash
             outputHash mediaType nonce in
  verifies_for createPublicKey crypto_sign crypto_verify privateKey keyText ->
  crypto_sign (from_string (canonicalJSON m)) privateKey = Ok sig ->
  check_signature
    (mkResolved (sortKeys m) (Some (JStr (string_of_list_ascii (Base64.encode sig))))
       source)
  = Ok true.
Proof.
  intros m (K & HK & Hver) Hsig.
  destruct (manifest_literal_sorted_lookup provider keyText operation model created_utc
              inputHash outputHash mediaType nonce) as [Hprov _].
  fold m in Hprov.
  unfold Verify.check_signature, bind. cbn [r_manifest r_signature].
  rewrite Hprov. cbn [get_prop obj_get String.eqb Ascii.eqb Bool.eqb].
  cbn [Buffer_from_base64]. rewrite HK.
  rewrite chars_string_of_list, decode_encode.
  unfold canonicalJSON at 1.
  rewrite sortKeys_idempotent by apply manifest_literal_plain.
  fold (canonicalJSON m). apply Hver. exact Hsig.
Qed.

(** The hash check on it, against a file. *)
Lemma check_hash_stamped (f : fs) (videoPath : string) (content : Buffer)
    (provider : Provider) (keyText operation : string)
    (model : Model) (created_utc : string) (inputHash : option string)
    (outputHash mediaType nonce source : string) (sg : option json) :
  f videoPath = Some content ->
  check_hash f videoPath
    (mkResolved (sortKeys (manifest_literal provider keyText operation model created_utc
                             inputHash outputHash mediaType nonce)) sg source)
  = Ok (String.eqb ("sha256:" ++ sha256_hex content) outputHash).
Proof.
  intros Hf.
  destruct (manifest_literal_sorted_lookup provider keyText operation model created_utc
              inputHash outputHash mediaType nonce) as [_ Hout].
  unfold Verify.check_hash, computeFileHash, readFileSync, bind. rewrite Hf.
  cbn [r_manifest]. rewrite Hout. reflexivity.
Qed.

Lemma getSidecarPaths_distinct (videoPath : string) :
  fst (getSidecarPaths videoPath) <> snd (getSidecarPaths videoPath).
Proof.
  unfold Verify.getSidecarPaths. cbn [fst snd]. intros H.
  apply string_app_inj_l in H. discriminate H.
Qed.

Lemma saveSidecarFiles_files (f : fs) (videoPath : string) (m : json) (s : string) :
  let f' := saveSidecarFiles f videoPath m s in
  f' (fst (getSidecarPaths videoPath)) = Some (from_string (canonicalJSON m))
  /\ f' (snd (getSidecarPaths videoPath)) = Some (from_string s)
  /\ forall q, q <> fst (getSidecarPaths videoPath) ->
               q <> snd (getSidecarPaths videoPath) -> f' q = f q.
Proof.
  pose proof (getSidecarPaths_distinct videoPath) as Hd.
  unfold Stamp.saveSidecarFiles.
  destruct (getSidecarPaths videoPath) as [mp sp] eqn:Hp. cbn [fst snd] in *.
  unfold writeFileSync. split; [|split].
  - rewrite (proj2 (String.eqb_neq mp sp) Hd), String.eqb_refl. reflexivity.
  - rewrite String.eqb_refl. reflexivity.
  - intros q H1 H2.
    rewrite (proj2 (String.eqb_neq q sp) H2), (proj2 (String.eqb_neq q mp) H1).
    reflexivity.
Qed.

(** X13: when createManifest succeeds, the manifest has distinct plain
    keys; its output.media_type is [video/webm] exactly when the
    extension of the path, in any case, is [webm], and [video/mp4] for
    every other path, also one the embedder refuses as unsupported; its
    output.hash is the digest computeFileHash gives for the file; its
    claims are the operation alone when the operation is
    [ai_generated], and [ai_transformed] alone for every other
    operation string; its input.hash is the argument as it was given,
    or null; and the signature is the Base64 text of the platform's
    signature over the canonical text of the manifest.  It throws when
    the file is missing. *)
Theorem createManifest_fields :
  forall (f : fs) (videoPath operation : string) (provider : Provider) (model : Model)
         (privateKey : string) (inputHash : option string),
    (forall (m : json) (s : string),
        createManifest f videoPath operation provider model privateKey inputHash
        = Ok (m, s) ->
        plain_keys m
        /\ field2 m "output" "media_type" = Some (JStr (media_type_label videoPath))
        /\ (exists h, computeFileHash sha256_hex f videoPath = Ok h
                      /\ field2 m "output" "hash" = Some (JStr h))
        /\ field m "claims"
           = Some (JArr [JStr (if String.eqb operation "ai_generated"
                               then "ai_generated" else "ai_transformed")])
        /\ field m "operation" = Some (JStr operation)
        /\ field2 m "input" "hash"
           = Some (match inputHash with Some h => JStr h | None => JNull end)
        /\ exists sig, crypto_sign (from_string (canonicalJSON m)) privateKey = Ok sig
                       /\ s = string_of_list_ascii (Base64.encode sig))
    /\ (f videoPath = None ->
        createManifest f videoPath operation provider model privateKey inputHash
        = Throw "ENOENT").
Proof.
  intros f videoPath operation provider model privateKey inputHash. split.
  - intros m s H.
    apply createManifest_inv in H as (content & keyText & sig & Hf & Hk & Hm & Hs & Hsig).
    split; [rewrite Hm; apply manifest_literal_plain|].
    split; [rewrite Hm; reflexivity|].
    split.
    { exists ("sha256:" ++ sha256_hex content)%string. split.
      - unfold computeFileHash, readFileSync, bind. rewrite Hf. reflexivity.
      - rewrite Hm. reflexivity. }
    split.
    { rewrite Hm. unfold manifest_literal, field. cbn [obj_get String.eqb Ascii.eqb Bool.eqb].
      destruct (String.eqb operation "ai_generated"); reflexivity. }
    split; [rewrite Hm; reflexivity|].
    split; [rewrite Hm; reflexivity|].
    exists sig. split; assumption.
  - intros Hf. unfold Stamp.createManifest, computeFileHash, readFileSync, bind.
    rewrite Hf. reflexivity.
Qed.

(** X14: what the stamper writes as Base64 text the verifier decodes to
    the same bytes: the key text of extractPublicKey decodes to the PEM
    text that was exported, and the signature text of signManifest
    decodes to the signature the platform made over the bytes of the
    manifest text. *)
Theorem stamped_texts_decode :
  (forall privateKey keyText : string,
      extractPublicKey export_public_pem privateKey = Ok keyText ->
      exists pem, export_public_pem privateKey = Ok pem
                  /\ Buffer_from_base64 Buffer_from_object (Some (JStr keyText))
                     = Ok (from_string pem))
  /\ (forall manifestJson privateKey s : string,
        signManifest crypto_sign manifestJson privateKey = Ok s ->
        exists sig, crypto_sign (from_string manifestJson) privateKey = Ok sig
                    /\ Buffer_from_base64 Buffer_from_object (Some (JStr s)) = Ok sig).
Proof.
  split.
  - intros privateKey keyText H. unfold extractPublicKey in H.
    destruct (export_public_pem privateKey) as [pem|] eqn:E; [|discriminate].
    exists pem. split; [reflexivity|].
    assert (Hk : keyText = string_of_list_ascii (Base64.encode (from_string pem)))
      by congruence.
    rewrite Hk. cbn [Buffer_from_base64].
    rewrite chars_string_of_list, decode_encode. reflexivity.
  - intros manifestJson privateKey s H. unfold signManifest, bind in H.
    destruct (crypto_sign (from_string manifestJson) privateKey) as [sig|] eqn:E;
      [|discriminate].
    exists sig. split; [reflexivity|].
    assert (Hs : s = string_of_list_ascii (Base64.encode sig)) by congruence.
    rewrite Hs. cbn [Buffer_from_base64].
    rewrite chars_string_of_list, decode_encode. reflexivity.
Qed.

(** X15: saveSidecarFiles writes two files with different names, the
    canonical text of the manifest and the signature text, and changes
    no other path; from these two files the verifier resolves the
    manifest with its keys sorted and the signature text as it was
    saved, when the manifest has plain keys and the asset carries no
    embedded manifest. *)
Theorem saveSidecarFiles_writes_two_files :
  forall (f : fs) (videoPath : string) (m : json) (s : string),
    let f' := saveSidecarFiles f videoPath m s in
    let manifestPath := fst (getSidecarPaths videoPath) in
    let signaturePath := snd (getSidecarPaths videoPath) in
    manifestPath <> signaturePath
    /\ f' manifestPath = Some (from_string (canonicalJSON m))
    /\ f' signaturePath = Some (from_string s)
    /\ (forall q, q <> manifestPath -> q <> signaturePath -> f' q = f q)
    /\ (plain_keys m ->
        Verify.resolve_sidecar basename dirname join f' videoPath None None
        = inr (mkResolved (sortKeys m) (Some (JStr s)) "sidecar files")).
Proof.
  intros f videoPath m s f' manifestPath signaturePath.
  destruct (saveSidecarFiles_files f videoPath m s) as (Hm & Hs & Hother).
  fold f' in Hm, Hs, Hother. fold manifestPath in Hm, Hother.
  fold signaturePath in Hs, Hother.
  split; [apply getSidecarPaths_distinct|].
  split; [exact Hm|]. split; [exact Hs|]. split; [exact Hother|].
  intros Hp. unfold Verify.resolve_sidecar, sidecar_paths.
  fold manifestPath signaturePath.
  unfold existsSync, readFileSync, bind. rewrite Hm, Hs. cbn [negb].
  rewrite !to_string_from_string, JSON_parse_canonicalJSON by exact Hp.
  reflexivity.
Qed.

(** X16: stamping and then verifying gives VALID: after createManifest
    and saveSidecarFiles on an asset without embedded manifest, whose
    sidecar paths are not the path of the asset, verifyManifest returns
    VALID from the sidecar files, provided the key text in the manifest
    decodes to a key under which the platform accepts the signatures
    made with the private key.  The paths may be left out or given as
    the sidecar paths. *)
Theorem stamp_then_verify_is_valid :
  forall (f : fs) (videoPath operation : string) (provider : Provider) (model : Model)
         (privateKey : string) (inputHash : option string) (m : json) (s : string)
         (manifestPath signaturePath : option string),
    createManifest f videoPath operation provider model privateKey inputHash
    = Ok (m, s) ->
    extractMetadata f videoPath = Ok None ->
    fst (getSidecarPaths videoPath) <> videoPath ->
    snd (getSidecarPaths videoPath) <> videoPath ->
    Verify.sidecar_paths basename dirname join videoPath manifestPath signaturePath
    = getSidecarPaths videoPath ->
    (forall keyText,
        provider_key_text export_public_pem provider privateKey = Ok keyText ->
        verifies_for createPublicKey crypto_sign crypto_verify privateKey keyText) ->
    verifyManifest (saveSidecarFiles f videoPath m s) videoPath
                   manifestPath signaturePath
    = mkVerdict VALID "Provenance verified successfully (from sidecar files)".
Proof.
  intros f videoPath operation provider model privateKey inputHash m s
         manifestPath signaturePath Hc Hnone Hmp Hsp Hpaths Hkey.
  apply createManifest_inv in Hc as (content & keyText & sig & Hf & Hk & Hm & Hs & Hsig).
  specialize (Hkey keyText Hk).
  destruct (saveSidecarFiles_files f videoPath m s) as (Hfm & Hfs & Hother).
  set (f' := saveSidecarFiles f videoPath m s) in *.
  assert (Hv : f' videoPath = Some content).
  { rewrite Hother; [exact Hf | congruence | congruence]. }
  unfold Verify.verifyManifest, existsSync. rewrite Hv. cbn [negb].
  unfold Verify.resolve.
  rewrite resolve_embedded_none.
  2:{ rewrite (extractMetadata_ext f' f videoPath); [exact Hnone | congruence]. }
  unfold Verify.resolve_sidecar. rewrite Hpaths.
  unfold existsSync, readFileSync, bind. rewrite Hfm, Hfs. cbn [negb].
  rewrite !to_string_from_string.
  rewrite JSON_parse_canonicalJSON by (rewrite Hm; apply manifest_literal_plain).
  unfold Verify.verify_resolved, bind.
  rewrite Hsig, Hm.
  erewrite check_signature_stamped; [| exact Hkey | rewrite <- Hm; exact Hs].
  cbn [negb].
  rewrite (check_hash_stamped f' videoPath content) by exact Hv.
  rewrite String.eqb_refl. reflexivity.
Qed.

(** X17: after such a stamp, replacing the bytes of the asset by bytes
    with another digest gives INVALID with the hash mismatch message,
    as long as the new bytes carry no embedded manifest. *)
Theorem stamp_then_alter_is_invalid :
  forall (f : fs) (videoPath operation : string) (provider : Provider) (model : Model)
         (privateKey : string) (inputHash : option string) (m : json) (s : string)
         (content altered : Buffer),
    createManifest f videoPath operation provider model privateKey inputHash
    = Ok (m, s) ->
    f videoPath = Some content ->
    sha256_hex altered <> sha256_hex content ->
    extractMetadata (writeFileSync f videoPath altered) videoPath = Ok None ->
    fst (getSidecarPaths videoPath) <> videoPath ->
    snd (getSidecarPaths videoPath) <> videoPath ->
    (forall keyText,
        provider_key_text export_public_pem provider privateKey = Ok keyText ->
        verifies_for createPublicKey crypto_sign crypto_verify privateKey keyText) ->
    verifyManifest
      (writeFileSync (saveSidecarFiles f videoPath m s) videoPath altered)
      videoPath None None
    = mkVerdict INVALID "File hash mismatch - file may have been modified".
Proof.
  intros f videoPath operation provider model privateKey inputHash m s content altered
         Hc Hf Hsha Hnone Hmp Hsp Hkey.
  apply createManifest_inv in Hc as (content' & keyText & sig & Hf' & Hk & Hm & Hs & Hsig).
  assert (content' = content) by congruence. subst content'.
  specialize (Hkey keyText Hk).
  destruct (saveSidecarFiles_files f videoPath m s) as (Hfm & Hfs & Hother).
  set (f' := writeFileSync (saveSidecarFiles f videoPath m s) videoPath altered).
  assert (Hv : f' videoPath = Some altered).
  { unfold f', writeFileSync. rewrite String.eqb_refl. reflexivity. }
  assert (Hfm' : f' (fst (getSidecarPaths videoPath))
                 = Some (from_string (canonicalJSON m))).
  { unfold f', writeFileSync. rewrite (proj2 (String.eqb_neq _ _) Hmp). exact Hfm. }
  assert (Hfs' : f' (snd (getSidecarPaths videoPath)) = Some (from_string s)).
  { unfold f', writeFileSync. rewrite (proj2 (String.eqb_neq _ _) Hsp). exact Hfs. }
  unfold Verify.verifyManifest, existsSync. rewrite Hv. cbn [negb].
  unfold Verify.resolve.
  rewrite resolve_embedded_none.
  2:{ rewrite (extractMetadata_ext f' (writeFileSync f videoPath altered) videoPath);
        [exact Hnone|].
      rewrite Hv. unfold writeFileSync. rewrite String.eqb_refl. reflexivity. }
  unfold Verify.resolve_sidecar, sidecar_paths.
  unfold existsSync, readFileSync, bind. rewrite Hfm', Hfs'. cbn [negb].
  rewrite !to_string_from_string.
  rewrite JSON_parse_canonicalJSON by (rewrite Hm; apply manifest_literal_plain).
  unfold Verify.verify_resolved, bind.
  rewrite Hsig, Hm.
  erewrite check_signature_stamped; [| exact Hkey | rewrite <- Hm; exact Hs].
  cbn [negb].
  rewrite (check_hash_stamped f' videoPath altered) by exact Hv.
  replace (String.eqb ("sha256:" ++ sha256_hex altered) ("sha256:" ++ sha256_hex content))
    with false; [reflexivity|].
  symmetry. apply String.eqb_neq. intros H. apply string_app_inj_l in H. contradiction.
Qed.

(** X18: embedding the stamp in the WebM file it was made for makes the
    file fail verification: after createManifest on a [.webm] asset and
    embedMetadata of the canonical text and the signature into that
    asset, verifyManifest resolves the embedded manifest, accepts its
    signature, and returns INVALID with the hash mismatch message,
    because the manifest holds the digest of the bytes before the
    marker was appended; this holds whatever sidecar paths are passed
    and whatever else the file system holds, whenever the digest of the
    file with the marker differs from the digest without it. *)
Theorem webm_embed_after_stamp_is_invalid :
  forall (f : fs) (videoPath operation : string) (provider : Provider) (model : Model)
         (privateKey : string) (inputHash : option string) (m : json) (s : string)
         (content : Buffer) (manifestPath signaturePath : option string),
    createManifest f videoPath operation provider model privateKey inputHash
    = Ok (m, s) ->
    f videoPath = Some content ->
    getMediaType videoPath = Some webm ->
    sha256_hex (content ++ webm_tag (canonicalJSON m) s) <> sha256_hex content ->
    (forall keyText,
        provider_key_text export_public_pem provider privateKey = Ok keyText ->
        verifies_for createPublicKey crypto_sign crypto_verify privateKey keyText) ->
    fst (embedMetadata f videoPath (canonicalJSON m) s) = Ok tt
    /\ verifyManifest (snd (embedMetadata f videoPath (canonicalJSON m) s)) videoPath
                      manifestPath signaturePath
       = mkVerdict INVALID "File hash mismatch - file may have been modified".
Proof.
  intros f videoPath operation provider model privateKey inputHash m s content
         manifestPath signaturePath Hc Hf Hwebm Hsha Hkey.
  apply createManifest_inv in Hc as (content' & keyText & sig & Hf' & Hk & Hm & Hs & Hsig).
  assert (content' = content) by congruence. subst content'.
  specialize (Hkey keyText Hk).
  unfold embedMetadata. rewrite Hwebm.
  unfold embedMetadataWebM, readFileSync. rewrite Hf. cbn [fst snd].
  split; [reflexivity|].
  set (f1 := writeFileSync f videoPath (content ++ webm_tag (canonicalJSON m) s)).
  assert (Hv : f1 videoPath = Some (content ++ webm_tag (canonicalJSON m) s)).
  { unfold f1, writeFileSync. rewrite String.eqb_refl. reflexivity. }
  unfold Verify.verifyManifest, existsSync. rewrite Hv. cbn [negb].
  unfold Verify.resolve, resolve_embedded, extractMetadata. rewrite Hwebm.
  unfold extractMetadataWebM, existsSync, readFileSync, bind. rewrite Hv. cbn [negb].
  rewrite extractWebM_buffer_webm_tag.
  cbn [embedded manifest signature ToString_opt ToString].
  unfold chars. rewrite string_of_list_ascii_of_string.
  rewrite JSON_parse_canonicalJSON by (rewrite Hm; apply manifest_literal_plain).
  unfold Verify.verify_resolved, bind.
  rewrite Hsig, Hm.
  erewrite check_signature_stamped; [| exact Hkey | rewrite <- Hm; exact Hs].
  cbn [negb].
  rewrite <- Hm.
  rewrite Hm at 1.
  rewrite (check_hash_stamped f1 videoPath (content ++ webm_tag (canonicalJSON m) s))
    by exact Hv.
  replace (String.eqb ("sha256:" ++ sha256_hex (content ++ webm_tag (canonicalJSON m) s))
                      ("sha256:" ++ sha256_hex content))
    with false; [reflexivity|].
  symmetry. apply String.eqb_neq. intros H. apply string_app_inj_l in H. contradiction.
Qed.

(** X19: an embedded manifest takes precedence: when the embedded
    manifest of an asset resolves, the verdict depends on the bytes of
    the asset alone; the sidecar paths passed and the contents of every
    other file, sidecar files included, do not matter. *)
Theorem embedded_manifest_takes_precedence :
  forall (f g : fs) (videoPath : string) (r : Resolved)
         (manifestPath signaturePath manifestPath' signaturePath' : option string),
    resolve_embedded f videoPath = Ok r ->
    g videoPath = f videoPath ->
    verifyManifest g videoPath manifestPath' signaturePath'
    = verifyManifest f videoPath manifestPath signaturePath.
Proof.
  intros f g videoPath r manifestPath signaturePath manifestPath' signaturePath' Hr Hg.
  assert (Hr' : resolve_embedded g videoPath = Ok r).
  { unfold resolve_embedded in *. rewrite (extractMetadata_ext g f videoPath Hg).
    exact Hr. }
  unfold Verify.verifyManifest, Verify.resolve, existsSync. rewrite Hr, Hr'.
  unfold Verify.verify_resolved, Verify.check_hash, computeFileHash, readFileSync.
  rewrite Hg. reflexivity.
Qed.

(** X20: on an asset whose embedded manifest does not resolve, and with
    the two sidecar paths given as non-empty strings, verifyManifest
    reaches the verification state that the verifier of the earlier
    version, which reads the sidecar files only, reaches on the same
    files. *)
Theorem verifyManifest_agrees_with_sidecar_only :
  forall (f : fs) (videoPath manifestPath signaturePath : string),
    (forall r, resolve_embedded f videoPath <> Ok r) ->
    manifestPath <> "" -> signaturePath <> "" ->
    result_of (verifyManifest f videoPath (Some manifestPath) (Some signaturePath))
    = result_of (SidecarOnly.verifyManifest KeyObject createPublicKey crypto_verify
                   sha256_hex Buffer_from_object f videoPath manifestPath
                   signaturePath).
Proof.
  intros f videoPath manifestPath signaturePath Hnone Hmp Hsp.
  unfold Verify.verifyManifest, SidecarOnly.verifyManifest, Verify.resolve.
  destruct (resolve_embedded f videoPath) as [r|msg] eqn:Hr;
    [exfalso; exact (Hnone r eq_refl)|].
  unfold Verify.resolve_sidecar, sidecar_paths, truthy.
  rewrite (proj2 (String.eqb_neq _ _) Hmp), (proj2 (String.eqb_neq _ _) Hsp).
  cbn [negb andb fst snd].
  unfold existsSync, readFileSync, bind.
  destruct (f videoPath) as [content|] eqn:Hv; cbn [negb].
  - destruct (f manifestPath) as [mj|]; cbn [negb]; [|reflexivity].
    destruct (f signaturePath) as [sg|]; cbn [negb]; [|reflexivity].
    destruct (JSON_parse (to_string mj)) as [manifest|e]; [|reflexivity].
    unfold Verify.verify_resolved, Verify.check_signature, Verify.check_hash, bind.
    cbn [r_manifest r_signature r_source].
    destruct (get_prop (Some manifest) "provider") as [provider|]; [|reflexivity].
    destruct (get_prop provider "public_key") as [pk|]; [|reflexivity].
    destruct (Buffer_from_base64 Buffer_from_object pk) as [kb|]; [|reflexivity].
    destruct (createPublicKey (to_string kb)) as [K|]; [|reflexivity].
    destruct (Buffer_from_base64 Buffer_from_object (Some (JStr (to_string sg))))
      as [sb|]; [|reflexivity].
    destruct (crypto_verify _ K sb) as [[|]|]; cbn [negb]; try reflexivity.
    destruct (computeFileHash sha256_hex f videoPath) as [h|]; [|reflexivity].
    destruct (get_prop (Some manifest) "output") as [output|]; [|reflexivity].
    destruct (get_prop output "hash") as [mh|]; [|reflexivity].
    destruct (same_hash h mh); reflexivity.
  - destruct (f manifestPath) as [mj|]; cbn [negb]; [|reflexivity].
    destruct (f signaturePath) as [sg|]; reflexivity.
Qed.

End StampProperties.

(** *** The same on sample files *)

Lemma toy_key_verifies (privateKey : string) :
  forall keyText : string,
    provider_key_text toy_export_public_pem toy_provider privateKey = Ok keyText ->
    verifies_for toy_createPublicKey toy_crypto_sign toy_verify privateKey keyText.
Proof.
  intros keyText H. vm_compute in H. injection H as <-.
  exists tt. split; [vm_compute; reflexivity|].
  intros data sig Hs. injection Hs as <-. unfold toy_verify.
  rewrite (proj2 (equals_true _ _) eq_refl). reflexivity.
Defined.

Lemma createManifest_fields_witness :
  field2 (stamp_manifest "clip.webm" webm_sample) "output" "media_type"
  = Some (JStr "video/webm")
  /\ field (stamp_manifest "clip.webm" webm_sample) "claims"
     = Some (JArr [JStr "ai_generated"]).
Proof.
  pose proof (proj1 (createManifest_fields toy_sha256_hex toy_export_public_pem
                       toy_crypto_sign toy_randomBytes16 toy_now
                       (fs_of "clip.webm" webm_sample) "clip.webm" "ai_generated"
                       toy_provider toy_model "PRIVATE" None)
                (stamp_manifest "clip.webm" webm_sample)
                (stamp_signature "clip.webm" webm_sample)
                ltac:(vm_compute; reflexivity)) as H.
  split.
  - exact (proj1 (proj2 H)).
  - exact (proj1 (proj2 (proj2 (proj2 H)))).
Defined.

Lemma stamped_texts_decode_witness :
  exists pem, toy_export_public_pem "PRIVATE" = Ok pem
              /\ Buffer_from_base64 toy_Buffer_from_object (Some (JStr "UEVN"))
                 = Ok (from_string pem).
Proof.
  apply (proj1 (stamped_texts_decode toy_Buffer_from_object toy_export_public_pem
                  toy_crypto_sign) "PRIVATE" "UEVN").
  vm_compute. reflexivity.
Defined.

Lemma saveSidecarFiles_writes_two_files_witness :
  Verify.resolve_sidecar toy_basename toy_dirname toy_join
    (saveSidecarFiles toy_basename toy_dirname toy_join
       (fs_of "clip.mp4" (container no_moov_boxes)) "clip.mp4" input_first "c2ln")
    "clip.mp4" None None
  = inr (mkResolved (sortKeys input_first) (Some (JStr "c2ln")) "sidecar files").
Proof.
  apply (proj2 (proj2 (proj2 (proj2
           (saveSidecarFiles_writes_two_files toy_basename toy_dirname toy_join
              (fs_of "clip.mp4" (container no_moov_boxes)) "clip.mp4" input_first
              "c2ln"))))).
  repeat constructor; cbn; intuition discriminate.
Defined.

Lemma stamp_then_verify_is_valid_witness :
  verifyManifest unit toy_createPublicKey toy_verify toy_sha256_hex
    toy_Buffer_from_object toy_basename toy_dirname toy_join
    (saveSidecarFiles toy_basename toy_dirname toy_join
       (fs_of "clip.mp4" (container no_moov_boxes)) "clip.mp4"
       (stamp_manifest "clip.mp4" (container no_moov_boxes))
       (stamp_signature "clip.mp4" (container no_moov_boxes)))
    "clip.mp4" None None
  = mkVerdict VALID "Provenance verified successfully (from sidecar files)".
Proof.
  apply (stamp_then_verify_is_valid unit toy_createPublicKey toy_verify toy_sha256_hex
           toy_Buffer_from_object toy_basename toy_dirname toy_join
           toy_export_public_pem toy_crypto_sign toy_randomBytes16 toy_now
           (fs_of "clip.mp4" (container no_moov_boxes)) "clip.mp4" "ai_generated"
           toy_provider toy_model "PRIVATE" None).
  - vm_compute. reflexivity.
  - vm_compute. reflexivity.
  - intros H. vm_compute in H. discriminate H.
  - intros H. vm_compute in H. discriminate H.
  - reflexivity.
  - apply toy_key_verifies.
Defined.

Lemma stamp_then_alter_is_invalid_witness :
  verifyManifest unit toy_createPublicKey toy_verify toy_sha256_hex
    toy_Buffer_from_object toy_basename toy_dirname toy_join
    (writeFileSync
       (saveSidecarFiles toy_basename toy_dirname toy_join
          (fs_of "clip.mp4" (container no_moov_boxes)) "clip.mp4"
          (stamp_manifest "clip.mp4" (container no_moov_boxes))
          (stamp_signature "clip.mp4" (container no_moov_boxes)))
       "clip.mp4" (container no_moov_boxes ++ bytes [0]))
    "clip.mp4" None None
  = mkVerdict INVALID "File hash mismatch - file may have been modified".
Proof.
  apply (stamp_then_alter_is_invalid unit toy_createPublicKey toy_verify toy_sha256_hex
           toy_Buffer_from_object toy_basename toy_dirname toy_join
           toy_export_public_pem toy_crypto_sign toy_randomBytes16 toy_now
           (fs_of "clip.mp4" (container no_moov_boxes)) "clip.mp4" "ai_generated"
           toy_provider toy_model "PRIVATE" None
           (stamp_manifest "clip.mp4" (container no_moov_boxes))
           (stamp_signature "clip.mp4" (container no_moov_boxes))
           (container no_moov_boxes)).
  - vm_compute. reflexivity.
  - reflexivity.
  - intros H. vm_compute in H. discriminate H.
  - vm_compute. reflexivity.
  - intros H. vm_compute in H. discriminate H.
  - intros H. vm_compute in H. discriminate H.
  - apply toy_key_verifies.
Defined.

Lemma webm_embed_after_stamp_is_invalid_witness :
  fst (embedMetadata (fs_of "clip.webm" webm_sample) "clip.webm"
         (canonicalJSON (stamp_manifest "clip.webm" webm_sample))
         (stamp_signature "clip.webm" webm_sample))
  = Ok tt
  /\ verifyManifest unit toy_createPublicKey toy_verify toy_sha256_hex
       toy_Buffer_from_object toy_basename toy_dirname toy_join
       (snd (embedMetadata (fs_of "clip.webm" webm_sample) "clip.webm"
               (canonicalJSON (stamp_manifest "clip.webm" webm_sample))
               (stamp_signature "clip.webm" webm_sample)))
       "clip.webm" None None
     = mkVerdict INVALID "File hash mismatch - file may have been modified".
Proof.
  apply (webm_embed_after_stamp_is_invalid unit toy_createPublicKey toy_verify
           toy_sha256_hex toy_Buffer_from_object toy_basename toy_dirname toy_join
           toy_export_public_pem toy_crypto_sign toy_randomBytes16 toy_now
           (fs_of "clip.webm" webm_sample) "clip.webm" "ai_generated"
           toy_provider toy_model "PRIVATE" None
           (stamp_manifest "clip.webm" webm_sample)
           (stamp_signature "clip.webm" webm_sample) webm_sample None None).
  - vm_compute. reflexivity.
  - reflexivity.
  - reflexivity.
  - intros H. vm_compute in H. discriminate H.
  - apply toy_key_verifies.
Defined.

Lemma embedded_manifest_takes_precedence_witness :
  verifyManifest unit toy_createPublicKey toy_verify toy_sha256_hex
    toy_Buffer_from_object toy_basename toy_dirname toy_join
    (writeFileSync (fs_of "clip.webm" (webm_sample ++ webm_tag "{}" "c2ln"))
       "./clip.prov.json" (from_string "{}"))
    "clip.webm" (Some "./clip.prov.json") None
  = verifyManifest unit toy_createPublicKey toy_verify toy_sha256_hex
      toy_Buffer_from_object toy_basename toy_dirname toy_join
      (fs_of "clip.webm" (webm_sample ++ webm_tag "{}" "c2ln"))
      "clip.webm" None None.
Proof.
  apply (embedded_manifest_takes_precedence unit toy_createPublicKey toy_verify
           toy_sha256_hex toy_Buffer_from_object toy_basename toy_dirname toy_join
           (fs_of "clip.webm" (webm_sample ++ webm_tag "{}" "c2ln"))
           (writeFileSync (fs_of "clip.webm" (webm_sample ++ webm_tag "{}" "c2ln"))
              "./clip.prov.json" (from_string "{}"))
           "clip.webm" (mkResolved (JObj []) (Some (JStr "c2ln")) "embedded metadata")).
  - vm_compute. reflexivity.
  - reflexivity.
Defined.

Lemma verifyManifest_agrees_with_sidecar_only_witness :
  result_of (verifyManifest unit toy_createPublicKey toy_verify toy_sha256_hex
               toy_Buffer_from_object toy_basename toy_dirname toy_join
               valid_fs "clip.mp4" (Some "./clip.prov.json") (Some "./clip.prov.sig"))
  = result_of (SidecarOnly.verifyManifest unit toy_createPublicKey toy_verify
                 toy_sha256_hex toy_Buffer_from_object
                 valid_fs "clip.mp4" "./clip.prov.json" "./clip.prov.sig").
Proof.
  apply (verifyManifest_agrees_with_sidecar_only unit toy_createPublicKey toy_verify
           toy_sha256_hex toy_Buffer_from_object toy_basename toy_dirname toy_join
           valid_fs "clip.mp4" "./clip.prov.json" "./clip.prov.sig").
  - intros r H. vm_compute in H. discriminate H.
  - discriminate.
  - discriminate.
Defined.

(** ** A sidecar manifest in another layout *)






Section ReformattedManifest.

Variable KeyObject : Type.
Variable createPublicKey : string -> result KeyObject.
Variable crypto_verify : Buffer -> KeyObject -> Buffer -> result bool.
Variable sha256_hex : Buffer -> string.
Variable Buffer_from_object : json -> result Buffer.
Variable basename : string -> string -> string.
Variable dirname : string -> string.
Variable join : string -> string -> string.
Variable export_public_pem : string -> result string.
Variable crypto_sign : Buffer -> string -> result Buffer.
Variable randomBytes16 : Buffer.
Variable toISOString_now : string.

Local Abbreviation verifyManifest :=
  (Verify.verifyManifest KeyObject createPublicKey crypto_verify sha256_hex
     Buffer_from_object basename dirname join).
Local Abbreviation getSidecarPaths := (Verify.getSidecarPaths basename dirname join).
Local Abbreviation createManifest :=
  (Stamp.createManifest sha256_hex export_public_pem crypto_sign randomBytes16
     toISOString_now).
Local Abbreviation saveSidecarFiles := (Stamp.saveSidecarFiles basename dirname join).


End ReformattedManifest.


(** ** The reader of [uuid] boxes comes to an end *)

(** X26: extractUUIDBoxes terminates on every buffer: a turn of its
    loop either leaves the loop or goes on at a strictly larger offset,
    and no more turns than the buffer has bytes, plus one, are taken;
    when it throws, the error is the range error of a read past the
    end. *)
Theorem extractUUIDBoxes_terminates :
  forall metaData : Buffer,
    (exists r, extractUUIDBoxes_loop (S (List.length metaData)) metaData [] 0 = Some r
               /\ extractUUIDBoxes metaData = r)
    /\ (forall offset pushed offset',
          extractUUIDBoxes_body metaData offset = UNext pushed offset' ->
          0 <= offset < offset')
    /\ (forall msg, extractUUIDBoxes metaData = Throw msg -> msg = "ERR_OUT_OF_RANGE").
Proof.
  intros metaData. split; [|split].
  - destruct (extractUUIDBoxes_fuel_enough metaData) as [r Hr].
    exists r. split; [exact Hr|]. unfold extractUUIDBoxes. rewrite Hr. reflexivity.
  - intros offset pushed offset'. apply extractUUIDBoxes_body_next.
  - assert (Hbody : forall offset msg,
               extractUUIDBoxes_body metaData offset = UThrow msg ->
               msg = "ERR_OUT_OF_RANGE").
    { intros offset msg. unfold extractUUIDBoxes_body.
      destruct (readUInt32BE metaData offset) as [size0|e] eqn:H32.
      - destruct ((size0 =? 0) || (size0 >? blen metaData - offset)); [discriminate|].
        destruct (size0 =? 1).
        + destruct (readUInt64BE metaData (offset + 8)) as [size|e] eqn:H64.
          * destruct (offset + 16 + 4 >? blen metaData); [discriminate|].
            destruct (equals _ _);
              [destruct (offset + 16 + 24 >? blen metaData); [discriminate|]|];
              destruct (size =? 0); discriminate.
          * apply readUInt64BE_message in H64. congruence.
        + destruct (offset + 4 + 4 >? blen metaData); [discriminate|].
          destruct (equals _ _);
            [destruct (offset + 4 + 24 >? blen metaData); [discriminate|]|];
            destruct (size0 =? 0); discriminate.
      - unfold readUInt32BE in H32. destruct (offset <? 0); [congruence|].
        destruct (skipn (Z.to_nat offset) metaData) as [|b0 [|b1 [|b2 [|b3 l]]]];
          congruence. }
    assert (Hloop : forall fuel boxes offset msg,
               extractUUIDBoxes_loop fuel metaData boxes offset = Some (Throw msg) ->
               msg = "ERR_OUT_OF_RANGE").
    { induction fuel as [|fuel IH]; intros boxes offset msg; [discriminate|].
      rewrite extractUUIDBoxes_loop_S.
      destruct (offset <? blen metaData - 8); [|discriminate].
      destruct (extractUUIDBoxes_body metaData offset) as [b|e|b o'] eqn:Hb.
      - discriminate.
      - intros H. apply (Hbody offset). congruence.
      - apply IH. }
    intros msg H. unfold extractUUIDBoxes in H.
    destruct (extractUUIDBoxes_loop (S (List.length metaData)) metaData [] 0)
      as [r|] eqn:Hr; [|discriminate].
    subst r. exact (Hloop _ _ _ _ Hr).
Qed.

Lemma extractUUIDBoxes_terminates_witness :
  exists r,
    extractUUIDBoxes_loop (S (List.length (box_bytes "free" (from_string "abcd"))))
      (box_bytes "free" (from_string "abcd")) [] 0 = Some r
    /\ extractUUIDBoxes (box_bytes "free" (from_string "abcd")) = r.
Proof.
  exact (proj1 (extractUUIDBoxes_terminates (box_bytes "free" (from_string "abcd")))).
Defined.

(** ** The dispatcher on file extensions *)


Lemma last_segment_dot (a s acc : list ascii) :
  last_segment (a ++ "."%char :: s) acc = last_segment s [].
Proof.
  revert acc. induction a as [|c a IH]; intros acc; cbn [app last_segment].
  - reflexivity.
  - destruct (Ascii.eqb c "."%char); apply IH.
Qed.

Lemma chars_append (a b : string) : chars (a ++ b)%string = chars a ++ chars b.
Proof.
  unfold chars. induction a as [|c a IH]; cbn; [reflexivity | rewrite IH; reflexivity].
Qed.

Lemma lower_dot (c : ascii) :
  Ascii.eqb (lower c) "."%char = Ascii.eqb c "."%char.
Proof.
  destruct c as [b0 b1 b2 b3 b4 b5 b6 b7].
  destruct b0, b1, b2, b3, b4, b5, b6, b7; reflexivity.
Qed.

Lemma lower_idempotent (c : ascii) : lower (lower c) = lower c.
Proof.
  destruct c as [b0 b1 b2 b3 b4 b5 b6 b7].
  destruct b0, b1, b2, b3, b4, b5, b6, b7; reflexivity.
Qed.

Lemma last_segment_lower (s acc : list ascii) :
  last_segment (map lower s) (map lower acc) = map lower (last_segment s acc).
Proof.
  revert acc. induction s as [|c s IH]; intros acc; cbn [map last_segment].
  - reflexivity.
  - rewrite lower_dot. destruct (Ascii.eqb c "."%char).
    + exact (IH []).
    + rewrite <- IH, map_app. reflexivity.
Qed.

(** X21: getMediaType looks at what follows the last dot of the path
    and at nothing else, and compares it without regard to case: a path
    that ends with a dot and an extension without dot has the type of
    the extension taken alone, and writing the whole path in lower case
    does not change the answer. *)
Theorem getMediaType_by_extension :
  forall (path ext : string),
    lacks "."%char (chars ext) = true ->
    getMediaType (path ++ "." ++ ext) = getMediaType ext
    /\ getMediaType (string_of_list_ascii (toLowerCase (chars ext))) = getMediaType ext.
Proof.
  intros path ext Hext. split.
  - unfold getMediaType.
    rewrite chars_append. change (chars ("." ++ ext)) with ("."%char :: chars ext).
    rewrite last_segment_dot. reflexivity.
  - unfold getMediaType. rewrite chars_string_of_list.
    unfold toLowerCase.
    pose proof (last_segment_lower (chars ext) []) as H. cbn [map] in H.
    rewrite H, map_map.
    rewrite (map_ext _ lower lower_idempotent). reflexivity.
Qed.

Lemma getMediaType_by_extension_witness :
  getMediaType ("takes/clip.v2" ++ "." ++ "WebM") = getMediaType "WebM"
  /\ getMediaType (string_of_list_ascii (toLowerCase (chars "WebM")))
     = getMediaType "WebM".
Proof.
  apply (getMediaType_by_extension "takes/clip.v2" "WebM"). reflexivity.
Defined.

(** X22: embedMetadata touches nothing but the asset: the file at every
    other path is what it was; when it throws (unsupported extension,
    missing file, no [moov] box, a size out of range) the file system
    is unchanged; and when it succeeds the asset existed before. *)
Theorem embedMetadata_touches_only_the_asset :
  forall (f : fs) (videoPath manifest signature : string),
    (forall q, q <> videoPath ->
               snd (embedMetadata f videoPath manifest signature) q = f q)
    /\ (forall msg, fst (embedMetadata f videoPath manifest signature) = Throw msg ->
                    snd (embedMetadata f videoPath manifest signature) = f)
    /\ (fst (embedMetadata f videoPath manifest signature) = Ok tt ->
        existsSync f videoPath = true
        /\ getMediaType videoPath <> None).
Proof.
  intros f videoPath manifest signature.
  unfold embedMetadata, embedMetadataMP4, embedMetadataWebM, readFileSync, existsSync.
  split; [|split].
  - intros q Hq. apply String.eqb_neq in Hq.
    destruct (getMediaType videoPath) as [[|]|]; [| |reflexivity];
      (destruct (f videoPath) as [content|]; [|reflexivity]).
    + destruct (embedMP4_buffer content manifest signature) as [newFile|];
        [|reflexivity].
      cbn [snd]. unfold writeFileSync. rewrite Hq. reflexivity.
    + cbn [snd]. unfold writeFileSync. rewrite Hq. reflexivity.
  - intros msg.
    destruct (getMediaType videoPath) as [[|]|]; [| |reflexivity];
      (destruct (f videoPath) as [content|]; [|reflexivity]).
    + destruct (embedMP4_buffer content manifest signature) as [newFile|];
        [discriminate | reflexivity].
    + discriminate.
  - destruct (getMediaType videoPath) as [[|]|]; [| |discriminate];
      (destruct (f videoPath) as [content|]; [|discriminate]);
      intros _; split; first [reflexivity | discriminate].
Qed.

Lemma embedMetadata_touches_only_the_asset_witness :
  snd (embedMetadata (fs_of "clip.webm" webm_sample) "clip.webm" "m" "s") "other.webm"
  = fs_of "clip.webm" webm_sample "other.webm".
Proof.
  apply (proj1 (embedMetadata_touches_only_the_asset
                  (fs_of "clip.webm" webm_sample) "clip.webm" "m" "s")).
  discriminate.
Defined.

(** ** The nonce *)

Lemma hex_val_hex_digit (n : N) : (n < 16)%N -> hex_val (hex_digit n) = Some n.
Proof.
  intros H.
  assert (Hn : In n [0; 1; 2; 3; 4; 5; 6; 7; 8; 9; 10; 11; 12; 13; 14; 15]%N).
  { cbn [In]. lia. }
  cbn [In] in Hn.
  repeat (destruct Hn as [<-|Hn]; [reflexivity|]). contradiction.
Qed.

Lemma hex_length (b : Buffer) : List.length (hex b) = (2 * List.length b)%nat.
Proof.
  unfold hex. induction b as [|c b IH]; cbn [flat_map List.length app]; lia.
Qed.

Lemma hex_injective (a b : Buffer) : hex a = hex b -> a = b.
Proof.
  revert b. induction a as [|x a IH]; intros [|y b] H; try discriminate H;
    [reflexivity|].
  unfold hex in H. cbn [flat_map app] in H. fold (hex a) in H. fold (hex b) in H.
  injection H as Hhi Hlo Hrest.
  pose proof (N_ascii_bounded x) as Hx. pose proof (N_ascii_bounded y) as Hy.
  assert (H1 : Some (N_of_ascii x / 16)%N = Some (N_of_ascii y / 16)%N).
  { rewrite <- !hex_val_hex_digit by (apply N.Div0.div_lt_upper_bound; lia).
    rewrite Hhi. reflexivity. }
  assert (H2 : Some (N_of_ascii x mod 16)%N = Some (N_of_ascii y mod 16)%N).
  { rewrite <- !hex_val_hex_digit by (apply N.mod_lt; lia).
    rewrite Hlo. reflexivity. }
  injection H1 as H1. injection H2 as H2.
  f_equal; [|apply IH; exact Hrest].
  rewrite <- (ascii_N_embedding x), <- (ascii_N_embedding y). f_equal.
  rewrite (N.div_mod (N_of_ascii x) 16), (N.div_mod (N_of_ascii y) 16) by lia.
  rewrite H1, H2. reflexivity.
Qed.

(** X23: generateNonce writes two hexadecimal digits, [0-9a-f], for
    each random byte, 32 characters for the 16 bytes the platform
    returns, and different random bytes give different nonces. *)
Theorem generateNonce_is_hex_of_random_bytes :
  forall r r' : Buffer,
    String.length (generateNonce r) = (2 * List.length r)%nat
    /\ Forall (fun c => exists n, hex_val c = Some n /\ (n < 16)%N
                                  /\ c = hex_digit n)
              (chars (generateNonce r))
    /\ (generateNonce r = generateNonce r' -> r = r').
Proof.
  intros r r'. unfold generateNonce. split; [|split].
  - rewrite <- from_string_length. unfold from_string.
    rewrite list_ascii_of_string_of_list_ascii. apply hex_length.
  - rewrite chars_string_of_list. unfold hex.
    induction r as [|c r IH]; [constructor|].
    pose proof (N_ascii_bounded c) as Hc.
    cbn [flat_map app]. constructor; [|constructor; [|exact IH]].
    + exists (N_of_ascii c / 16)%N.
      assert (N_of_ascii c / 16 < 16)%N by (apply N.Div0.div_lt_upper_bound; lia).
      split; [apply hex_val_hex_digit; assumption | split; [assumption | reflexivity]].
    + exists (N_of_ascii c mod 16)%N.
      assert (N_of_ascii c mod 16 < 16)%N by (apply N.mod_lt; lia).
      split; [apply hex_val_hex_digit; assumption | split; [assumption | reflexivity]].
  - intros H. apply hex_injective.
    rewrite <- (chars_string_of_list (hex r)), <- (chars_string_of_list (hex r')).
    rewrite H. reflexivity.
Qed.

Lemma generateNonce_is_hex_of_random_bytes_witness :
  String.length (generateNonce toy_randomBytes16) = 32%nat
  /\ generateNonce toy_randomBytes16 = "000102030405060708090a0b0c0d0eff".
Proof.
  split.
  - exact (proj1 (generateNonce_is_hex_of_random_bytes toy_randomBytes16 [])).
  - reflexivity.
Defined.
